(** * Junior Church attendance ETL: batch export and incremental pipeline

    A shallow embedding of [export_to_csv.py] (batch mode: several
    in-memory sheets, one per service, turned into three tables) and of
    [proposed_workflow/etl_pipeline.py] (incremental mode: form
    submissions loaded into a relational store), followed by the
    properties of the identity-resolution and attendance-recording logic.

    Conventions of the embedding
    - a spreadsheet cell is a [cell]: a missing value ([VNaN], what pandas
      yields for an empty cell), a string or an integer; floating point
      cells other than the missing value are not modelled;
    - a row is a finite map from column labels to cells; a label that is
      not in the map is a column the frame does not have;
    - strings are byte strings; trimming and upper-casing act on ASCII;
    - the relational store is three tables kept as lists in insertion
      order, with two sequences handing out surrogate keys; a [SELECT]
      returns its rows in insertion order;
    - the incremental pipeline is embedded twice. [Incremental] is the
      pipeline on a database that accepts every statement it is sent.
      [Transaction] is the same code on a database that can reject a
      statement: the statement raises, the transaction is aborted, every
      later statement raises, and the one commit at the end of the run
      keeps nothing. A run of [Transaction] in which no statement is
      rejected is a run of [Incremental] (lemma
      [process_attendance_accepted]); failures of the connection itself
      are not modelled;
    - [pd.to_datetime], [date.today()] and the verdict of the database
      on a statement are parameters of the incremental pipeline; logging
      and file output are left out. *)

From Stdlib Require Import ZArith Lia Ascii String.
From stdpp Require Import base decidable option list strings pretty gmap fin_maps sorting.

Open Scope string_scope.
Open Scope list_scope.
Open Scope Z_scope.

(** ** Python and pandas primitives *)

Module Py.

(** One cell of a data frame. *)
Inductive cell : Type :=
| VNaN
| VStr (s : string)
| VInt (z : Z).

#[global] Instance cell_eq_dec : EqDecision cell.
Proof. solve_decision. Defined.

(** [str(x)]: the missing value prints as the three letters nan. *)
Definition str (c : cell) : string :=
  match c with
  | VNaN => "nan"
  | VStr s => s
  | VInt z => pretty z
  end.

(** [pd.isna(x)], where [None] is Python's [None]. *)
Definition isna (c : option cell) : bool :=
  match c with
  | None => true
  | Some VNaN => true
  | Some _ => false
  end.

(** Truth value of a cell: the missing value is a float that is not
    zero, hence true. *)
Definition truthy (c : cell) : bool :=
  match c with
  | VNaN => true
  | VStr s => negb (String.eqb s "")
  | VInt z => negb (z =? 0)
  end.

(** [x == 1]. *)
Definition eq_one (c : cell) : bool :=
  match c with
  | VInt z => z =? 1
  | _ => false
  end.

(** Characters removed by [str.strip()] (ASCII range). *)
Definition is_space (a : ascii) : bool :=
  let n := Ascii.N_of_ascii a in
  ((9 <=? n) && (n <=? 13) || (28 <=? n) && (n <=? 32))%N.

Fixpoint lstrip (s : string) : string :=
  match s with
  | EmptyString => EmptyString
  | String a s' => if is_space a then lstrip s' else s
  end.

Definition rstrip (s : string) : string :=
  String.rev (lstrip (String.rev s)).

Definition strip (s : string) : string := rstrip (lstrip s).

Definition upper_char (a : ascii) : ascii :=
  let n := Ascii.N_of_ascii a in
  if ((97 <=? n) && (n <=? 122))%N then Ascii.ascii_of_N (n - 32) else a.

Fixpoint upper (s : string) : string :=
  match s with
  | EmptyString => EmptyString
  | String a s' => String (upper_char a) (upper s')
  end.

(** [int(s)] on a string: surrounding blanks are ignored, one sign is
    allowed, then decimal digits, with single underscores allowed
    between digits. [None] stands for [ValueError]. *)
Definition digit_of (a : ascii) : option Z :=
  let n := Ascii.N_of_ascii a in
  if ((48 <=? n) && (n <=? 57))%N then Some (Z.of_N (n - 48)) else None.

Fixpoint digits_go (s : string) (acc : Z) (after_digit : bool) : option Z :=
  match s with
  | EmptyString => if after_digit then Some acc else None
  | String a s' =>
      match digit_of a with
      | Some d => digits_go s' (10 * acc + d) true
      | None =>
          if (Ascii.eqb a "_" && after_digit)%bool
          then match s' with
               | EmptyString => None
               | _ => digits_go s' acc false
               end
          else None
      end
  end.

Definition int_of_string (s : string) : option Z :=
  match strip s with
  | String "-" s' => Z.opp <$> digits_go s' 0 false
  | String "+" s' => digits_go s' 0 false
  | s' => digits_go s' 0 false
  end.

(** [int(x)] on a cell. *)
Definition int (c : cell) : option Z :=
  match c with
  | VNaN => None
  | VStr s => int_of_string s
  | VInt z => Some z
  end.

(** [row.get(label, default)]; [row.get(label)], whose default is
    Python's [None], is the lookup [row !! label] itself. *)
Definition get_or (row : gmap string cell) (label : string) (d : cell) : cell :=
  default d (row !! label).

End Py.

Export Py.

(** ** Incremental mode: [proposed_workflow/etl_pipeline.py]

    The pipeline on a database that accepts every statement: the only
    exception of a row is the one [pd.to_datetime] raises. The database
    that rejects statements is in [Transaction] below. *)

Module Incremental.

(** A calendar date, the result of [pd.to_datetime(t).date()] and of
    [date.today()]. *)
Record date : Type := Date { year : Z; month : Z; day : Z }.

#[global] Instance date_eq_dec : EqDecision date.
Proof. solve_decision. Defined.

(** *** The persisted store

    Tables [parents], [children] and [attendance], with the columns the
    pipeline reads and writes. [parents_seq] and [children_seq] are the
    sequences behind [RETURNING parent_id] and [RETURNING child_id]. *)
Record parent_row : Type := ParentRow {
  p_parent_id : Z;
  p_full_name : string;
  p_phone_number : string;
  p_gender : string }.

Record child_row : Type := ChildRow {
  c_child_id : Z;
  c_parent_id : Z;
  c_full_name : string;
  c_age : Z;
  c_gender : string }.

Record attendance_row : Type := AttendanceRow {
  a_child_id : Z;
  a_service_name : string;
  a_attendance_date : date;
  a_was_present : bool }.

#[global] Instance parent_row_eq_dec : EqDecision parent_row.
Proof. solve_decision. Defined.
#[global] Instance child_row_eq_dec : EqDecision child_row.
Proof. solve_decision. Defined.
#[global] Instance attendance_row_eq_dec : EqDecision attendance_row.
Proof. solve_decision. Defined.

Record store : Type := Store {
  parents : list parent_row;
  children : list child_row;
  attendance : list attendance_row;
  parents_seq : Z;
  children_seq : Z }.

Definition empty_store : store :=
  {| parents := []; children := []; attendance := [];
     parents_seq := 1; children_seq := 1 |}.

(** The [stats] dictionary of [process_attendance]. *)
Record statistics : Type := Stats {
  total_submissions : Z;
  new_parents : Z;
  existing_parents : Z;
  new_children : Z;
  existing_children : Z;
  attendance_recorded : Z;
  errors : Z }.

Definition init_stats (n : Z) : statistics :=
  {| total_submissions := n; new_parents := 0; existing_parents := 0;
     new_children := 0; existing_children := 0; attendance_recorded := 0;
     errors := 0 |}.

(** *** Statements and exceptions

    The body of the loop threads the cursor's view of the store and the
    statistics, and may raise; what was done before the exception stays
    done (nothing in the loop rolls back). *)
Record state : Type := State { db : store; stats : statistics }.

Inductive exn : Type :=
| ParserError (timestamp : cell).

Inductive outcome (A : Type) : Type :=
| Returns (a : A)
| Raises (e : exn).
Arguments Returns {A} a.
Arguments Raises {A} e.

Definition M (A : Type) : Type := state → outcome A * state.

Definition ret {A} (a : A) : M A := λ s, (Returns a, s).
Definition raise {A} (e : exn) : M A := λ s, (Raises e, s).
Definition bind {A B} (m : M A) (k : A → M B) : M B :=
  λ s, match m s with
       | (Returns a, s') => k a s'
       | (Raises e, s') => (Raises e, s')
       end.

Notation "x <- m ;; k" := (bind m (λ x, k))
  (at level 100, m at next level, right associativity).
Notation "m ;;; k" := (bind m (λ _, k))
  (at level 100, right associativity).

Definition with_db {A} (f : store → A * store) : M A :=
  λ s, let '(a, d) := f (db s) in (Returns a, {| db := d; stats := stats s |}).

Definition count (f : statistics → statistics) : M unit :=
  λ s, (Returns tt, {| db := db s; stats := f (stats s) |}).

Definition incr_new_parents (t : statistics) : statistics :=
  Stats (total_submissions t) (new_parents t + 1) (existing_parents t)
        (new_children t) (existing_children t) (attendance_recorded t) (errors t).
Definition incr_existing_parents (t : statistics) : statistics :=
  Stats (total_submissions t) (new_parents t) (existing_parents t + 1)
        (new_children t) (existing_children t) (attendance_recorded t) (errors t).
Definition incr_new_children (t : statistics) : statistics :=
  Stats (total_submissions t) (new_parents t) (existing_parents t)
        (new_children t + 1) (existing_children t) (attendance_recorded t) (errors t).
Definition incr_existing_children (t : statistics) : statistics :=
  Stats (total_submissions t) (new_parents t) (existing_parents t)
        (new_children t) (existing_children t + 1) (attendance_recorded t) (errors t).
Definition incr_attendance_recorded (t : statistics) : statistics :=
  Stats (total_submissions t) (new_parents t) (existing_parents t)
        (new_children t) (existing_children t) (attendance_recorded t + 1) (errors t).
Definition incr_errors (t : statistics) : statistics :=
  Stats (total_submissions t) (new_parents t) (existing_parents t)
        (new_children t) (existing_children t) (attendance_recorded t) (errors t + 1).

(** [SELECT parent_id FROM parents WHERE phone_number = %s], then
    [fetchone()]: the first matching row, if any. *)
Definition select_parent (phone : string) (d : store) : option parent_row :=
  head (filter (λ p, p_phone_number p = phone) (parents d)).

(** [INSERT INTO parents (full_name, phone_number, gender) ... RETURNING
    parent_id]. *)
Definition insert_parent (name phone gender : string) (d : store) : Z * store :=
  (parents_seq d,
   {| parents := parents d ++ [ParentRow (parents_seq d) name phone gender];
      children := children d; attendance := attendance d;
      parents_seq := parents_seq d + 1; children_seq := children_seq d |}).

(** [SELECT child_id FROM children WHERE parent_id = %s AND
    UPPER(full_name) = UPPER(%s) AND age = %s], then [fetchone()]. *)
Definition select_child (parent_id : Z) (name : string) (age : Z) (d : store)
  : option child_row :=
  head (filter (λ c, c_parent_id c = parent_id
                     ∧ upper (c_full_name c) = upper name
                     ∧ c_age c = age) (children d)).

(** [INSERT INTO children (parent_id, full_name, age, gender) ...
    RETURNING child_id]. *)
Definition insert_child (parent_id : Z) (name : string) (age : Z) (gender : string)
    (d : store) : Z * store :=
  (children_seq d,
   {| parents := parents d;
      children := children d ++ [ChildRow (children_seq d) parent_id name age gender];
      attendance := attendance d;
      parents_seq := parents_seq d; children_seq := children_seq d + 1 |}).

(** The natural key of an attendance row. *)
Definition attendance_key (a : attendance_row) : Z * string * date :=
  (a_child_id a, a_service_name a, a_attendance_date a).

(** [INSERT INTO attendance (child_id, service_name, attendance_date,
    was_present) VALUES (%s, %s, %s, TRUE) ON CONFLICT (child_id,
    service_name, attendance_date) DO NOTHING]; the result is
    [cursor.rowcount]. *)
Definition insert_attendance (child_id : Z) (service_name : string) (d8 : date)
    (d : store) : Z * store :=
  if decide ((child_id, service_name, d8) ∈ attendance_key <$> attendance d)
  then (0, d)
  else (1,
        {| parents := parents d; children := children d;
           attendance := attendance d ++ [AttendanceRow child_id service_name d8 true];
           parents_seq := parents_seq d; children_seq := children_seq d |}).

(** A connection: what has been committed, and what the open transaction
    sees. *)
Record connection : Type := Connection { committed : store; session : store }.

Definition connect (d : store) : connection := {| committed := d; session := d |}.

Section Pipeline.

(** [pd.to_datetime(t).date()], a library function taken as given;
    [None] when it raises. *)
Variable to_datetime_date : cell → option date.

(** [date.today()], the same during one run. *)
Variable today : date.

Definition gender_or_male (g : string) : string :=
  if decide (g ∈ ["Male"; "Female"]) then g else "Male".

(** Lines 96-120: find or create the parent. *)
Definition resolve_parent (parent_name parent_phone parent_gender : string) : M Z :=
  result <- with_db (λ d, (select_parent parent_phone d, d)) ;;
  match result with
  | Some p =>
      count incr_existing_parents ;;;
      ret (p_parent_id p)
  | None =>
      parent_id <- with_db (insert_parent parent_name parent_phone parent_gender) ;;
      count incr_new_parents ;;;
      ret parent_id
  end.

(** Lines 146-175: find or create the child. *)
Definition resolve_child (parent_id : Z) (child_name : string) (child_age : Z)
    (child_gender : string) : M Z :=
  result <- with_db (λ d, (select_child parent_id child_name child_age d, d)) ;;
  match result with
  | Some c =>
      count incr_existing_children ;;;
      ret (c_child_id c)
  | None =>
      child_id <- with_db (insert_child parent_id child_name child_age child_gender) ;;
      count incr_new_children ;;;
      ret child_id
  end.

(** Lines 178-193: record the attendance. *)
Definition record_attendance (child_id : Z) (service_name : string) (d8 : date)
  : M unit :=
  rowcount <- with_db (insert_attendance child_id service_name d8) ;;
  if 0 <? rowcount then count incr_attendance_recorded else ret tt.

(** The column labels of child slot [n]. *)
Definition child_name_col (n : Z) : string := "Child " +:+ pretty n +:+ " Name".
Definition child_age_col (n : Z) : string := "Child " +:+ pretty n +:+ " Age".
Definition child_gender_col (n : Z) : string := "Child " +:+ pretty n +:+ " Gender".

(** Lines 72-74 and 82-85. *)
Definition parent_name (row : gmap string cell) : string :=
  strip (Py.str (get_or row "Your Name" (VStr ""))).
Definition parent_phone (row : gmap string cell) : string :=
  strip (Py.str (get_or row "Your Phone" (VStr ""))).
Definition parent_gender (row : gmap string cell) : string :=
  gender_or_male (strip (Py.str (get_or row "Your Gender" (VStr "Male")))).

(** Line 77: [not parent_phone or not parent_name]. *)
Definition missing_name_or_phone (row : gmap string cell) : bool :=
  (String.eqb (parent_phone row) "" || String.eqb (parent_name row) "")%bool.

(** Lines 88-92; [None] when [pd.to_datetime] raises. The time stamps
    that are read as [NaT] are in [Transaction]. *)
Definition attendance_date (row : gmap string cell) : option date :=
  let timestamp := get_or row "Timestamp" (VStr "") in
  if truthy timestamp then to_datetime_date timestamp else Some today.

(** Line 124. *)
Definition child_name (row : gmap string cell) (child_num : Z) : string :=
  strip (Py.str (get_or row (child_name_col child_num) (VStr ""))).

(** Lines 131 and 135-138: a missing value and a value [int] rejects
    both become 0. *)
Definition child_age (row : gmap string cell) (child_num : Z) : Z :=
  let child_age := get_or row (child_age_col child_num) (VInt 0) in
  if isna (Some child_age) then 0 else default 0 (Py.int child_age).

(** Lines 132 and 140-141. *)
Definition child_gender (row : gmap string cell) (child_num : Z) : string :=
  gender_or_male
    (strip (Py.str (get_or row (child_gender_col child_num) (VStr "Male")))).

(** Line 144. *)
Definition service_name (row : gmap string cell) : string :=
  strip (Py.str (get_or row "Which Service" (VStr "First Service"))).

(** Lines 123-193: one iteration of the loop over the child slots. *)
Definition child_slot (row : gmap string cell) (parent_id : Z) (d8 : date)
    (child_num : Z) : M unit :=
  if String.eqb (child_name row child_num) "" then ret tt
  else
    child_id <- resolve_child parent_id (child_name row child_num)
                  (child_age row child_num) (child_gender row child_num) ;;
    record_attendance child_id (service_name row) d8.

Fixpoint for_each {A} (l : list A) (body : A → M unit) : M unit :=
  match l with
  | [] => ret tt
  | x :: l' => body x ;;; for_each l' body
  end.

(** Lines 72-193: the body of the [try] for one submission. *)
Definition row_body (row : gmap string cell) : M unit :=
  if missing_name_or_phone row then count incr_errors
  else
    d8 <- match attendance_date row with
          | Some d8 => ret d8
          | None => raise (ParserError (get_or row "Timestamp" (VStr "")))
          end ;;
    parent_id <- resolve_parent (parent_name row) (parent_phone row)
                   (parent_gender row) ;;
    for_each [1; 2; 3] (child_slot row parent_id d8).

(** Lines 70-199: one iteration of the loop over the submissions, with
    its [except Exception]. *)
Definition process_row (s : state) (row : gmap string cell) : state :=
  match row_body row s with
  | (Returns _, s') => s'
  | (Raises _, s') => {| db := db s'; stats := incr_errors (stats s') |}
  end.

Definition process_rows (df : list (gmap string cell)) (s : state) : state :=
  foldl process_row s df.

Definition start (df : list (gmap string cell)) (conn : connection) : state :=
  {| db := session conn; stats := init_stats (Z.of_nat (length df)) |}.

(** [process_attendance(df, conn)]: the loop, then the one
    [conn.commit()] of line 201, which publishes what the loop wrote
    when every statement was accepted. *)
Definition process_attendance (df : list (gmap string cell)) (conn : connection)
  : connection * statistics :=
  let s := process_rows df (start df conn) in
  ({| committed := db s; session := db s |}, stats s).

End Pipeline.

(** *** Notions used to state the properties *)

(** The tables of [d'] start with the tables of [d]: rows were added at
    the end, none was changed or removed. *)
Record extends (d d' : store) : Prop := Extends {
  ext_parents : parents d `prefix_of` parents d';
  ext_children : children d `prefix_of` children d';
  ext_attendance : attendance d `prefix_of` attendance d' }.

(** The constraints of the schema that the pipeline relies on: [child_id]
    is a key fed by its sequence, and the natural key of [attendance] is
    unique (the target of its [ON CONFLICT]). *)
Record well_formed (d : store) : Prop := WellFormed {
  wf_child_ids : NoDup (c_child_id <$> children d);
  wf_children_seq : ∀ c, c ∈ children d → c_child_id c < children_seq d;
  wf_attendance : NoDup (attendance_key <$> attendance d) }.


(** Two statistics that report the same new parents, new children and
    recorded attendance. *)
Definition same_news (t t' : statistics) : Prop :=
  new_parents t' = new_parents t
  ∧ new_children t' = new_children t
  ∧ attendance_recorded t' = attendance_recorded t.

(** Child slot [n] of [row] has nothing left to write into [d]. *)
Definition slot_done (row : gmap string cell) (pid : Z) (d8 : date) (n : Z) (d : store)
  : Prop :=
  child_name row n = ""
  ∨ ∃ c, select_child pid (child_name row n) (child_age row n) d = Some c
         ∧ (c_child_id c, service_name row, d8) ∈ attendance_key <$> attendance d.

(** A submission, dated [d8], has nothing left to write into [d]. *)
Definition row_done (d8 : option date) (row : gmap string cell) (d : store) : Prop :=
  missing_name_or_phone row = true
  ∨ d8 = None
  ∨ ∃ d8' p, d8 = Some d8'
             ∧ select_parent (parent_phone row) d = Some p
             ∧ ∀ n, n ∈ [1; 2; 3] → slot_done row (p_parent_id p) d8' n d.

(** [later to_datetime_date today s s']: the load went from [s] to [s']
    through any number of further statements, child slots and
    submissions. *)
Inductive later (to_datetime_date : cell → option date) (today : date)
  : state → state → Prop :=
| later_now s : later to_datetime_date today s s
| later_parent s s1 s2 name phone gender pid :
    later to_datetime_date today s s1 →
    resolve_parent name phone gender s1 = (Returns pid, s2) →
    later to_datetime_date today s s2
| later_child s s1 s2 pid name age gender cid :
    later to_datetime_date today s s1 →
    resolve_child pid name age gender s1 = (Returns cid, s2) →
    later to_datetime_date today s s2
| later_attendance s s1 s2 cid service d8 :
    later to_datetime_date today s s1 →
    record_attendance cid service d8 s1 = (Returns tt, s2) →
    later to_datetime_date today s s2
| later_slot s s1 s2 row pid d8 n :
    later to_datetime_date today s s1 →
    child_slot row pid d8 n s1 = (Returns tt, s2) →
    later to_datetime_date today s s2
| later_row s s1 row :
    later to_datetime_date today s s1 →
    later to_datetime_date today s (process_row to_datetime_date today s1 row).

End Incremental.

(** ** Incremental mode on a database that can reject a statement

    [Incremental] above is the pipeline on a database that accepts every
    statement it is sent. Here every [cursor.execute] of lines 97-186
    asks the database first. A statement that is rejected raises inside
    the [try] of line 71 and leaves the transaction aborted; the handler
    of lines 196-199 counts the error and does not roll back, so every
    later statement of the run raises as well, and the [conn.commit()]
    of line 201 then ends the transaction without keeping any of its
    rows. The sequences behind [RETURNING] are not part of the
    transaction: what was drawn stays drawn. *)

Module Transaction.
Import Incremental.

(** What [pd.to_datetime(t).date()] returns: a calendar date, or [NaT],
    the missing value of time stamps, which [.date()] hands through. *)
Inductive stamp : Type :=
| NaT
| Day (d : date).

#[global] Instance stamp_eq_dec : EqDecision stamp.
Proof. solve_decision. Defined.

(** The five statements of the pipeline, with their parameters. *)
Inductive statement : Type :=
| SelectParent (phone : string)
| InsertParent (name phone gender : string)
| SelectChild (parent_id : Z) (name : string) (age : Z)
| InsertChild (parent_id : Z) (name : string) (age : Z) (gender : string)
| InsertAttendance (child_id : Z) (service_name : string) (d8 : stamp).

(** The answer of the database to a statement. [Rejected drawn]: the
    statement failed (a value that does not fit its column, a constraint
    of the schema); [drawn] tells whether the sequence value of a
    [RETURNING] had been drawn by then. *)
Inductive verdict : Type :=
| Accepted
| Rejected (drawn : bool).

(** The exceptions that reach the handler of line 196. *)
Inductive exn : Type :=
| ParserError (timestamp : cell)
| DatabaseError (q : statement)
| InFailedSqlTransaction (q : statement).

Inductive reply (A : Type) : Type :=
| Returned (a : A)
| Raised (e : exn).
Arguments Returned {A} a.
Arguments Raised {A} e.

(** The state of the loop: the cursor's view of the store and the
    statistics, and whether the open transaction is aborted. *)
Record txn : Type := Txn { cur : state; aborted : bool }.

Definition T (A : Type) : Type := txn → reply A * txn.

Definition ret {A} (a : A) : T A := λ t, (Returned a, t).
Definition raise {A} (e : exn) : T A := λ t, (Raised e, t).
Definition bind {A B} (m : T A) (k : A → T B) : T B :=
  λ t, match m t with
       | (Returned a, t') => k a t'
       | (Raised e, t') => (Raised e, t')
       end.

#[local, warnings="-notation-overridden"]
Notation "x <- m ;; k" := (bind m (λ x, k))
  (at level 100, m at next level, right associativity).
#[local, warnings="-notation-overridden"]
Notation "m ;;; k" := (bind m (λ _, k))
  (at level 100, right associativity).

Definition count (f : statistics → statistics) : T unit :=
  λ t, (Returned tt, Txn (State (db (cur t)) (f (stats (cur t)))) (aborted t)).

(** The sequence value that an [INSERT ... RETURNING] draws. *)
Definition draw (q : statement) (d : store) : store :=
  match q with
  | InsertParent _ _ _ =>
      {| parents := parents d; children := children d; attendance := attendance d;
         parents_seq := parents_seq d + 1; children_seq := children_seq d |}
  | InsertChild _ _ _ _ =>
      {| parents := parents d; children := children d; attendance := attendance d;
         parents_seq := parents_seq d; children_seq := children_seq d + 1 |}
  | _ => d
  end.

(** The database rejects [q]: the statement raises, the tables are as
    they were and the transaction is aborted. *)
Definition rejected {A} (q : statement) (drawn : bool) : T A :=
  λ t, (Raised (DatabaseError q),
        Txn (State (if drawn then draw q (db (cur t)) else db (cur t)) (stats (cur t)))
            true).

Section Pipeline.

(** The database's answer to a statement sent while the transaction
    sees a given store. *)
Variable database : store → statement → verdict.

(** [pd.to_datetime(t).date()], a library function taken as given;
    [None] when it raises. *)
Variable to_datetime_date : cell → option stamp.

(** [date.today()], the same during one run. *)
Variable today : date.

(** [cursor.execute(q)]: in an aborted transaction the statement is not
    run and raises; otherwise the database accepts it and [run] is its
    effect, or rejects it. *)
Definition execute {A} (q : statement) (run : store → A * store) : T A :=
  λ t, if aborted t then (Raised (InFailedSqlTransaction q), t)
       else match database (db (cur t)) q with
            | Accepted =>
                let '(a, d) := run (db (cur t)) in
                (Returned a, Txn (State d (stats (cur t))) false)
            | Rejected drawn => rejected q drawn t
            end.

(** Lines 179-186. The [attendance_date] column holds dates: the
    statement whose parameter is [NaT] is rejected by every database. *)
Definition execute_insert_attendance (child_id : Z) (service_name : string) (d8 : stamp)
  : T Z :=
  match d8 with
  | Day d =>
      execute (InsertAttendance child_id service_name d8)
        (insert_attendance child_id service_name d)
  | NaT =>
      λ t, if aborted t
           then (Raised (InFailedSqlTransaction (InsertAttendance child_id service_name d8)), t)
           else rejected (InsertAttendance child_id service_name d8) false t
  end.

(** Lines 96-120: find or create the parent. *)
Definition resolve_parent (parent_name parent_phone parent_gender : string) : T Z :=
  result <- execute (SelectParent parent_phone)
              (λ d, (select_parent parent_phone d, d)) ;;
  match result with
  | Some p =>
      count incr_existing_parents ;;;
      ret (p_parent_id p)
  | None =>
      parent_id <- execute (InsertParent parent_name parent_phone parent_gender)
                     (insert_parent parent_name parent_phone parent_gender) ;;
      count incr_new_parents ;;;
      ret parent_id
  end.

(** Lines 146-175: find or create the child. *)
Definition resolve_child (parent_id : Z) (child_name : string) (child_age : Z)
    (child_gender : string) : T Z :=
  result <- execute (SelectChild parent_id child_name child_age)
              (λ d, (select_child parent_id child_name child_age d, d)) ;;
  match result with
  | Some c =>
      count incr_existing_children ;;;
      ret (c_child_id c)
  | None =>
      child_id <- execute (InsertChild parent_id child_name child_age child_gender)
                    (insert_child parent_id child_name child_age child_gender) ;;
      count incr_new_children ;;;
      ret child_id
  end.

(** Lines 178-193: record the attendance. *)
Definition record_attendance (child_id : Z) (service_name : string) (d8 : stamp)
  : T unit :=
  rowcount <- execute_insert_attendance child_id service_name d8 ;;
  if 0 <? rowcount then count incr_attendance_recorded else ret tt.

(** Lines 88-92: a time stamp that is truthy goes through
    [pd.to_datetime]; the missing value is truthy. *)
Definition attendance_date (row : gmap string cell) : option stamp :=
  let timestamp := get_or row "Timestamp" (VStr "") in
  if truthy timestamp then to_datetime_date timestamp else Some (Day today).

(** Lines 123-193: one iteration of the loop over the child slots. *)
Definition child_slot (row : gmap string cell) (parent_id : Z) (d8 : stamp)
    (child_num : Z) : T unit :=
  if String.eqb (child_name row child_num) "" then ret tt
  else
    child_id <- resolve_child parent_id (child_name row child_num)
                  (child_age row child_num) (child_gender row child_num) ;;
    record_attendance child_id (service_name row) d8.

Fixpoint for_each {A} (l : list A) (body : A → T unit) : T unit :=
  match l with
  | [] => ret tt
  | x :: l' => body x ;;; for_each l' body
  end.

(** Lines 72-193: the body of the [try] for one submission. *)
Definition row_body (row : gmap string cell) : T unit :=
  if missing_name_or_phone row then count incr_errors
  else
    d8 <- match attendance_date row with
          | Some d8 => ret d8
          | None => raise (ParserError (get_or row "Timestamp" (VStr "")))
          end ;;
    parent_id <- resolve_parent (parent_name row) (parent_phone row)
                   (parent_gender row) ;;
    for_each [1; 2; 3] (child_slot row parent_id d8).

(** Lines 70-199: one iteration of the loop over the submissions. The
    handler counts the error; it does not roll back. *)
Definition process_row (t : txn) (row : gmap string cell) : txn :=
  match row_body row t with
  | (Returned _, t') => t'
  | (Raised _, t') =>
      Txn (State (db (cur t')) (incr_errors (stats (cur t')))) (aborted t')
  end.

Definition process_rows (df : list (gmap string cell)) (t : txn) : txn :=
  foldl process_row t df.

Definition start (df : list (gmap string cell)) (conn : connection) : txn :=
  Txn (Incremental.start df conn) false.

(** The end of an aborted transaction: the tables are the committed
    ones, the sequences stay where the transaction left them. *)
Definition rollback (kept seen : store) : store :=
  {| parents := parents kept; children := children kept; attendance := attendance kept;
     parents_seq := parents_seq seen; children_seq := children_seq seen |}.

(** Line 201, [conn.commit()]: the transaction is committed, unless it
    is aborted, in which case it is rolled back. *)
Definition commit (conn : connection) (t : txn) : connection :=
  let d := if aborted t then rollback (committed conn) (db (cur t)) else db (cur t) in
  {| committed := d; session := d |}.

(** [process_attendance(df, conn)]: the loop, then the one commit. *)
Definition process_attendance (df : list (gmap string cell)) (conn : connection)
  : connection * statistics :=
  let t := process_rows df (start df conn) in
  (commit conn t, stats (cur t)).

(** *** Notions used to state the properties *)

(** Some statement of the run was rejected. *)
Definition statement_rejected (df : list (gmap string cell)) (conn : connection) : bool :=
  aborted (process_rows df (start df conn)).

(** The submissions that reach the statements: they pass the test of
    line 77 and [pd.to_datetime] does not raise on their time stamp. *)
Definition reaches_statements (row : gmap string cell) : bool :=
  (negb (missing_name_or_phone row) && bool_decide (is_Some (attendance_date row)))%bool.

End Pipeline.

(** The same rows in the three tables. *)
Definition same_tables (d d' : store) : Prop :=
  parents d' = parents d ∧ children d' = children d ∧ attendance d' = attendance d.

(** [n] more errors counted, nothing else changed. *)
Definition add_errors (n : Z) (t : txn) : txn :=
  let s := stats (cur t) in
  Txn (State (db (cur t))
         (Stats (total_submissions s) (new_parents s) (existing_parents s)
            (new_children s) (existing_children s) (attendance_recorded s)
            (errors s + n)))
      (aborted t).

(** The reading of time stamps in [Incremental] that goes with
    [to_datetime_date]: the same dates, raising on the same cells. A
    [NaT] that never reaches the attendance statement is read as
    [fallback]. *)
Definition as_date (fallback : date) (d8 : stamp) : date :=
  match d8 with
  | Day d => d
  | NaT => fallback
  end.

Definition day_of (fallback : date) (to_datetime_date : cell → option stamp)
  : cell → option date :=
  λ c, as_date fallback <$> to_datetime_date c.

(** The counters that the child slots never touch. *)
Definition frame (s s' : statistics) : Prop :=
  total_submissions s' = total_submissions s
  ∧ errors s' = errors s
  ∧ new_parents s' = new_parents s
  ∧ existing_parents s' = existing_parents s.

(** What a rejected statement does to the submission it belongs to: the
    transaction is aborted, the submission is counted as one error, and
    its parent may have been counted before. *)
Record struck (t t' : txn) : Prop := Struck {
  struck_aborted : aborted t' = true;
  struck_total : total_submissions (stats (cur t')) = total_submissions (stats (cur t));
  struck_errors : errors (stats (cur t')) = errors (stats (cur t)) + 1;
  struck_parents :
    new_parents (stats (cur t)) + existing_parents (stats (cur t))
    ≤ new_parents (stats (cur t')) + existing_parents (stats (cur t'))
    ≤ new_parents (stats (cur t)) + existing_parents (stats (cur t)) + 1 }.

(** Two states of the loop that differ in the statistics only. *)
Definition alike (t1 t2 : txn) : Prop :=
  db (cur t1) = db (cur t2) ∧ aborted t1 = aborted t2.

(** A computation whose result and whose effect on the store do not
    depend on the statistics. *)
Definition blind {A} (m : T A) : Prop :=
  ∀ t1 t2, alike t1 t2 → (m t1).1 = (m t2).1 ∧ alike (m t1).2 (m t2).2.

End Transaction.

(** ** Batch mode: [export_to_csv.py] *)

Module Batch.

Definition ATTENDANCE_DATE : string := "2026-01-26".

(** One row of a sheet. The [ID] column is an integer column without
    missing values; every other column is looked up by its label. *)
Record sheet_row : Type := SheetRow { ID : Z; cells : gmap string cell }.

(** [sheets]: the workbook, sheet name to rows, in workbook order. *)
Definition workbook : Type := list (string * list sheet_row).

(** The script has no [try]: an exception ends it, before any file is
    written. [ValueError] comes from [int] on an age, [KeyError] from
    dropping the [dedupe_key] column of a frame built from no record. *)
Inductive error : Type :=
| ValueError (age : cell)
| KeyError (label : string).

Inductive result (A : Type) : Type :=
| Ok (a : A)
| Abort (e : error).
Arguments Ok {A} a.
Arguments Abort {A} e.

Definition bind {A B} (m : result A) (k : A → result B) : result B :=
  match m with
  | Ok a => k a
  | Abort e => Abort e
  end.

#[local] Notation "x <- m ;; k" := (bind m (λ x, k))
  (at level 100, m at next level, right associativity).

(** Loop that appends to a list, stopped by the first exception. *)
Fixpoint collect {A B} (body : A → result (list B)) (l : list A) : result (list B) :=
  match l with
  | [] => Ok []
  | x :: l' =>
      ys <- body x ;;
      zs <- collect body l' ;;
      Ok (ys ++ zs)
  end.

(** [df.drop_duplicates(subset=[key], keep='first')]. *)
Fixpoint drop_duplicates {A K} `{EqDecision K} (key : A → K) (l : list A) : list A :=
  match l with
  | [] => []
  | x :: l' => x :: filter (λ y, key y ≠ key x) (drop_duplicates key l')
  end.

(** *** Step 1: unique parents *)

(** [combined_df]: the sheets one after the other. *)
Definition combined_df (sheets : workbook) : list sheet_row :=
  concat (snd <$> sheets).

(** A row of [unique_parents]. *)
Record parent : Type := Parent {
  parent_id : Z;
  original_id : Z;
  full_name : cell;
  email : cell;
  gender : cell;
  role_in_church : cell;
  department_in_church : cell;
  phone_number : cell;
  secondary_phone_number : cell;
  address : cell }.

(** A cell of [combined_df]: missing where the row's sheet has no such
    column. *)
Definition column (label : string) (row : sheet_row) : cell :=
  default VNaN (cells row !! label).

(** [.fillna('')]. *)
Definition fillna_empty (c : cell) : cell :=
  match c with VNaN => VStr "" | _ => c end.

(** [.astype(str).replace('nan', '')]. *)
Definition astype_str_replace_nan (c : cell) : cell :=
  let s := Py.str c in
  if String.eqb s "nan" then VStr "" else VStr s.

(** Lines 39-47 on one row; the [parent_id] column does not exist yet
    and is left at 0. *)
Definition parent_of_row (row : sheet_row) : parent :=
  {| parent_id := 0;
     original_id := ID row;
     full_name := column "Full Name" row;
     email := fillna_empty (column "Email" row);
     gender := column "Gender" row;
     role_in_church := column "Role In Church" row;
     department_in_church := column "Department In Church" row;
     phone_number := astype_str_replace_nan (column "Phone Number" row);
     secondary_phone_number :=
       astype_str_replace_nan (column "Secondary Phone Number" row);
     address := column "Address" row |}.

Definition with_parent_id (i : nat) (p : parent) : parent :=
  {| parent_id := Z.of_nat i + 1;
     original_id := original_id p;
     full_name := full_name p;
     email := email p;
     gender := gender p;
     role_in_church := role_in_church p;
     department_in_church := department_in_church p;
     phone_number := phone_number p;
     secondary_phone_number := secondary_phone_number p;
     address := address p |}.

(** The order of [sort_values('original_id')]. *)
Definition by_original_id (p q : parent) : Prop := original_id p ≤ original_id q.

#[global] Instance by_original_id_dec : RelDecision by_original_id.
Proof. intros p q. unfold by_original_id. apply _. Defined.

(** Lines 39-50: deduplicate on [ID], clean the columns of each row that
    is kept, sort on the original id, number from 1. *)
Definition unique_parents (sheets : workbook) : list parent :=
  imap with_parent_id
    (merge_sort by_original_id
       (parent_of_row <$> drop_duplicates ID (combined_df sheets))).

(** Line 52: [dict(zip(original_id, parent_id))]. *)
Definition parent_mapping (sheets : workbook) : gmap Z Z :=
  foldl (λ m p, <[original_id p := parent_id p]> m) ∅ (unique_parents sheets).

(** *** Step 2: unique children *)

Definition child_name_col (n : Z) : string := "Full Name of Child " +:+ pretty n.
Definition child_age_col (n : Z) : string := "Age of Child " +:+ pretty n.
Definition child_gender_col (n : Z) : string := "Gender of Child " +:+ pretty n.
Definition child_special_needs_col (n : Z) : string := "Special Needs of Child " +:+ pretty n.
Definition child_relationship_col (n : Z) : string := "Relationship With Child " +:+ pretty n.
Definition checkin_col (n : Z) : string := "Child " +:+ pretty n +:+ " (check-in)".

(** A row of [all_children]; [child_id] is 0 until line 95. *)
Record child : Type := Child {
  child_id : Z;
  child_parent_id : Z;
  child_full_name : string;
  age : Z;
  child_gender : string;
  special_needs : option string;
  relationship_to_parent : string;
  dedupe_key : string }.

(** The key of lines 84, 102 and 130. *)
Definition child_key (parent_id : Z) (upper_name : string) (age : Z) : string :=
  pretty parent_id +:+ "_" +:+ upper_name +:+ "_" +:+ pretty age.

(** Lines 75 and 127. *)
Definition child_age (row : sheet_row) (child_num : Z) : result Z :=
  if isna (cells row !! child_age_col child_num) then Ok 0
  else
    let v := get_or (cells row) (child_age_col child_num) (VInt 0) in
    match Py.int v with
    | Some z => Ok z
    | None => Abort (ValueError v)
    end.

(** Lines 70-73 and 122-125: is the slot skipped? *)
Definition slot_is_empty (row : sheet_row) (child_num : Z) : bool :=
  let child_name := cells row !! child_name_col child_num in
  (isna child_name
   || String.eqb (strip (Py.str (default VNaN child_name))) "")%bool.

Definition slot_name (row : sheet_row) (child_num : Z) : string :=
  strip (Py.str (default VNaN (cells row !! child_name_col child_num))).

(** Lines 69-87: one child slot. *)
Definition child_of_slot (parent_id : Z) (row : sheet_row) (child_num : Z)
  : result (list child) :=
  if slot_is_empty row child_num then Ok []
  else
    a <- child_age row child_num ;;
    Ok [ {| child_id := 0;
            child_parent_id := parent_id;
            child_full_name := slot_name row child_num;
            age := a;
            child_gender :=
              strip (Py.str (get_or (cells row) (child_gender_col child_num)
                               (VStr "Unknown")));
            special_needs :=
              (let v := cells row !! child_special_needs_col child_num in
               if isna v then None else Some (strip (Py.str (default VNaN v))));
            relationship_to_parent :=
              (let v := cells row !! child_relationship_col child_num in
               if isna v then "Child" else strip (Py.str (default VNaN v)));
            dedupe_key := child_key parent_id (upper (slot_name row child_num)) a |} ].

(** Lines 62-87: one row. *)
Definition children_of_row (mapping : gmap Z Z) (row : sheet_row) : result (list child) :=
  match mapping !! ID row with
  | None => Ok []
  | Some parent_id => collect (child_of_slot parent_id row) [1; 2; 3]
  end.

(** Lines 59-87. *)
Definition all_children (sheets : workbook) : result (list child) :=
  collect (λ sheet, collect (children_of_row (parent_mapping sheets)) (snd sheet)) sheets.

Definition with_child_id (i : nat) (c : child) : child :=
  {| child_id := Z.of_nat i + 1;
     child_parent_id := child_parent_id c;
     child_full_name := child_full_name c;
     age := age c;
     child_gender := child_gender c;
     special_needs := special_needs c;
     relationship_to_parent := relationship_to_parent c;
     dedupe_key := dedupe_key c |}.

(** Lines 93-95. The [dedupe_key] column is dropped at line 94; it is
    kept here, and never read again. *)
Definition children_unique (children : list child) : list child :=
  imap with_child_id (drop_duplicates dedupe_key children).

(** Lines 100-103. *)
Definition child_lookup (unique : list child) : gmap string Z :=
  foldl (λ m c,
           <[child_key (child_parent_id c) (upper (child_full_name c)) (age c)
             := child_id c]> m) ∅ unique.

(** *** Step 3: attendance *)

Record attendance : Type := Attendance {
  attendance_id : Z;
  attendance_child_id : Z;
  service_name : string;
  attendance_date : string;
  check_in_time : option string;
  check_out_time : option string;
  was_present : bool }.

(** Lines 141-143. *)
Definition present (row : sheet_row) (child_num : Z) : bool :=
  match cells row !! checkin_col child_num with
  | Some v => (negb (isna (Some v)) && eq_one v)%bool
  | None => false
  end.

(** Lines 127-131: the [child_id] found for a slot, [None] when the
    lookup misses. *)
Definition slot_child_id (lookup : gmap string Z) (parent_id : Z) (row : sheet_row)
    (child_num : Z) : result (option Z) :=
  a <- child_age row child_num ;;
  Ok (lookup !! child_key parent_id (upper (slot_name row child_num)) a).

(** Lines 121-156: one child slot. *)
Definition attendance_of_slot (lookup : gmap string Z) (sheet_name : string)
    (parent_id : Z) (row : sheet_row) (child_num : Z) : result (list attendance) :=
  if slot_is_empty row child_num then Ok []
  else
    found <- slot_child_id lookup parent_id row child_num ;;
    match found with
    | None => Ok []
    | Some cid =>
        if present row child_num
        then Ok [ {| attendance_id := 0;
                     attendance_child_id := cid;
                     service_name := sheet_name;
                     attendance_date := ATTENDANCE_DATE;
                     check_in_time := None;
                     check_out_time := None;
                     was_present := true |} ]
        else Ok []
    end.

Definition attendance_of_row (mapping : gmap Z Z) (lookup : gmap string Z)
    (sheet_name : string) (row : sheet_row) : result (list attendance) :=
  match mapping !! ID row with
  | None => Ok []
  | Some parent_id =>
      collect (attendance_of_slot lookup sheet_name parent_id row) [1; 2; 3]
  end.

(** Lines 109-156. *)
Definition all_attendance (sheets : workbook) (lookup : gmap string Z)
  : result (list attendance) :=
  collect (λ sheet,
             collect (attendance_of_row (parent_mapping sheets) lookup (fst sheet))
               (snd sheet)) sheets.

Definition with_attendance_id (i : nat) (a : attendance) : attendance :=
  {| attendance_id := Z.of_nat i + 1;
     attendance_child_id := attendance_child_id a;
     service_name := service_name a;
     attendance_date := attendance_date a;
     check_in_time := check_in_time a;
     check_out_time := check_out_time a;
     was_present := was_present a |}.

(** *** The whole script: the three exported tables *)

Record tables : Type := Tables {
  parents_final : list parent;
  children_final : list child;
  attendance_final : list attendance }.

Definition export (sheets : workbook) : result tables :=
  children <- all_children sheets ;;
  unique <- match children with
            | [] => Abort (KeyError "dedupe_key")
            | _ => Ok (children_unique children)
            end ;;
  records <- all_attendance sheets (child_lookup unique) ;;
  Ok {| parents_final := unique_parents sheets;
        children_final := unique;
        attendance_final := imap with_attendance_id records |}.

(** *** Notions used to state the properties *)

(** Slot [n] of [row] has a name and a check-in cell equal to 1. *)
Definition checked_in (row : sheet_row) (n : Z) : bool :=
  (negb (slot_is_empty row n)
   && bool_decide (cells row !! checkin_col n = Some (VInt 1)))%bool.

(** The named and checked-in slots of the workbook, in the order of the
    loops: sheet name, row, slot number. *)
Definition checked_in_slots (sheets : workbook) : list (string * sheet_row * Z) :=
  sheet ← sheets;
  row ← sheet.2;
  n ← [1; 2; 3];
  if checked_in row n then [(sheet.1, row, n)] else [].

(** What an attendance record says about the slot it comes from. *)
Definition records_slot (sheets : workbook) (lookup : gmap string Z)
    (a : attendance) (slot : string * sheet_row * Z) : Prop :=
  service_name a = slot.1.1
  ∧ attendance_date a = ATTENDANCE_DATE
  ∧ was_present a = true
  ∧ ∃ pid, parent_mapping sheets !! ID slot.1.2 = Some pid
           ∧ slot_child_id lookup pid slot.1.2 slot.2 = Ok (Some (attendance_child_id a)).

(** The key of line 102 is the key of line 84. *)
Definition key_matches (c : child) : Prop :=
  child_key (child_parent_id c) (upper (child_full_name c)) (age c) = dedupe_key c.

End Batch.

(** ** Sample data

    [iso_date] reads a timestamp that starts with YYYY-MM-DD, as
    [pd.to_datetime(t).date()] does, and raises on a string that holds no
    date; it is applied to such strings only. *)

Module Samples.
Import Incremental.

Definition two_digits (a b : ascii) : option Z :=
  d1 ← digit_of a; d2 ← digit_of b; Some (10 * d1 + d2).

Definition iso_date (c : cell) : option date :=
  match c with
  | VStr (String y1 (String y2 (String y3 (String y4 (String "-"
      (String m1 (String m2 (String "-" (String d1 (String d2 _)))))))))) =>
      yh ← two_digits y1 y2;
      yl ← two_digits y3 y4;
      m ← two_digits m1 m2;
      d ← two_digits d1 d2;
      Some (Date (100 * yh + yl) m d)
  | _ => None
  end.

Definition sunday : date := Date 2026 1 25.
Definition next_sunday : date := Date 2026 2 1.

(** One form submission: a mother and her daughter. *)
Definition submission : gmap string cell :=
  {[ "Timestamp" := VStr "2026-01-25 09:12:44";
     "Your Name" := VStr "Ada Obi";
     "Your Phone" := VStr "+234 801 234 5678";
     "Your Gender" := VStr "Female";
     "Child 1 Name" := VStr "Jane Doe";
     "Child 1 Age" := VInt 8;
     "Child 1 Gender" := VStr "Female";
     "Which Service" := VStr "Second Service" ]}.

(** One row of a sheet of the workbook: the same family, with the
    check-in cell and the age cell of the first child left open. *)
Definition family (checkin age : cell) : Batch.sheet_row :=
  Batch.SheetRow 7
    {[ "Full Name" := VStr "Ada Obi";
       "Email" := VNaN;
       "Gender" := VStr "Female";
       "Role In Church" := VStr "Member";
       "Department In Church" := VStr "Choir";
       "Phone Number" := VInt 8012345678;
       "Secondary Phone Number" := VNaN;
       "Address" := VStr "1 Main Street";
       "Full Name of Child 1" := VStr "Jane Doe";
       "Age of Child 1" := age;
       "Gender of Child 1" := VStr "Female";
       "Child 1 (check-in)" := checkin ]}.

End Samples.

(** ** Sample databases

    [iso_stamp] is [pd.to_datetime(t).date()] on the cells of the
    examples: the missing value gives [NaT], a string is read by
    [iso_date]. *)

Module TransactionSamples.
Import Incremental Transaction Samples.

Definition iso_stamp (c : cell) : option stamp :=
  match c with
  | VNaN => Some NaT
  | _ => Day <$> iso_date c
  end.

(** A database that accepts every statement. *)
Definition accepts_all (d : store) (q : statement) : verdict := Accepted.

(** A database whose [phone_number] column holds twelve characters at
    most: a longer phone is rejected when the row is written, after its
    [parent_id] was drawn. *)
Definition short_phones (d : store) (q : statement) : verdict :=
  match q with
  | InsertParent _ phone _ =>
      if bool_decide (String.length phone ≤ 12)%nat then Accepted else Rejected true
  | _ => Accepted
  end.

End TransactionSamples.

(** ** Notions used to state further properties of the incremental load *)

Module Ledger.
Import Incremental.

(** A submission that passes the test of line 77 and whose date can be
    read: the ones that reach the statements. *)
Definition accepted (to_datetime_date : cell → option date) (today : date)
    (row : gmap string cell) : bool :=
  (negb (missing_name_or_phone row)
   && bool_decide (is_Some (attendance_date to_datetime_date today row)))%bool.

(** The child slots of a submission that are not skipped at line 127. *)
Definition named_slots (row : gmap string cell) : list Z :=
  filter (λ n, child_name row n ≠ "") [1; 2; 3].

(** The identity of a stored child that line 149-152 looks up. *)
Definition child_natural_key (c : child_row) : Z * string * Z :=
  (c_parent_id c, upper (c_full_name c), c_age c).

(** Foreign keys: every child has its parent, every attendance row its
    child. *)
Record referential (d : store) : Prop := Referential {
  ref_children : ∀ c, c ∈ children d → c_parent_id c ∈ p_parent_id <$> parents d;
  ref_attendance : ∀ a, a ∈ attendance d → a_child_id a ∈ c_child_id <$> children d }.

(** What the pipeline guarantees of the rows it writes: a gender out of
    the two accepted values, names and phones that are not empty, the
    presence flag set. *)
Record clean (d : store) : Prop := Clean {
  clean_parents : ∀ p, p ∈ parents d →
    p_gender p ∈ ["Male"; "Female"] ∧ p_full_name p ≠ "" ∧ p_phone_number p ≠ "";
  clean_children : ∀ c, c ∈ children d →
    c_gender c ∈ ["Male"; "Female"] ∧ c_full_name c ≠ "";
  clean_attendance : ∀ a, a ∈ attendance d → a_was_present a = true }.

(** What one submission does to the counters. *)
Record row_ledger (a : bool) (slots : Z) (s s' : state) : Prop := RowLedger {
  rl_total : total_submissions (stats s') = total_submissions (stats s);
  rl_errors : errors (stats s') = errors (stats s) + (if a then 0 else 1);
  rl_parents : new_parents (stats s') + existing_parents (stats s')
               = new_parents (stats s) + existing_parents (stats s) + (if a then 1 else 0);
  rl_children : new_children (stats s') + existing_children (stats s')
                = new_children (stats s) + existing_children (stats s) + slots;
  rl_new_parents : new_parents (stats s') - Z.of_nat (length (parents (db s')))
                   = new_parents (stats s) - Z.of_nat (length (parents (db s)));
  rl_new_children : new_children (stats s') - Z.of_nat (length (children (db s')))
                    = new_children (stats s) - Z.of_nat (length (children (db s)));
  rl_attendance : attendance_recorded (stats s') - Z.of_nat (length (attendance (db s')))
                  = attendance_recorded (stats s) - Z.of_nat (length (attendance (db s)));
  rl_recorded : attendance_recorded (stats s) ≤ attendance_recorded (stats s')
                ≤ attendance_recorded (stats s) + slots }.


End Ledger.

(** ** The validation step of the batch script, and notions about keys *)

Module BatchReport.
Import Batch.

(** Lines 187-189: the child ids of the attendance table that are not in
    the children table. *)
Definition orphaned (out : tables) : gset Z :=
  list_to_set (attendance_child_id <$> attendance_final out)
  ∖ list_to_set (child_id <$> children_final out).

(** Lines 197-199: the parent ids of the children table that are not in
    the parents table. *)
Definition orphaned_children (out : tables) : gset Z :=
  list_to_set (child_parent_id <$> children_final out)
  ∖ list_to_set (parent_id <$> parents_final out).

(** Lines 36-37. *)
Definition parent_cols : list string :=
  ["ID"; "Full Name"; "Email"; "Gender"; "Role In Church";
   "Department In Church"; "Phone Number"; "Secondary Phone Number"; "Address"].

(** Line 39 selects [parent_cols] from [combined_df] and raises
    [KeyError] when one of them is a column of no sheet. Every row has
    its [ID]; any other column is there when some row of the workbook
    holds a cell under its label. *)
Definition has_parent_cols (sheets : workbook) : Prop :=
  ∀ label, label ∈ parent_cols → label ≠ "ID" →
           ∃ row, row ∈ combined_df sheets ∧ is_Some (cells row !! label).

(** A string without the separator of [child_key]. *)
Fixpoint no_underscore (s : string) : Prop :=
  match s with
  | EmptyString => True
  | String a s' => a ≠ "_"%char ∧ no_underscore s'
  end.

(** Slot [n] of [row], a row of the workbook, has a name. *)
Definition named_slot (sheets : workbook) (row : sheet_row) (n : Z) : Prop :=
  (∃ sheet, sheet ∈ sheets ∧ row ∈ sheet.2) ∧ n ∈ [1; 2; 3]
  ∧ slot_is_empty row n = false.

End BatchReport.

(** * Properties *)

(** ** The primitives on sample values *)

Example str_nan : Py.str VNaN = "nan". Proof. reflexivity. Qed.
Example str_int : Py.str (VInt (-12)) = "-12". Proof. vm_compute. reflexivity. Qed.
Example strip_ex : strip "  Jane Doe  " = "Jane Doe". Proof. reflexivity. Qed.
Example upper_ex : upper "Jane Doe" = "JANE DOE". Proof. reflexivity. Qed.
Example int_ex1 : Py.int (VStr " 8 ") = Some 8. Proof. reflexivity. Qed.
Example int_ex2 : Py.int (VStr "eight") = None. Proof. reflexivity. Qed.
Example int_ex3 : Py.int (VStr "1_0") = Some 10. Proof. reflexivity. Qed.
Example int_ex4 : Py.int (VStr "-3") = Some (-3). Proof. reflexivity. Qed.
Example int_ex5 : Py.int (VStr "1__0") = None. Proof. reflexivity. Qed.

(** ** Incremental mode: the store and the load *)

Module IncrementalFacts.
Import Incremental.

#[global] Instance extends_preorder : PreOrder extends.
Proof.
  split.
  - intros d. split; reflexivity.
  - intros d1 d2 d3 [] []. split; etrans; eauto.
Qed.

#[global] Instance same_news_equiv : Equivalence same_news.
Proof.
  unfold same_news. split.
  - intros t; auto.
  - intros t t' (-> & -> & ->); auto.
  - intros t1 t2 t3 (H1 & H2 & H3) (-> & -> & ->); auto.
Qed.

Lemma head_filter_prefix {A} (P : A → Prop) `{∀ x, Decision (P x)} (l l' : list A) x :
  l `prefix_of` l' → head (filter P l) = Some x → head (filter P l') = Some x.
Proof.
  intros [k ->] Hx. rewrite filter_app.
  destruct (filter P l); [done|]. exact Hx.
Qed.

Lemma select_parent_extends d d' phone p :
  extends d d' → select_parent phone d = Some p → select_parent phone d' = Some p.
Proof. intros []. unfold select_parent. by apply head_filter_prefix. Qed.

Lemma select_child_extends d d' pid name age c :
  extends d d' → select_child pid name age d = Some c →
  select_child pid name age d' = Some c.
Proof. intros []. unfold select_child. by apply head_filter_prefix. Qed.

Lemma attendance_key_extends d d' k :
  extends d d' → k ∈ attendance_key <$> attendance d → k ∈ attendance_key <$> attendance d'.
Proof.
  intros [_ _ [l ->]] Hk. rewrite fmap_app. apply elem_of_app. by left.
Qed.

Lemma slot_done_extends row pid d8 n d d' :
  extends d d' → slot_done row pid d8 n d → slot_done row pid d8 n d'.
Proof.
  intros Hext [He | (c & Hc & Hk)]; [by left | right].
  exists c. split; [by eapply select_child_extends | by eapply attendance_key_extends].
Qed.

Lemma row_done_extends d8 row d d' :
  extends d d' → row_done d8 row d → row_done d8 row d'.
Proof.
  intros Hext [Hm | [Hn | (d8' & p & -> & Hp & Hs)]]; [by left | by right; left |].
  right; right. exists d8', p. split_and!; [done | by eapply select_parent_extends |].
  intros n Hn. eapply slot_done_extends; eauto.
Qed.

(** *** What each statement does *)

Lemma insert_parent_extends name phone gender d :
  extends d (insert_parent name phone gender d).2.
Proof. split; simpl; try reflexivity. by apply prefix_app_r. Qed.

Lemma insert_child_extends pid name age gender d :
  extends d (insert_child pid name age gender d).2.
Proof. split; simpl; try reflexivity. by apply prefix_app_r. Qed.

Lemma insert_attendance_extends cid service d8 d :
  extends d (insert_attendance cid service d8 d).2.
Proof.
  unfold insert_attendance. destruct (decide _); [reflexivity|].
  split; simpl; try reflexivity. by apply prefix_app_r.
Qed.

Lemma head_filter_snoc_None {A} (P : A → Prop) `{∀ x, Decision (P x)} (l : list A) x :
  head (filter P l) = None → P x → head (filter P (l ++ [x])) = Some x.
Proof.
  intros Hl Hx. rewrite filter_app. destruct (filter P l); [|done].
  simpl. rewrite filter_cons_True by done. done.
Qed.

Lemma resolve_parent_eq name phone gender s :
  resolve_parent name phone gender s =
  match select_parent phone (db s) with
  | Some p => (Returns (p_parent_id p), State (db s) (incr_existing_parents (stats s)))
  | None => (Returns (parents_seq (db s)),
             State (insert_parent name phone gender (db s)).2
                   (incr_new_parents (stats s)))
  end.
Proof.
  unfold resolve_parent, bind, with_db, count, ret. simpl.
  destruct (select_parent phone (db s)); reflexivity.
Qed.

Lemma resolve_child_eq pid name age gender s :
  resolve_child pid name age gender s =
  match select_child pid name age (db s) with
  | Some c => (Returns (c_child_id c), State (db s) (incr_existing_children (stats s)))
  | None => (Returns (children_seq (db s)),
             State (insert_child pid name age gender (db s)).2
                   (incr_new_children (stats s)))
  end.
Proof.
  unfold resolve_child, bind, with_db, count, ret. simpl.
  destruct (select_child pid name age (db s)); reflexivity.
Qed.

Lemma record_attendance_eq cid service d8 s :
  record_attendance cid service d8 s =
  if decide ((cid, service, d8) ∈ attendance_key <$> attendance (db s))
  then (Returns tt, s)
  else (Returns tt,
        State (insert_attendance cid service d8 (db s)).2
              (incr_attendance_recorded (stats s))).
Proof.
  unfold record_attendance, bind, with_db, count, ret, insert_attendance.
  destruct s as [d t]; simpl.
  destruct (decide _); reflexivity.
Qed.

(** After [resolve_parent], the parent is in the store under the id
    that was returned. *)
Lemma resolve_parent_spec name phone gender s :
  ∃ p s', resolve_parent name phone gender s = (Returns (p_parent_id p), s')
          ∧ extends (db s) (db s')
          ∧ select_parent phone (db s') = Some p.
Proof.
  rewrite resolve_parent_eq.
  destruct (select_parent phone (db s)) as [p|] eqn:Hsel.
  - exists p. eexists. split_and!; [done | reflexivity | done].
  - exists (ParentRow (parents_seq (db s)) name phone gender). eexists.
    split_and!; [done | apply insert_parent_extends |].
    unfold select_parent in *. simpl. by apply head_filter_snoc_None.
Qed.

Lemma resolve_child_spec pid name age gender s :
  ∃ c s', resolve_child pid name age gender s = (Returns (c_child_id c), s')
          ∧ extends (db s) (db s')
          ∧ select_child pid name age (db s') = Some c.
Proof.
  rewrite resolve_child_eq.
  destruct (select_child pid name age (db s)) as [c|] eqn:Hsel.
  - exists c. eexists. split_and!; [done | reflexivity | done].
  - exists (ChildRow (children_seq (db s)) pid name age gender). eexists.
    split_and!; [done | apply insert_child_extends |].
    unfold select_child in *. simpl. by apply head_filter_snoc_None.
Qed.

Lemma record_attendance_spec cid service d8 s :
  ∃ s', record_attendance cid service d8 s = (Returns tt, s')
        ∧ extends (db s) (db s')
        ∧ (cid, service, d8) ∈ attendance_key <$> attendance (db s').
Proof.
  rewrite record_attendance_eq. destruct (decide _) as [Hin|Hnin].
  - exists s. split_and!; [done | reflexivity | done].
  - eexists. split_and!; [done | |].
    + pose proof (insert_attendance_extends cid service d8 (db s)) as H.
      unfold insert_attendance in *. by rewrite decide_False in * by done.
    + simpl. unfold insert_attendance. rewrite decide_False by done. simpl.
      rewrite fmap_app. apply elem_of_app. right. simpl. apply list_elem_of_singleton. done.
Qed.

Lemma child_slot_spec row pid d8 n s :
  ∃ s', child_slot row pid d8 n s = (Returns tt, s')
        ∧ extends (db s) (db s')
        ∧ slot_done row pid d8 n (db s').
Proof.
  unfold child_slot, slot_done.
  destruct (String.eqb_spec (child_name row n) "") as [He|Hne].
  - exists s. split_and!; [done | reflexivity | by left].
  - unfold bind.
    destruct (resolve_child_spec pid (child_name row n) (child_age row n)
                (child_gender row n) s) as (c & s1 & -> & Hext1 & Hsel).
    destruct (record_attendance_spec (c_child_id c) (service_name row) d8 s1)
      as (s2 & -> & Hext2 & Hin).
    exists s2. split_and!; [done | by etrans |].
    right. exists c. split; [by eapply select_child_extends | done].
Qed.

(** A slot that is done leaves the store alone. *)
Lemma child_slot_done row pid d8 n s :
  slot_done row pid d8 n (db s) →
  ∃ t, child_slot row pid d8 n s = (Returns tt, State (db s) t) ∧ same_news (stats s) t.
Proof.
  unfold child_slot. intros [He | (c & Hc & Hk)].
  - rewrite He. simpl. exists (stats s). by destruct s.
  - destruct (String.eqb_spec (child_name row n) "") as [He|Hne].
    { exists (stats s). by destruct s. }
    unfold bind. rewrite resolve_child_eq, Hc, record_attendance_eq. simpl.
    rewrite decide_True by done. eexists. split; [done|]. done.
Qed.

Lemma slots_spec row pid d8 (l : list Z) s :
  ∃ s', for_each l (child_slot row pid d8) s = (Returns tt, s')
        ∧ extends (db s) (db s')
        ∧ ∀ n, n ∈ l → slot_done row pid d8 n (db s').
Proof.
  revert s. induction l as [|n l IH]; intros s.
  - exists s. split_and!; [done | reflexivity |]. intros n Hn. by apply elem_of_nil in Hn.
  - simpl. unfold bind.
    destruct (child_slot_spec row pid d8 n s) as (s1 & -> & Hext1 & Hn).
    destruct (IH s1) as (s2 & -> & Hext2 & Hl).
    exists s2. split_and!; [done | by etrans |].
    intros m [-> | Hm]%elem_of_cons; [by eapply slot_done_extends | by apply Hl].
Qed.

Lemma slots_done row pid d8 (l : list Z) s :
  (∀ n, n ∈ l → slot_done row pid d8 n (db s)) →
  ∃ t, for_each l (child_slot row pid d8) s = (Returns tt, State (db s) t)
       ∧ same_news (stats s) t.
Proof.
  revert s. induction l as [|n l IH]; intros s Hl.
  - exists (stats s). by destruct s.
  - simpl. unfold bind.
    destruct (child_slot_done row pid d8 n s) as (t1 & -> & Ht1).
    { apply Hl. by left. }
    destruct (IH (State (db s) t1)) as (t2 & -> & Ht2).
    { intros m Hm. apply Hl. by right. }
    exists t2. split; [done | by etrans].
Qed.

Section Run.
Variable to_datetime_date : cell → option date.
Variable today : date.

#[local] Abbreviation attendance_date := (attendance_date to_datetime_date today).
#[local] Abbreviation row_body := (row_body to_datetime_date today).
#[local] Abbreviation process_row := (process_row to_datetime_date today).
#[local] Abbreviation process_rows := (process_rows to_datetime_date today).

Lemma row_body_rejected row s :
  missing_name_or_phone row = true →
  row_body row s = (Returns tt, State (db s) (incr_errors (stats s))).
Proof. intros H. unfold Incremental.row_body. by rewrite H. Qed.

Lemma row_body_raises row s :
  missing_name_or_phone row = false → attendance_date row = None →
  row_body row s = (Raises (ParserError (get_or row "Timestamp" (VStr ""))), s).
Proof. intros H1 H2. unfold Incremental.row_body. by rewrite H1, H2. Qed.

Lemma row_body_accepted row d8 s :
  missing_name_or_phone row = false → attendance_date row = Some d8 →
  row_body row s =
  (parent_id <- resolve_parent (parent_name row) (parent_phone row) (parent_gender row) ;;
   for_each [1; 2; 3] (child_slot row parent_id d8)) s.
Proof. intros H1 H2. unfold Incremental.row_body. by rewrite H1, H2. Qed.

Lemma process_row_spec s row :
  extends (db s) (db (process_row s row))
  ∧ row_done (attendance_date row) row (db (process_row s row)).
Proof.
  unfold Incremental.process_row, row_done.
  destruct (missing_name_or_phone row) eqn:Hm.
  { rewrite row_body_rejected by done. simpl. split; [reflexivity | by left]. }
  destruct (attendance_date row) as [d8|] eqn:Hd.
  2:{ rewrite row_body_raises by done. simpl. split; [reflexivity | by right; left]. }
  rewrite (row_body_accepted row d8) by done. unfold bind.
  destruct (resolve_parent_spec (parent_name row) (parent_phone row)
              (parent_gender row) s) as (p & s1 & -> & Hext1 & Hp).
  destruct (slots_spec row (p_parent_id p) d8 [1; 2; 3] s1) as (s2 & -> & Hext2 & Hl).
  split; [by etrans|]. right; right. exists d8, p.
  split_and!; [done | by eapply select_parent_extends | done].
Qed.

Lemma process_row_done s row :
  row_done (attendance_date row) row (db s) →
  db (process_row s row) = db s ∧ same_news (stats s) (stats (process_row s row)).
Proof.
  unfold Incremental.process_row.
  intros [Hm | [Hn | (d8 & p & Hd & Hp & Hl)]].
  - rewrite row_body_rejected by done. done.
  - destruct (missing_name_or_phone row) eqn:Hm.
    + rewrite row_body_rejected by done. done.
    + rewrite row_body_raises by done. done.
  - destruct (missing_name_or_phone row) eqn:Hm.
    { rewrite row_body_rejected by done. done. }
    rewrite (row_body_accepted row d8) by done. unfold bind.
    rewrite resolve_parent_eq, Hp.
    destruct (slots_done row (p_parent_id p) d8 [1; 2; 3]
                (State (db s) (incr_existing_parents (stats s)))) as (t & -> & Ht).
    { done. }
    simpl. split; [done|]. etrans; [|exact Ht]. done.
Qed.

Lemma process_rows_extends df s : extends (db s) (db (process_rows df s)).
Proof.
  revert s. induction df as [|row df IH]; intros s; [reflexivity|].
  simpl. etrans; [|apply IH]. apply process_row_spec.
Qed.

Lemma process_rows_all_done df s row :
  row ∈ df → row_done (attendance_date row) row (db (process_rows df s)).
Proof.
  revert s. induction df as [|r df IH]; intros s Hin; [by apply elem_of_nil in Hin|].
  simpl. apply elem_of_cons in Hin as [-> | Hin]; [|by apply IH].
  eapply row_done_extends; [apply process_rows_extends | apply process_row_spec].
Qed.

End Run.

Lemma process_rows_done to_datetime_date today df s :
  (∀ row, row ∈ df →
     row_done (attendance_date to_datetime_date today row) row (db s)) →
  db (process_rows to_datetime_date today df s) = db s
  ∧ same_news (stats s) (stats (process_rows to_datetime_date today df s)).
Proof.
  revert s. induction df as [|r df IH]; intros s Hall; [done|].
  simpl.
  destruct (process_row_done to_datetime_date today s r) as [Hdb Hst].
  { apply Hall. by left. }
  destruct (IH (process_row to_datetime_date today s r)) as [Hdb' Hst'].
  { intros row Hrow. rewrite Hdb. apply Hall. by right. }
  split; [congruence | by etrans].
Qed.

Lemma attendance_date_today to_datetime_date today1 today2 row :
  today1 = today2 ∨ truthy (get_or row "Timestamp" (VStr "")) = true →
  attendance_date to_datetime_date today1 row
  = attendance_date to_datetime_date today2 row.
Proof.
  unfold attendance_date. intros [-> | ->]; done.
Qed.

(** *** Invariants of the store

    Every change to the store is one of the three [INSERT]s: a property
    kept by each of them is kept by the whole load. *)
Section Invariant.
Variable P : store → Prop.
Hypothesis P_insert_parent :
  ∀ d name phone gender, P d → P (insert_parent name phone gender d).2.
Hypothesis P_insert_child :
  ∀ d pid name age gender, P d → P (insert_child pid name age gender d).2.
Hypothesis P_insert_attendance :
  ∀ d cid service d8, P d → P (insert_attendance cid service d8 d).2.

Lemma resolve_parent_inv name phone gender s :
  P (db s) → P (db (resolve_parent name phone gender s).2).
Proof.
  intros H. rewrite resolve_parent_eq.
  destruct (select_parent phone (db s)); cbn [db snd]; auto.
Qed.

Lemma resolve_child_inv pid name age gender s :
  P (db s) → P (db (resolve_child pid name age gender s).2).
Proof.
  intros H. rewrite resolve_child_eq.
  destruct (select_child pid name age (db s)); cbn [db snd]; auto.
Qed.

Lemma record_attendance_inv cid service d8 s :
  P (db s) → P (db (record_attendance cid service d8 s).2).
Proof.
  intros H. rewrite record_attendance_eq.
  destruct (decide _) as [Hin|Hnin]; cbn [db snd]; [done|].
  pose proof (P_insert_attendance (db s) cid service d8 H) as H'.
  unfold insert_attendance in *. by rewrite decide_False in * by done.
Qed.

Lemma child_slot_inv row pid d8 n s :
  P (db s) → P (db (child_slot row pid d8 n s).2).
Proof.
  intros H. unfold child_slot.
  destruct (String.eqb _ _); [done|]. unfold bind.
  pose proof (resolve_child_inv pid (child_name row n) (child_age row n)
                (child_gender row n) s H) as H1.
  destruct (resolve_child_spec pid (child_name row n) (child_age row n)
              (child_gender row n) s) as (c & s1 & E & _).
  rewrite E in *. simpl in H1. by apply record_attendance_inv.
Qed.

Lemma slots_inv row pid d8 (l : list Z) s :
  P (db s) → P (db (for_each l (child_slot row pid d8) s).2).
Proof.
  revert s. induction l as [|n l IH]; intros s H; [done|].
  simpl. unfold bind.
  pose proof (child_slot_inv row pid d8 n s H) as H1.
  destruct (child_slot_spec row pid d8 n s) as (s1 & E & _).
  rewrite E in *. by apply IH.
Qed.

Lemma process_row_inv to_datetime_date today s row :
  P (db s) → P (db (process_row to_datetime_date today s row)).
Proof.
  intros H. unfold process_row.
  destruct (missing_name_or_phone row) eqn:Hm.
  { by rewrite row_body_rejected. }
  destruct (attendance_date to_datetime_date today row) as [d8|] eqn:Hd.
  2:{ by rewrite row_body_raises. }
  rewrite (row_body_accepted _ _ row d8) by done. unfold bind.
  pose proof (resolve_parent_inv (parent_name row) (parent_phone row)
                (parent_gender row) s H) as H1.
  destruct (resolve_parent_spec (parent_name row) (parent_phone row)
              (parent_gender row) s) as (p & s1 & E & _).
  rewrite E in *. simpl in H1.
  pose proof (slots_inv row (p_parent_id p) d8 [1; 2; 3] s1 H1) as H2.
  destruct (slots_spec row (p_parent_id p) d8 [1; 2; 3] s1) as (s2 & E2 & _).
  rewrite E2 in *. done.
Qed.

Lemma process_rows_inv to_datetime_date today df s :
  P (db s) → P (db (process_rows to_datetime_date today df s)).
Proof.
  revert s. induction df as [|row df IH]; intros s H; [done|].
  simpl. apply IH. by apply process_row_inv.
Qed.

Lemma later_inv to_datetime_date today s s' :
  later to_datetime_date today s s' → P (db s) → P (db s').
Proof.
  induction 1 as [| s s1 s2 name phone gender pid _ IH E
                  | s s1 s2 pid name age gender cid _ IH E
                  | s s1 s2 cid service d8 _ IH E
                  | s s1 s2 row pid d8 n _ IH E
                  | s s1 row _ IH]; intros H.
  - done.
  - pose proof (resolve_parent_inv name phone gender s1 (IH H)) as H1. by rewrite E in H1.
  - pose proof (resolve_child_inv pid name age gender s1 (IH H)) as H1. by rewrite E in H1.
  - pose proof (record_attendance_inv cid service d8 s1 (IH H)) as H1. by rewrite E in H1.
  - pose proof (child_slot_inv row pid d8 n s1 (IH H)) as H1. by rewrite E in H1.
  - apply process_row_inv. auto.
Qed.
End Invariant.

Lemma later_extends to_datetime_date today s s' :
  later to_datetime_date today s s' → extends (db s) (db s').
Proof.
  intros H. eapply (later_inv (extends (db s))); [| | | exact H | reflexivity].
  - intros. etrans; [done | apply insert_parent_extends].
  - intros. etrans; [done | apply insert_child_extends].
  - intros. etrans; [done | apply insert_attendance_extends].
Qed.

Lemma later_rows to_datetime_date today df s :
  later to_datetime_date today s (process_rows to_datetime_date today df s).
Proof.
  induction df as [|row df IH] using rev_ind; [constructor|].
  unfold process_rows. rewrite foldl_app. simpl. by constructor.
Qed.

Lemma well_formed_insert_parent d name phone gender :
  well_formed d → well_formed (insert_parent name phone gender d).2.
Proof. intros []. by split. Qed.

Lemma well_formed_insert_child d pid name age gender :
  well_formed d → well_formed (insert_child pid name age gender d).2.
Proof.
  intros [Hnd Hseq Ha]. split; simpl; [| |done].
  - rewrite fmap_app. apply NoDup_app. split_and!; [done | | apply NoDup_singleton].
    intros i (c & -> & Hc)%list_elem_of_fmap Hi. simpl in Hi.
    apply list_elem_of_singleton in Hi. apply Hseq in Hc. lia.
  - intros c [Hc | ->%list_elem_of_singleton]%elem_of_app; [apply Hseq in Hc|simpl]; lia.
Qed.

Lemma well_formed_insert_attendance d cid service d8 :
  well_formed d → well_formed (insert_attendance cid service d8 d).2.
Proof.
  intros [Hnd Hseq Ha]. unfold insert_attendance.
  destruct (decide _) as [Hin|Hnin]; [done|]. split; simpl; [done | done |].
  rewrite fmap_app. apply NoDup_app. split_and!; [done | | apply NoDup_singleton].
  intros k Hk Hk'. simpl in Hk'. apply list_elem_of_singleton in Hk'. by subst.
Qed.

Lemma later_well_formed to_datetime_date today s s' :
  later to_datetime_date today s s' → well_formed (db s) → well_formed (db s').
Proof.
  intros H Hwf. eapply (later_inv well_formed); [| | | exact H | exact Hwf];
    eauto using well_formed_insert_parent, well_formed_insert_child,
      well_formed_insert_attendance.
Qed.

Lemma well_formed_empty : well_formed empty_store.
Proof. split; simpl; [constructor | | constructor]. intros c Hc. by apply elem_of_nil in Hc. Qed.

(** *** Key stability *)

Lemma select_child_Some pid name age d c :
  select_child pid name age d = Some c →
  c ∈ children d ∧ c_parent_id c = pid ∧ upper (c_full_name c) = upper name ∧ c_age c = age.
Proof.
  unfold select_child. intros H%head_Some_elem_of.
  apply list_elem_of_filter in H as [(? & ? & ?) ?]. done.
Qed.

Lemma select_child_upper pid name1 name2 age d :
  upper name1 = upper name2 → select_child pid name1 age d = select_child pid name2 age d.
Proof. unfold select_child. by intros ->. Qed.

Lemma NoDup_fmap_elem_inj {A B} (f : A → B) (l : list A) x y :
  NoDup (f <$> l) → x ∈ l → y ∈ l → f x = f y → x = y.
Proof.
  intros Hnd [i Hi]%list_elem_of_lookup [j Hj]%list_elem_of_lookup Hf.
  assert (i = j) as ->.
  { eapply NoDup_lookup; [exact Hnd | |]; rewrite list_lookup_fmap.
    - by rewrite Hi.
    - rewrite Hj. simpl. by rewrite Hf. }
  congruence.
Qed.

Lemma parent_key_stable to_datetime_date today name1 name2 g1 g2 phone s pid s1 s2 :
  resolve_parent name1 phone g1 s = (Returns pid, s1) →
  later to_datetime_date today s1 s2 →
  ∃ s3, resolve_parent name2 phone g2 s2 = (Returns pid, s3).
Proof.
  intros E Hl.
  destruct (resolve_parent_spec name1 phone g1 s) as (p & s' & E' & _ & Hp).
  rewrite E in E'. injection E' as -> ->.
  apply later_extends in Hl.
  rewrite resolve_parent_eq, (select_parent_extends _ _ _ _ Hl Hp). eauto.
Qed.

Lemma child_key_stable to_datetime_date today pid name1 name2 age g1 g2 s cid s1 s2 :
  upper name1 = upper name2 →
  resolve_child pid name1 age g1 s = (Returns cid, s1) →
  later to_datetime_date today s1 s2 →
  ∃ s3, resolve_child pid name2 age g2 s2 = (Returns cid, s3).
Proof.
  intros Hu E Hl.
  destruct (resolve_child_spec pid name1 age g1 s) as (c & s' & E' & _ & Hc).
  rewrite E in E'. injection E' as -> ->.
  apply later_extends in Hl.
  rewrite resolve_child_eq, <- (select_child_upper pid name1 name2) by done.
  rewrite (select_child_extends _ _ _ _ _ _ Hl Hc). eauto.
Qed.

Lemma child_age_distinguishes to_datetime_date today pid name1 name2 age1 age2 g1 g2
    s c1 s1 s2 c2 s3 :
  well_formed (db s) →
  age1 ≠ age2 →
  resolve_child pid name1 age1 g1 s = (Returns c1, s1) →
  later to_datetime_date today s1 s2 →
  resolve_child pid name2 age2 g2 s2 = (Returns c2, s3) →
  c1 ≠ c2.
Proof.
  intros Hwf Hage E1 Hl E2.
  assert (well_formed (db s1)) as Hwf1.
  { pose proof (resolve_child_inv well_formed well_formed_insert_child
                  pid name1 age1 g1 s Hwf) as H. by rewrite E1 in H. }
  destruct (resolve_child_spec pid name1 age1 g1 s) as (x1 & s' & E' & _ & Hx1).
  rewrite E1 in E'. injection E' as -> ->.
  pose proof (later_well_formed _ _ _ _ Hl Hwf1) as [Hnd Hseq _].
  apply later_extends in Hl.
  apply (select_child_extends _ _ _ _ _ _ Hl) in Hx1.
  apply select_child_Some in Hx1 as (Hin1 & _ & _ & Ha1).
  rewrite resolve_child_eq in E2.
  destruct (select_child pid name2 age2 (db s2)) as [x2|] eqn:Hx2.
  - injection E2 as <- _.
    apply select_child_Some in Hx2 as (Hin2 & _ & _ & Ha2).
    intros Heq. apply Hage.
    rewrite <- Ha1, <- Ha2. f_equal. by eapply NoDup_fmap_elem_inj.
  - injection E2 as <- _. apply Hseq in Hin1. lia.
Qed.

(** *** First sighting wins *)

Lemma known_parent_kept to_datetime_date today phone p s s' :
  later to_datetime_date today s s' →
  select_parent phone (db s) = Some p → select_parent phone (db s') = Some p.
Proof. intros Hl%later_extends. by apply select_parent_extends. Qed.

Lemma known_child_kept to_datetime_date today pid name age c s s' :
  later to_datetime_date today s s' →
  select_child pid name age (db s) = Some c → select_child pid name age (db s') = Some c.
Proof. intros Hl%later_extends. by apply select_child_extends. Qed.

Lemma first_sighting_parent to_datetime_date today row df s d8 :
  missing_name_or_phone row = false →
  attendance_date to_datetime_date today row = Some d8 →
  select_parent (parent_phone row) (db s) = None →
  select_parent (parent_phone row)
    (db (process_rows to_datetime_date today (row :: df) s))
  = Some (ParentRow (parents_seq (db s)) (parent_name row) (parent_phone row)
            (parent_gender row)).
Proof.
  intros Hm Hd Hnone. simpl.
  eapply select_parent_extends; [apply process_rows_extends|].
  unfold process_row. rewrite (row_body_accepted _ _ row d8) by done.
  unfold bind. rewrite resolve_parent_eq, Hnone.
  match goal with |- context [for_each ?l ?f ?st] =>
    destruct (slots_spec row (parents_seq (db s)) d8 l st) as (s2 & -> & Hext & _) end.
  eapply select_parent_extends; [exact Hext|].
  unfold select_parent in *. simpl. by apply head_filter_snoc_None.
Qed.

Lemma first_sighting_child to_datetime_date today row pid d8 n s s1 s2 :
  child_name row n ≠ "" →
  select_child pid (child_name row n) (child_age row n) (db s) = None →
  child_slot row pid d8 n s = (Returns tt, s1) →
  later to_datetime_date today s1 s2 →
  select_child pid (child_name row n) (child_age row n) (db s2)
  = Some (ChildRow (children_seq (db s)) pid (child_name row n) (child_age row n)
            (child_gender row n)).
Proof.
  intros Hne Hnone E Hl.
  eapply known_child_kept; [exact Hl|].
  unfold child_slot in E. rewrite (proj2 (String.eqb_neq _ _) Hne) in E.
  unfold bind in E. rewrite resolve_child_eq, Hnone in E.
  match type of E with record_attendance ?c ?sv ?d ?st = _ =>
    destruct (record_attendance_spec c sv d st) as (s' & E' & Hext & _) end.
  rewrite E' in E. injection E as ->.
  eapply select_child_extends; [exact Hext|].
  unfold select_child in *. simpl. by apply head_filter_snoc_None.
Qed.

(** *** What a submission is read through *)

Lemma bind_ext {A B} (m m' : M A) (k k' : A → M B) s :
  m s = m' s → (∀ a s', k a s' = k' a s') → bind m k s = bind m' k' s.
Proof. intros Hm Hk. unfold bind. rewrite Hm. destruct (m' s) as [[a|e] s']; auto. Qed.

Lemma for_each_ext {A} (f g : A → M unit) (l : list A) s :
  (∀ x s', x ∈ l → f x s' = g x s') → for_each l f s = for_each l g s.
Proof.
  revert s. induction l as [|x l IH]; intros s H; [done|].
  simpl. apply bind_ext.
  - apply H. by left.
  - intros _ s'. apply IH. intros y s'' Hy. apply H. by right.
Qed.

(** Two rows that the pipeline reads the same way are processed the same
    way. *)
Lemma process_row_ext to_datetime_date today row row' s :
  parent_name row = parent_name row' →
  parent_phone row = parent_phone row' →
  parent_gender row = parent_gender row' →
  get_or row "Timestamp" (VStr "") = get_or row' "Timestamp" (VStr "") →
  service_name row = service_name row' →
  (∀ n, n ∈ [1; 2; 3] → child_name row n = child_name row' n) →
  (∀ n, n ∈ [1; 2; 3] → child_age row n = child_age row' n) →
  (∀ n, n ∈ [1; 2; 3] → child_gender row n = child_gender row' n) →
  process_row to_datetime_date today s row = process_row to_datetime_date today s row'.
Proof.
  intros Hn Hp Hg Ht Hs Hcn Hca Hcg.
  unfold process_row.
  enough (row_body to_datetime_date today row s
          = row_body to_datetime_date today row' s) as -> by done.
  unfold row_body, missing_name_or_phone, attendance_date.
  rewrite Hn, Hp, Hg, Ht.
  destruct (_ || _)%bool; [done|].
  apply bind_ext; [done|]. intros d8 s1.
  apply bind_ext; [done|]. intros pid s2.
  apply for_each_ext. intros n s3 Hn3.
  unfold child_slot. by rewrite Hcn, Hca, Hcg, Hs.
Qed.


Lemma get_or_insert_ne (row : gmap string cell) label label' v d :
  label ≠ label' → get_or (<[label := v]> row) label' d = get_or row label' d.
Proof. intros H. unfold get_or. by rewrite lookup_insert_ne. Qed.

Lemma get_or_delete_ne (row : gmap string cell) label label' d :
  label ≠ label' → get_or (delete label row) label' d = get_or row label' d.
Proof. intros H. unfold get_or. by rewrite lookup_delete_ne. Qed.

Ltac unread :=
  repeat match goal with
    | H : _ ∉ _ :: _ |- _ => apply not_elem_of_cons in H as [? H]
    end;
  intros;
  repeat match goal with
    | H : _ ∈ _ :: _ |- _ => apply elem_of_cons in H as [-> | H]
    | H : _ ∈ [] |- _ => by apply elem_of_nil in H
    end;
  unfold parent_name, parent_phone, parent_gender, service_name,
    child_name, child_age, child_gender;
  rewrite ?get_or_insert_ne, ?get_or_delete_ne by done; done.


(** *** The default service *)

Lemma child_slot_attendance row pid d8 n s a :
  a ∈ attendance (db (child_slot row pid d8 n s).2) →
  a ∈ attendance (db s)
  ∨ (a_service_name a = service_name row ∧ a_attendance_date a = d8
     ∧ a_was_present a = true).
Proof.
  unfold child_slot. destruct (String.eqb _ _); [by left|].
  unfold bind. rewrite resolve_child_eq.
  destruct (select_child _ _ _ _); rewrite record_attendance_eq;
    cbn [db snd]; unfold insert_attendance;
    destruct (decide _); cbn [db snd attendance insert_child]; auto;
    intros [H | ->%list_elem_of_singleton]%elem_of_app; auto.
Qed.

Lemma slots_attendance row pid d8 (l : list Z) s a :
  a ∈ attendance (db (for_each l (child_slot row pid d8) s).2) →
  a ∈ attendance (db s)
  ∨ (a_service_name a = service_name row ∧ a_attendance_date a = d8
     ∧ a_was_present a = true).
Proof.
  revert s. induction l as [|n l IH]; intros s; [by left|].
  simpl. unfold bind.
  pose proof (child_slot_attendance row pid d8 n s a) as H1.
  destruct (child_slot_spec row pid d8 n s) as (s1 & E & _).
  rewrite E in *. intros [H|H]%IH; auto.
Qed.

Lemma process_row_attendance to_datetime_date today s row a :
  a ∈ attendance (db (process_row to_datetime_date today s row)) →
  a ∈ attendance (db s)
  ∨ (a_service_name a = service_name row
     ∧ Some (a_attendance_date a) = attendance_date to_datetime_date today row
     ∧ a_was_present a = true).
Proof.
  unfold process_row.
  destruct (missing_name_or_phone row) eqn:Hm.
  { rewrite row_body_rejected by done. by left. }
  destruct (attendance_date to_datetime_date today row) as [d8|] eqn:Hd.
  2:{ rewrite row_body_raises by done. by left. }
  rewrite (row_body_accepted _ _ row d8) by done. unfold bind.
  rewrite resolve_parent_eq.
  destruct (select_parent _ _);
    match goal with |- context [for_each ?l (child_slot row ?pid d8) ?st] =>
      pose proof (slots_attendance row pid d8 l st a) as H1;
      destruct (slots_spec row pid d8 l st) as (s2 & E & _);
      rewrite E in *; intros [H|(?&?&?)]%H1; [by left | right; by subst] end.
Qed.

Lemma default_service to_datetime_date today row :
  row !! "Which Service" = None →
  service_name row = "First Service"
  ∧ (∀ s, process_row to_datetime_date today s row
          = process_row to_datetime_date today s
              (<["Which Service" := VStr "First Service"]> row))
  ∧ (∀ s a, a ∈ attendance (db (process_row to_datetime_date today s row)) →
            a ∈ attendance (db s) ∨ a_service_name a = "First Service")
  ∧ (∀ s, let s' := process_row to_datetime_date today s
                      (<["Which Service" := VStr "First Service"]> row) in
          db (process_row to_datetime_date today s' row) = db s').
Proof.
  intros Hnone.
  assert (service_name row = "First Service") as Hs.
  { unfold service_name, get_or. by rewrite Hnone. }
  assert (∀ s, process_row to_datetime_date today s row
               = process_row to_datetime_date today s
                   (<["Which Service" := VStr "First Service"]> row)) as Heq.
  { intros s. apply process_row_ext; try unread.
    rewrite Hs. unfold service_name, get_or. by rewrite lookup_insert_eq. }
  split_and!; [done | done | |].
  - intros s a [H | (H & _)]%process_row_attendance; [by left | right; congruence].
  - intros s s'. subst s'. rewrite <- (Heq s).
    apply process_row_done, process_row_spec.
Qed.

(** *** Rejected and failing submissions *)

Lemma absent_is_missing (row : gmap string cell) label :
  row !! label = None → strip (Py.str (get_or row label (VStr ""))) = "".
Proof. intros H. unfold get_or. by rewrite H. Qed.

Lemma blank_is_missing (row : gmap string cell) label x :
  row !! label = Some (VStr x) → strip x = "" →
  strip (Py.str (get_or row label (VStr ""))) = "".
Proof. intros H Hx. unfold get_or. by rewrite H. Qed.

Lemma rejected_row to_datetime_date today s row :
  parent_phone row = "" ∨ parent_name row = "" →
  process_row to_datetime_date today s row = State (db s) (incr_errors (stats s)).
Proof.
  intros H. unfold process_row. rewrite row_body_rejected; [done|].
  unfold missing_name_or_phone. destruct H as [-> | ->]; [done|].
  by rewrite orb_true_r.
Qed.



(** *** Named slots are recorded *)

End IncrementalFacts.

(** ** Batch mode: deduplication and lookups *)

Module BatchFacts.
Import Batch.

(** *** [drop_duplicates] *)
Section DropDuplicates.
Context {A K : Type} `{EqDecision K} (key : A → K).

Lemma drop_duplicates_elem l x : x ∈ drop_duplicates key l → x ∈ l.
Proof.
  induction l as [|a l IH]; simpl; [done|].
  intros [-> | H]%elem_of_cons; [by left|].
  apply list_elem_of_filter in H as [_ H]. right. auto.
Qed.

Lemma drop_duplicates_first l x :
  x ∈ drop_duplicates key l → head (filter (λ y, key y = key x) l) = Some x.
Proof.
  induction l as [|a l IH]; simpl; [by intros ?%elem_of_nil|].
  intros [-> | H]%elem_of_cons.
  - by rewrite filter_cons_True.
  - apply list_elem_of_filter in H as [Hne H].
    rewrite filter_cons_False by congruence. auto.
Qed.

Lemma drop_duplicates_keys l x :
  x ∈ l → ∃ y, y ∈ drop_duplicates key l ∧ key y = key x.
Proof.
  induction l as [|a l IH]; simpl; [by intros ?%elem_of_nil|].
  intros [-> | H]%elem_of_cons.
  - exists a. split; [by left | done].
  - destruct (IH H) as (y & Hy & Hk).
    destruct (decide (key y = key a)) as [E|E].
    + exists a. split; [by left | congruence].
    + exists y. split; [|done]. right. by apply list_elem_of_filter.
Qed.

Lemma drop_duplicates_NoDup l : NoDup (key <$> drop_duplicates key l).
Proof.
  induction l as [|a l IH]; simpl; [constructor|].
  constructor.
  - intros (y & Hk & Hy)%list_elem_of_fmap.
    apply list_elem_of_filter in Hy as [Hne _]. congruence.
  - revert IH. generalize (drop_duplicates key l). intros l'.
    induction l' as [|b l' IH']; simpl; [constructor|].
    intros [Hb Hl']%NoDup_cons.
    destruct (decide (key b ≠ key a)).
    + rewrite filter_cons_True by done. simpl. constructor; [|auto].
      intros (y & Hk & Hy)%list_elem_of_fmap.
      apply list_elem_of_filter in Hy as [_ Hy].
      apply Hb. rewrite Hk. by apply list_elem_of_fmap_2.
    + rewrite filter_cons_False by done. auto.
Qed.
End DropDuplicates.

(** *** Loops that collect *)
Lemma collect_Ok {A B} (body : A → result (list B)) l ys :
  collect body l = Ok ys →
  ∃ yss, Forall2 (λ x zs, body x = Ok zs) l yss ∧ ys = concat yss.
Proof.
  revert ys. induction l as [|x l IH]; simpl; intros ys.
  - intros [= <-]. exists []. split; [constructor | done].
  - destruct (body x) as [zs|e] eqn:Hx; simpl; [|done].
    destruct (collect body l) as [ws|e] eqn:Hl; simpl; [|done].
    intros [= <-]. destruct (IH ws eq_refl) as (yss & HF & ->).
    exists (zs :: yss). split; [by constructor | done].
Qed.

Lemma collect_Ok_elem {A B} (body : A → result (list B)) l ys x :
  collect body l = Ok ys → x ∈ l → ∃ zs, body x = Ok zs ∧ zs ⊆ ys.
Proof.
  revert ys. induction l as [|a l IH]; simpl; intros ys H Hx.
  - by apply elem_of_nil in Hx.
  - destruct (body a) as [zs|e] eqn:Ha; simpl in H; [|done].
    destruct (collect body l) as [ws|e] eqn:Hl; simpl in H; [|done].
    injection H as <-.
    apply elem_of_cons in Hx as [-> | Hx].
    + exists zs. split; [done|]. intros y Hy. apply elem_of_app. by left.
    + destruct (IH ws eq_refl Hx) as (zs' & Hz & Hsub).
      exists zs'. split; [done|]. intros y Hy. apply elem_of_app. right. by apply Hsub.
Qed.

Lemma collect_Ok_inv {A B} (body : A → result (list B)) l ys y :
  collect body l = Ok ys → y ∈ ys → ∃ x zs, x ∈ l ∧ body x = Ok zs ∧ y ∈ zs.
Proof.
  revert ys. induction l as [|a l IH]; simpl; intros ys H Hy.
  - injection H as <-. by apply elem_of_nil in Hy.
  - destruct (body a) as [zs|e] eqn:Ha; simpl in H; [|done].
    destruct (collect body l) as [ws|e] eqn:Hl; simpl in H; [|done].
    injection H as <-.
    apply elem_of_app in Hy as [Hy | Hy].
    + exists a, zs. split_and!; [by left | done | done].
    + destruct (IH ws eq_refl Hy) as (x & zs' & Hx & Hz & Hin).
      exists x, zs'. split_and!; [by right | done | done].
Qed.

(** *** Dictionaries filled in a loop *)
Section Dict.
Context {A V K : Type} `{Countable K} (f : A → K) (g : A → V).

Lemma lookup_fill_other (l : list A) (m : gmap K V) k :
  k ∉ f <$> l → foldl (λ m c, <[f c := g c]> m) m l !! k = m !! k.
Proof.
  revert m. induction l as [|a l IH]; intros m Hk; [done|].
  simpl in *. apply not_elem_of_cons in Hk as [Hne Hk].
  rewrite IH by done. by rewrite lookup_insert_ne.
Qed.

Lemma lookup_fill_elem (l : list A) (m : gmap K V) c :
  NoDup (f <$> l) → c ∈ l →
  foldl (λ m c, <[f c := g c]> m) m l !! f c = Some (g c).
Proof.
  revert m. induction l as [|a l IH]; intros m Hnd Hc; [by apply elem_of_nil in Hc|].
  simpl in *. apply NoDup_cons in Hnd as [Ha Hnd].
  apply elem_of_cons in Hc as [-> | Hc]; [|by apply IH].
  rewrite lookup_fill_other by done. by rewrite lookup_insert_eq.
Qed.

Lemma lookup_fill_Some (l : list A) (m : gmap K V) k v :
  foldl (λ m c, <[f c := g c]> m) m l !! k = Some v →
  m !! k = Some v ∨ ∃ c, c ∈ l ∧ f c = k ∧ g c = v.
Proof.
  revert m. induction l as [|a l IH]; intros m Hk; [by left|].
  simpl in Hk. apply IH in Hk as [Hk | (c & Hc & Hf & Hg)].
  - destruct (decide (f a = k)) as [<- | Hne].
    + rewrite lookup_insert_eq in Hk. injection Hk as <-.
      right. exists a. split_and!; [by left | done | done].
    + rewrite lookup_insert_ne in Hk by done. by left.
  - right. exists c. split_and!; [by right | done | done].
Qed.
End Dict.

Lemma elem_of_concat {A} (ls : list (list A)) x :
  x ∈ concat ls ↔ ∃ l, l ∈ ls ∧ x ∈ l.
Proof.
  induction ls as [|l ls IH]; simpl.
  - split; [by intros ?%elem_of_nil | by intros (l & ?%elem_of_nil & _)].
  - rewrite elem_of_app, IH. split.
    + intros [H | (l' & Hl' & Hx)]; [exists l; split; [by left | done]|].
      exists l'. split; [by right | done].
    + intros (l' & [-> | Hl']%elem_of_cons & Hx); [by left | right; eauto].
Qed.

Lemma elem_of_combined_df sheets row :
  row ∈ combined_df sheets ↔ ∃ sheet, sheet ∈ sheets ∧ row ∈ sheet.2.
Proof.
  unfold combined_df. rewrite elem_of_concat. split.
  - intros (l & (sheet & -> & Hs)%list_elem_of_fmap & Hrow). eauto.
  - intros (sheet & Hs & Hrow). exists sheet.2. split; [|done].
    by apply list_elem_of_fmap_2.
Qed.

(** *** Parents *)

Lemma unique_parents_elem sheets p :
  p ∈ unique_parents sheets ↔
  ∃ i row, row ∈ drop_duplicates ID (combined_df sheets)
           ∧ merge_sort by_original_id
               (parent_of_row <$> drop_duplicates ID (combined_df sheets)) !! i
             = Some (parent_of_row row)
           ∧ p = with_parent_id i (parent_of_row row).
Proof.
  unfold unique_parents. rewrite elem_of_lookup_imap. split.
  - intros (i & q & -> & Hq).
    assert (q ∈ parent_of_row <$> drop_duplicates ID (combined_df sheets)) as Hin.
    { rewrite <- (merge_sort_Permutation by_original_id). by eapply list_elem_of_lookup_2. }
    apply list_elem_of_fmap in Hin as (row & -> & Hrow). eauto.
  - intros (i & row & Hrow & Hi & ->). eauto.
Qed.

Lemma unique_parents_original_ids sheets :
  original_id <$> unique_parents sheets
  ≡ₚ ID <$> drop_duplicates ID (combined_df sheets).
Proof.
  unfold unique_parents. rewrite fmap_imap.
  rewrite (imap_ext _ (const original_id)) by done.
  rewrite imap_const, merge_sort_Permutation, <- list_fmap_compose. done.
Qed.

Lemma unique_parents_NoDup sheets : NoDup (original_id <$> unique_parents sheets).
Proof. rewrite unique_parents_original_ids. apply drop_duplicates_NoDup. Qed.

Lemma parent_mapping_Some sheets k v :
  parent_mapping sheets !! k = Some v ↔
  ∃ p, p ∈ unique_parents sheets ∧ original_id p = k ∧ parent_id p = v.
Proof.
  unfold parent_mapping. split.
  - intros [H | H]%lookup_fill_Some; [by rewrite lookup_empty in H | done].
  - intros (p & Hp & <- & <-).
    apply (lookup_fill_elem original_id parent_id); [apply unique_parents_NoDup | done].
Qed.

Lemma parent_mapping_row sheets row :
  row ∈ combined_df sheets → is_Some (parent_mapping sheets !! ID row).
Proof.
  intros Hrow.
  destruct (drop_duplicates_keys ID _ _ Hrow) as (r & Hr & Hk).
  assert (ID r ∈ original_id <$> unique_parents sheets) as Hin.
  { rewrite unique_parents_original_ids. by apply list_elem_of_fmap_2. }
  apply list_elem_of_fmap in Hin as (p & Hp & Hin).
  exists (parent_id p). apply parent_mapping_Some. exists p. split_and!; [done | congruence | done].
Qed.

(** A parent carries the attributes of the first row of the workbook that
    has its [ID]. *)
Lemma parent_first_sighting sheets p :
  p ∈ unique_parents sheets →
  ∃ i row, head (filter (λ r, ID r = original_id p) (combined_df sheets)) = Some row
           ∧ p = with_parent_id i (parent_of_row row).
Proof.
  intros (i & row & Hrow & _ & ->)%unique_parents_elem.
  exists i, row. split; [|done]. exact (drop_duplicates_first ID _ _ Hrow).
Qed.

(** *** Children *)

Lemma child_of_slot_Ok pid row n l :
  child_of_slot pid row n = Ok l →
  (slot_is_empty row n = true ∧ l = [])
  ∨ (slot_is_empty row n = false
     ∧ ∃ a, child_age row n = Ok a
            ∧ ∃ c, l = [c] ∧ child_parent_id c = pid
                   ∧ child_full_name c = slot_name row n ∧ age c = a
                   ∧ dedupe_key c = child_key pid (upper (slot_name row n)) a).
Proof.
  unfold child_of_slot. destruct (slot_is_empty row n); [intros [= <-]; by left|].
  destruct (child_age row n) as [a|e]; simpl; [|done].
  intros [= <-]. right. split; [done|]. exists a. split; [done|].
  eexists. split; [done|]. done.
Qed.

Lemma all_children_elem sheets all c :
  all_children sheets = Ok all → c ∈ all →
  ∃ sheet row n pid,
    sheet ∈ sheets ∧ row ∈ sheet.2 ∧ n ∈ [1; 2; 3]
    ∧ parent_mapping sheets !! ID row = Some pid
    ∧ child_of_slot pid row n = Ok [c].
Proof.
  unfold all_children. intros Hall Hc.
  destruct (collect_Ok_inv _ _ _ _ Hall Hc) as (sheet & l1 & Hsheet & Hrows & Hc1).
  destruct (collect_Ok_inv _ _ _ _ Hrows Hc1) as (row & l2 & Hrow & Hslots & Hc2).
  unfold children_of_row in Hslots.
  destruct (parent_mapping sheets !! ID row) as [pid|] eqn:Hpid;
    [|injection Hslots as <-; by apply elem_of_nil in Hc2].
  destruct (collect_Ok_inv _ _ _ _ Hslots Hc2) as (n & l3 & Hn & Hslot & Hc3).
  exists sheet, row, n, pid. split_and!; try done.
  destruct (child_of_slot_Ok _ _ _ _ Hslot) as [[_ ->] | (_ & a & _ & c' & -> & _)].
  - by apply elem_of_nil in Hc3.
  - apply list_elem_of_singleton in Hc3. by subst.
Qed.

Lemma all_children_key_matches sheets all c :
  all_children sheets = Ok all → c ∈ all → key_matches c.
Proof.
  intros Hall Hc.
  destruct (all_children_elem _ _ _ Hall Hc) as (_ & row & n & pid & _ & _ & _ & _ & Hs).
  apply child_of_slot_Ok in Hs as [[_ [=]] | (_ & a & _ & c' & [= <-] & H1 & H2 & H3 & H4)].
  unfold key_matches. by rewrite H1, H2, H3, H4.
Qed.

Lemma all_children_slot sheets all sheet row n pid :
  all_children sheets = Ok all →
  sheet ∈ sheets → row ∈ sheet.2 → n ∈ [1; 2; 3] →
  parent_mapping sheets !! ID row = Some pid →
  slot_is_empty row n = false →
  ∃ a c, child_age row n = Ok a ∧ c ∈ all
         ∧ dedupe_key c = child_key pid (upper (slot_name row n)) a.
Proof.
  unfold all_children. intros Hall Hsheet Hrow Hn Hpid Hne.
  destruct (collect_Ok_elem _ _ _ _ Hall Hsheet) as (l1 & Hrows & Hsub1).
  destruct (collect_Ok_elem _ _ _ _ Hrows Hrow) as (l2 & Hslots & Hsub2).
  unfold children_of_row in Hslots. rewrite Hpid in Hslots.
  destruct (collect_Ok_elem _ _ _ _ Hslots Hn) as (l3 & Hslot & Hsub3).
  apply child_of_slot_Ok in Hslot as [[? _] | (_ & a & Ha & c & -> & _ & _ & _ & Hk)];
    [congruence|].
  exists a, c. split_and!; [done | | done].
  apply Hsub1, Hsub2, Hsub3. by left.
Qed.

(** *** The reverse mapping *)

Lemma children_unique_elem children c :
  c ∈ children_unique children ↔
  ∃ i c0, drop_duplicates dedupe_key children !! i = Some c0 ∧ c = with_child_id i c0.
Proof.
  unfold children_unique. rewrite elem_of_lookup_imap.
  split; intros (i & c0 & H1 & H2); eauto.
Qed.

Lemma children_unique_NoDup children :
  NoDup (dedupe_key <$> children_unique children).
Proof.
  unfold children_unique. rewrite fmap_imap.
  rewrite (imap_ext _ (const dedupe_key)) by done.
  rewrite imap_const. apply drop_duplicates_NoDup.
Qed.

Lemma children_unique_key_matches children c :
  (∀ x, x ∈ children → key_matches x) → c ∈ children_unique children → key_matches c.
Proof.
  intros Hall (i & c0 & Hi & ->)%children_unique_elem.
  apply list_elem_of_lookup_2, drop_duplicates_elem, Hall in Hi. exact Hi.
Qed.

Lemma child_lookup_eq children :
  (∀ x, x ∈ children → key_matches x) →
  child_lookup (children_unique children)
  = foldl (λ m c, <[dedupe_key c := child_id c]> m) ∅ (children_unique children).
Proof.
  intros Hall. unfold child_lookup.
  pose proof (children_unique_key_matches children) as Hk.
  specialize (λ c, Hk c Hall).
  generalize (∅ : gmap string Z).
  induction (children_unique children) as [|c l IH]; intros m; [done|].
  simpl. rewrite (Hk c) by (by left). apply IH. intros x Hx. apply Hk. by right.
Qed.

Lemma child_lookup_Some children k v :
  (∀ x, x ∈ children → key_matches x) →
  child_lookup (children_unique children) !! k = Some v ↔
  ∃ i c0, drop_duplicates dedupe_key children !! i = Some c0
          ∧ dedupe_key c0 = k ∧ v = Z.of_nat i + 1.
Proof.
  intros Hall. rewrite child_lookup_eq by done. split.
  - intros [H | (c & Hc & Hk & Hv)]%lookup_fill_Some; [by rewrite lookup_empty in H|].
    apply children_unique_elem in Hc as (i & c0 & Hi & ->). exists i, c0.
    by subst.
  - intros (i & c0 & Hi & <- & ->).
    change (dedupe_key c0) with (dedupe_key (with_child_id i c0)).
    change (Z.of_nat i + 1) with (child_id (with_child_id i c0)).
    apply (lookup_fill_elem dedupe_key child_id); [apply children_unique_NoDup|].
    apply children_unique_elem. eauto.
Qed.

Lemma child_lookup_child children k v :
  (∀ x, x ∈ children → key_matches x) →
  child_lookup (children_unique children) !! k = Some v →
  ∃ c, c ∈ children_unique children ∧ child_id c = v ∧ dedupe_key c = k.
Proof.
  intros Hall (i & c0 & Hi & <- & ->)%child_lookup_Some; [|done].
  exists (with_child_id i c0). split_and!; [|done|done].
  apply children_unique_elem. eauto.
Qed.

Lemma child_lookup_hit children c :
  (∀ x, x ∈ children → key_matches x) → c ∈ children →
  is_Some (child_lookup (children_unique children) !! dedupe_key c).
Proof.
  intros Hall Hc.
  destruct (drop_duplicates_keys dedupe_key _ _ Hc) as (c0 & Hc0 & Hk).
  apply list_elem_of_lookup in Hc0 as [i Hi].
  exists (Z.of_nat i + 1). apply child_lookup_Some; [done|]. eauto.
Qed.

Lemma child_lookup_inj children k1 k2 v :
  (∀ x, x ∈ children → key_matches x) →
  child_lookup (children_unique children) !! k1 = Some v →
  child_lookup (children_unique children) !! k2 = Some v →
  k1 = k2.
Proof.
  intros Hall (i1 & c1 & H1 & <- & ->)%child_lookup_Some
              (i2 & c2 & H2 & <- & Hv)%child_lookup_Some; try done.
  assert (i1 = i2) as -> by lia. congruence.
Qed.

(** A child carries the attributes of the first slot of the workbook that
    has its key. *)
Lemma child_first_sighting children c :
  c ∈ children_unique children →
  ∃ i c0, head (filter (λ x, dedupe_key x = dedupe_key c) children) = Some c0
          ∧ c = with_child_id i c0.
Proof.
  intros (i & c0 & Hi & ->)%children_unique_elem.
  exists i, c0. split; [|done].
  apply list_elem_of_lookup_2 in Hi. exact (drop_duplicates_first dedupe_key _ _ Hi).
Qed.

(** The age is part of the key. *)
Lemma child_key_age pid name a1 a2 :
  child_key pid name a1 = child_key pid name a2 → a1 = a2.
Proof.
  unfold child_key. intros H.
  repeat apply (inj (String.app _)) in H. by apply (inj pretty) in H.
Qed.

(** *** The exported tables *)

Lemma export_Ok sheets out :
  export sheets = Ok out →
  ∃ all records,
    all_children sheets = Ok all
    ∧ all_attendance sheets (child_lookup (children_unique all)) = Ok records
    ∧ out = {| parents_final := unique_parents sheets;
               children_final := children_unique all;
               attendance_final := imap with_attendance_id records |}.
Proof.
  unfold export. destruct (all_children sheets) as [[|c all]|e]; simpl; [done| |done].
  destruct (all_attendance sheets _) as [records|e] eqn:Hrec; simpl; [|done].
  intros [= <-]. by exists (c :: all), records.
Qed.

Lemma present_spec row n :
  present row n = true ↔ cells row !! checkin_col n = Some (VInt 1).
Proof.
  unfold present. destruct (cells row !! checkin_col n) as [[| s | z]|]; simpl;
    try (split; [done | by intros [=]]).
  split.
  - intros ->%Z.eqb_eq. done.
  - by intros [= ->].
Qed.

(** In a run that ends well, the lookup of a named slot always hits. *)
Lemma slot_child_id_hit sheets all sheet row n pid :
  all_children sheets = Ok all →
  sheet ∈ sheets → row ∈ sheet.2 → n ∈ [1; 2; 3] →
  parent_mapping sheets !! ID row = Some pid →
  slot_is_empty row n = false →
  ∃ a cid, child_age row n = Ok a
           ∧ child_lookup (children_unique all)
               !! child_key pid (upper (slot_name row n)) a = Some cid
           ∧ slot_child_id (child_lookup (children_unique all)) pid row n = Ok (Some cid).
Proof.
  intros Hall Hsheet Hrow Hn Hpid Hne.
  destruct (all_children_slot _ _ _ _ _ _ Hall Hsheet Hrow Hn Hpid Hne)
    as (a & c & Ha & Hc & Hk).
  destruct (child_lookup_hit all c) as [cid Hcid];
    [eauto using all_children_key_matches | done |].
  exists a, cid. rewrite <- Hk. split_and!; [done | done |].
  unfold slot_child_id. rewrite Ha. simpl. by rewrite <- Hk, Hcid.
Qed.

Lemma attendance_of_slot_spec sheets all sheet row n pid :
  all_children sheets = Ok all →
  sheet ∈ sheets → row ∈ sheet.2 → n ∈ [1; 2; 3] →
  parent_mapping sheets !! ID row = Some pid →
  attendance_of_slot (child_lookup (children_unique all)) sheet.1 pid row n
  = if (negb (slot_is_empty row n) && present row n)%bool
    then match slot_child_id (child_lookup (children_unique all)) pid row n with
         | Ok (Some cid) =>
             Ok [Attendance 0 cid sheet.1 ATTENDANCE_DATE None None true]
         | _ => Ok []
         end
    else Ok [].
Proof.
  intros Hall Hsheet Hrow Hn Hpid. unfold attendance_of_slot.
  destruct (slot_is_empty row n) eqn:Hne; [done|]. simpl.
  destruct (slot_child_id_hit _ _ _ _ _ _ Hall Hsheet Hrow Hn Hpid Hne)
    as (a & cid & _ & _ & ->).
  simpl. by destruct (present row n).
Qed.

Lemma collect_Forall2 {A B C} (R : B → C → Prop) (body : A → result (list B))
    (g : A → list C) l ys :
  collect body l = Ok ys →
  (∀ x zs, x ∈ l → body x = Ok zs → Forall2 R zs (g x)) →
  Forall2 R ys (l ≫= g).
Proof.
  revert ys. induction l as [|x l IH]; simpl; intros ys H HR.
  - injection H as <-. constructor.
  - destruct (body x) as [zs|e] eqn:Hx; simpl in H; [|done].
    destruct (collect body l) as [ws|e] eqn:Hl; simpl in H; [|done].
    injection H as <-. apply Forall2_app.
    + apply HR; [by left | done].
    + apply IH; [done|]. intros y zs' Hy. apply HR. by right.
Qed.

Lemma Forall2_imap_l {A B C} (R : B → C → Prop) (f : nat → A → B) (Q : A → C → Prop)
    l k :
  (∀ i x y, Q x y → R (f i x) y) → Forall2 Q l k → Forall2 R (imap f l) k.
Proof.
  intros HR H. revert f HR. induction H as [|x y l k Hxy _ IH]; intros f HR; simpl.
  - constructor.
  - constructor; [by apply HR|]. apply IH. intros i. apply HR.
Qed.

Lemma checked_in_present row n :
  checked_in row n = (negb (slot_is_empty row n) && present row n)%bool.
Proof.
  unfold checked_in. f_equal. destruct (present row n) eqn:Hp.
  - apply bool_decide_eq_true. by apply present_spec.
  - apply bool_decide_eq_false. intros H%present_spec. congruence.
Qed.

Lemma all_attendance_slots sheets all records :
  all_children sheets = Ok all →
  all_attendance sheets (child_lookup (children_unique all)) = Ok records →
  Forall2 (records_slot sheets (child_lookup (children_unique all)))
    records (checked_in_slots sheets).
Proof.
  intros Hall Hrec. unfold all_attendance in Hrec. unfold checked_in_slots.
  eapply collect_Forall2; [exact Hrec|]. cbv beta.
  intros sheet l1 Hsheet Hrows.
  eapply collect_Forall2; [exact Hrows|]. cbv beta.
  intros row l2 Hrow Hslots.
  unfold attendance_of_row in Hslots.
  destruct (parent_mapping_row sheets row) as [pid Hpid].
  { apply elem_of_combined_df. eauto. }
  rewrite Hpid in Hslots.
  eapply collect_Forall2; [exact Hslots|]. cbv beta.
  intros n l3 Hn Hslot.
  rewrite (attendance_of_slot_spec sheets all sheet row n pid) in Hslot by done.
  rewrite checked_in_present.
  destruct (negb (slot_is_empty row n) && present row n)%bool eqn:Hc;
    [|injection Hslot as <-; constructor].
  apply andb_true_iff in Hc as [Hne%negb_true_iff _].
  destruct (slot_child_id_hit _ _ _ _ _ _ Hall Hsheet Hrow Hn Hpid Hne)
    as (a & cid & _ & _ & Hcid).
  rewrite Hcid in Hslot. injection Hslot as <-.
  constructor; [|constructor]. unfold records_slot. simpl.
  split_and!; try done. eauto.
Qed.

(** Every named slot has its child in the exported table, checked in or
    not. *)
Lemma named_slot_child sheets out sheet row n :
  export sheets = Ok out →
  sheet ∈ sheets → row ∈ sheet.2 → n ∈ [1; 2; 3] →
  slot_is_empty row n = false →
  ∃ pid a c,
    parent_mapping sheets !! ID row = Some pid
    ∧ child_age row n = Ok a
    ∧ c ∈ children_final out
    ∧ dedupe_key c = child_key pid (upper (slot_name row n)) a
    ∧ slot_child_id (child_lookup (children_final out)) pid row n = Ok (Some (child_id c)).
Proof.
  intros (all & records & Hall & _ & ->)%export_Ok Hsheet Hrow Hn Hne. simpl.
  destruct (parent_mapping_row sheets row) as [pid Hpid].
  { apply elem_of_combined_df. eauto. }
  destruct (slot_child_id_hit _ _ _ _ _ _ Hall Hsheet Hrow Hn Hpid Hne)
    as (a & cid & Ha & Hk & Hcid).
  assert (∀ x, x ∈ all → key_matches x) as Hkeys
    by eauto using all_children_key_matches.
  destruct (child_lookup_child all _ _ Hkeys Hk) as (c & Hc & <- & Hkc).
  by exists pid, a, c.
Qed.

Lemma attendance_table sheets out :
  export sheets = Ok out →
  Forall2 (records_slot sheets (child_lookup (children_final out)))
    (attendance_final out) (checked_in_slots sheets).
Proof.
  intros (all & records & Hall & Hrec & ->)%export_Ok. simpl.
  eapply Forall2_imap_l; [|by apply all_attendance_slots].
  intros i a slot H. exact H.
Qed.

(** *** Key stability *)

Lemma batch_child_ids sheets out sheet1 row1 n1 sheet2 row2 n2 a1 a2 :
  export sheets = Ok out →
  sheet1 ∈ sheets → row1 ∈ sheet1.2 → n1 ∈ [1; 2; 3] →
  sheet2 ∈ sheets → row2 ∈ sheet2.2 → n2 ∈ [1; 2; 3] →
  ID row1 = ID row2 →
  slot_is_empty row1 n1 = false → slot_is_empty row2 n2 = false →
  upper (slot_name row1 n1) = upper (slot_name row2 n2) →
  child_age row1 n1 = Ok a1 → child_age row2 n2 = Ok a2 →
  ∃ pid c1 c2,
    parent_mapping sheets !! ID row1 = Some pid
    ∧ parent_mapping sheets !! ID row2 = Some pid
    ∧ slot_child_id (child_lookup (children_final out)) pid row1 n1 = Ok (Some c1)
    ∧ slot_child_id (child_lookup (children_final out)) pid row2 n2 = Ok (Some c2)
    ∧ (c1 = c2 ↔ a1 = a2).
Proof.
  intros (all & records & Hall & _ & ->)%export_Ok Hs1 Hr1 Hn1 Hs2 Hr2 Hn2 HID
    He1 He2 Hup Ha1 Ha2. simpl.
  destruct (parent_mapping_row sheets row1) as [pid Hpid].
  { apply elem_of_combined_df. eauto. }
  assert (parent_mapping sheets !! ID row2 = Some pid) as Hpid2 by by rewrite <- HID.
  destruct (slot_child_id_hit _ _ _ _ _ _ Hall Hs1 Hr1 Hn1 Hpid He1)
    as (a1' & c1 & Ha1' & Hk1 & Hc1).
  destruct (slot_child_id_hit _ _ _ _ _ _ Hall Hs2 Hr2 Hn2 Hpid2 He2)
    as (a2' & c2 & Ha2' & Hk2 & Hc2).
  assert (a1' = a1) as -> by congruence. assert (a2' = a2) as -> by congruence.
  exists pid, c1, c2. split_and!; try done. rewrite <- Hup in Hk2. split.
  - intros ->. eapply child_key_age, child_lookup_inj; [|exact Hk1|exact Hk2].
    eauto using all_children_key_matches.
  - intros ->. congruence.
Qed.
End BatchFacts.

(** ** Incremental mode: guarded writes and the statistics *)

Module LedgerFacts.
Import Incremental IncrementalFacts Ledger.

Lemma gender_or_male_valid g : gender_or_male g ∈ ["Male"; "Female"].
Proof. unfold gender_or_male. destruct (decide _); [done | by left]. Qed.

Lemma select_parent_None phone d :
  select_parent phone d = None → phone ∉ p_phone_number <$> parents d.
Proof.
  unfold select_parent. intros H (p & -> & Hp)%list_elem_of_fmap.
  assert (p ∈ filter (λ q, p_phone_number q = p_phone_number p) (parents d)) as Hin
    by by apply list_elem_of_filter.
  destruct (filter _ _); [by apply elem_of_nil in Hin | done].
Qed.

Lemma select_parent_Some phone d p :
  select_parent phone d = Some p → p ∈ parents d ∧ p_phone_number p = phone.
Proof.
  unfold select_parent. intros H%head_Some_elem_of.
  apply list_elem_of_filter in H as [? ?]. done.
Qed.

Lemma select_child_None pid name age d :
  select_child pid name age d = None →
  (pid, upper name, age) ∉ child_natural_key <$> children d.
Proof.
  unfold select_child. intros H (c & Hk & Hc)%list_elem_of_fmap.
  unfold child_natural_key in Hk. injection Hk as -> Hu ->.
  assert (c ∈ filter (λ x, c_parent_id x = c_parent_id c
                           ∧ upper (c_full_name x) = upper name
                           ∧ c_age x = c_age c) (children d)) as Hin
    by by apply list_elem_of_filter.
  destruct (filter _ _); [by apply elem_of_nil in Hin | done].
Qed.

(** *** A property kept by every write the pipeline can make

    The pipeline inserts a parent only for a phone it did not find, with a
    name and a phone that are not empty and a validated gender; a child
    only for a key it did not find, under a parent that exists, with a
    name that is not empty and a validated gender; an attendance row only
    for a child that exists. *)
Section Guarded.
Variable P : store → Prop.
Hypothesis P_parent : ∀ d name phone gender,
  P d → phone ∉ p_phone_number <$> parents d →
  name ≠ "" → phone ≠ "" → gender ∈ ["Male"; "Female"] →
  P (insert_parent name phone gender d).2.
Hypothesis P_child : ∀ d pid name age gender,
  P d → (pid, upper name, age) ∉ child_natural_key <$> children d →
  pid ∈ p_parent_id <$> parents d →
  name ≠ "" → gender ∈ ["Male"; "Female"] →
  P (insert_child pid name age gender d).2.
Hypothesis P_attendance : ∀ d cid service d8,
  P d → (cid, service, d8) ∉ attendance_key <$> attendance d →
  cid ∈ c_child_id <$> children d →
  P (insert_attendance cid service d8 d).2.

Lemma resolve_parent_guarded name phone gender s :
  name ≠ "" → phone ≠ "" → gender ∈ ["Male"; "Female"] → P (db s) →
  ∃ pid s', resolve_parent name phone gender s = (Returns pid, s')
            ∧ P (db s') ∧ pid ∈ p_parent_id <$> parents (db s').
Proof.
  intros Hn Hp Hg HP. rewrite resolve_parent_eq.
  destruct (select_parent phone (db s)) as [p|] eqn:Hsel.
  - eexists _, _. split_and!; [done | done |]. simpl.
    apply select_parent_Some in Hsel as [Hin _]. by apply list_elem_of_fmap_2.
  - eexists _, _. split_and!; [done | |].
    + cbn [db]. apply P_parent; auto using select_parent_None.
    + simpl. rewrite fmap_app. apply elem_of_app. right. by left.
Qed.

Lemma child_slot_guarded row pid d8 n s :
  P (db s) → pid ∈ p_parent_id <$> parents (db s) →
  ∃ s', child_slot row pid d8 n s = (Returns tt, s')
        ∧ P (db s') ∧ parents (db s') = parents (db s).
Proof.
  intros HP Hpid. unfold child_slot.
  destruct (String.eqb_spec (child_name row n) "") as [He|Hne]; [by exists s|].
  unfold bind. rewrite resolve_child_eq.
  destruct (select_child pid (child_name row n) (child_age row n) (db s)) as [c|] eqn:Hsel.
  - rewrite record_attendance_eq. cbn [db].
    destruct (decide _) as [Hin|Hnin]; [by eexists|].
    eexists. split_and!; [done | |].
    + cbn [db]. apply P_attendance; [done | done |].
      apply select_child_Some in Hsel as (Hc & _). by apply list_elem_of_fmap_2.
    + unfold insert_attendance. by rewrite decide_False.
  - assert (P (insert_child pid (child_name row n) (child_age row n)
                 (child_gender row n) (db s)).2) as HP1.
    { apply P_child; auto using select_child_None.
      unfold child_gender. apply gender_or_male_valid. }
    rewrite record_attendance_eq. cbn [db].
    destruct (decide _) as [Hin|Hnin]; [by eexists|].
    eexists. split_and!; [done | |].
    + cbn [db]. apply P_attendance; [done | done |].
      simpl. rewrite fmap_app. apply elem_of_app. right. by left.
    + unfold insert_attendance. by rewrite decide_False.
Qed.

Lemma slots_guarded row pid d8 (l : list Z) s :
  P (db s) → pid ∈ p_parent_id <$> parents (db s) →
  ∃ s', for_each l (child_slot row pid d8) s = (Returns tt, s') ∧ P (db s').
Proof.
  revert s. induction l as [|n l IH]; intros s HP Hpid; [by exists s|].
  simpl. unfold bind.
  destruct (child_slot_guarded row pid d8 n s HP Hpid) as (s1 & -> & HP1 & Hpar).
  apply IH; [done | by rewrite Hpar].
Qed.

Lemma process_row_guarded to_datetime_date today s row :
  P (db s) → P (db (process_row to_datetime_date today s row)).
Proof.
  intros HP. unfold process_row.
  destruct (missing_name_or_phone row) eqn:Hm.
  { by rewrite row_body_rejected. }
  destruct (attendance_date to_datetime_date today row) as [d8|] eqn:Hd.
  2:{ by rewrite row_body_raises. }
  rewrite (row_body_accepted _ _ row d8) by done. unfold bind.
  unfold missing_name_or_phone in Hm. apply orb_false_iff in Hm as [Hp Hn].
  apply String.eqb_neq in Hp, Hn.
  destruct (resolve_parent_guarded (parent_name row) (parent_phone row)
              (parent_gender row) s) as (pid & s1 & -> & HP1 & Hpid);
    [done | done | apply gender_or_male_valid | done |].
  by destruct (slots_guarded row pid d8 [1; 2; 3] s1 HP1 Hpid) as (s2 & -> & HP2).
Qed.

Lemma process_rows_guarded to_datetime_date today df s :
  P (db s) → P (db (process_rows to_datetime_date today df s)).
Proof.
  revert s. induction df as [|row df IH]; intros s HP; [done|].
  simpl. apply IH. by apply process_row_guarded.
Qed.
End Guarded.

Lemma NoDup_snoc_fresh {A} (l : list A) x : NoDup l → x ∉ l → NoDup (l ++ [x]).
Proof.
  intros Hl Hx. apply NoDup_app. split_and!; [done | | apply NoDup_singleton].
  intros y Hy Hy'. apply list_elem_of_singleton in Hy'. by subst.
Qed.

Lemma phones_unique_kept to_datetime_date today df s :
  NoDup (p_phone_number <$> parents (db s)) →
  NoDup (p_phone_number <$> parents (db (process_rows to_datetime_date today df s))).
Proof.
  apply (process_rows_guarded (λ d, NoDup (p_phone_number <$> parents d))).
  - intros d name phone gender Hd Hfresh _ _ _. simpl. rewrite fmap_app.
    by apply NoDup_snoc_fresh.
  - done.
  - intros d cid service d8 Hd Hk _. unfold insert_attendance. by rewrite decide_False.
Qed.

Lemma child_keys_unique_kept to_datetime_date today df s :
  NoDup (child_natural_key <$> children (db s)) →
  NoDup (child_natural_key <$> children (db (process_rows to_datetime_date today df s))).
Proof.
  apply (process_rows_guarded (λ d, NoDup (child_natural_key <$> children d))).
  - done.
  - intros d pid name age gender Hd Hfresh _ _ _. simpl. rewrite fmap_app.
    by apply NoDup_snoc_fresh.
  - intros d cid service d8 Hd Hk _. unfold insert_attendance. by rewrite decide_False.
Qed.

Lemma referential_kept to_datetime_date today df s :
  referential (db s) → referential (db (process_rows to_datetime_date today df s)).
Proof.
  apply (process_rows_guarded referential).
  - intros d name phone gender [Hc Ha] _ _ _ _. split; simpl; [|done].
    intros c Hin. rewrite fmap_app. apply elem_of_app. left. by apply Hc.
  - intros d pid name age gender [Hc Ha] _ Hpid _ _. split; simpl.
    + intros c [Hin | ->%list_elem_of_singleton]%elem_of_app; [by apply Hc | done].
    + intros a Hin. rewrite fmap_app. apply elem_of_app. left. by apply Ha.
  - intros d cid service d8 [Hc Ha] Hk Hcid. unfold insert_attendance.
    rewrite decide_False by done. split; simpl; [done|].
    intros a [Hin | ->%list_elem_of_singleton]%elem_of_app; [by apply Ha | done].
Qed.

Lemma clean_kept to_datetime_date today df s :
  clean (db s) → clean (db (process_rows to_datetime_date today df s)).
Proof.
  apply (process_rows_guarded clean).
  - intros d name phone gender [Hp Hc Ha] _ Hn Hph Hg. split; simpl; [|done|done].
    intros p [Hin | ->%list_elem_of_singleton]%elem_of_app; [by apply Hp | done].
  - intros d pid name age gender [Hp Hc Ha] _ _ Hn Hg. split; simpl; [done| |done].
    intros c [Hin | ->%list_elem_of_singleton]%elem_of_app; [by apply Hc | done].
  - intros d cid service d8 [Hp Hc Ha] Hk _. unfold insert_attendance.
    rewrite decide_False by done. split; simpl; [done|done|].
    intros a [Hin | ->%list_elem_of_singleton]%elem_of_app; [by apply Ha | done].
Qed.

(** *** The statistics against the store *)

Lemma child_slot_ledger row pid d8 n s :
  ∃ s', child_slot row pid d8 n s = (Returns tt, s')
    ∧ total_submissions (stats s') = total_submissions (stats s)
    ∧ errors (stats s') = errors (stats s)
    ∧ new_parents (stats s') = new_parents (stats s)
    ∧ existing_parents (stats s') = existing_parents (stats s)
    ∧ parents (db s') = parents (db s)
    ∧ new_children (stats s') + existing_children (stats s')
      = new_children (stats s) + existing_children (stats s)
        + (if decide (child_name row n ≠ "") then 1 else 0)
    ∧ new_children (stats s') - Z.of_nat (length (children (db s')))
      = new_children (stats s) - Z.of_nat (length (children (db s)))
    ∧ attendance_recorded (stats s') - Z.of_nat (length (attendance (db s')))
      = attendance_recorded (stats s) - Z.of_nat (length (attendance (db s)))
    ∧ attendance_recorded (stats s) ≤ attendance_recorded (stats s')
      ≤ attendance_recorded (stats s) + (if decide (child_name row n ≠ "") then 1 else 0).
Proof.
  unfold child_slot.
  destruct (String.eqb_spec (child_name row n) "") as [He|Hne].
  { exists s. rewrite decide_False by (by intros []). split_and!; try done; lia. }
  rewrite decide_True by done. unfold bind. rewrite resolve_child_eq.
  destruct (select_child _ _ _ _); rewrite record_attendance_eq; cbn [db];
    unfold insert_attendance; destruct (decide (_ ∈ _));
    eexists; (split; [done|]); simpl; rewrite ?length_app; simpl;
    split_and!; try done; lia.
Qed.

Lemma slots_ledger row pid d8 (l : list Z) s :
  ∃ s', for_each l (child_slot row pid d8) s = (Returns tt, s')
    ∧ total_submissions (stats s') = total_submissions (stats s)
    ∧ errors (stats s') = errors (stats s)
    ∧ new_parents (stats s') = new_parents (stats s)
    ∧ existing_parents (stats s') = existing_parents (stats s)
    ∧ parents (db s') = parents (db s)
    ∧ new_children (stats s') + existing_children (stats s')
      = new_children (stats s) + existing_children (stats s)
        + Z.of_nat (length (filter (λ n, child_name row n ≠ "") l))
    ∧ new_children (stats s') - Z.of_nat (length (children (db s')))
      = new_children (stats s) - Z.of_nat (length (children (db s)))
    ∧ attendance_recorded (stats s') - Z.of_nat (length (attendance (db s')))
      = attendance_recorded (stats s) - Z.of_nat (length (attendance (db s)))
    ∧ attendance_recorded (stats s) ≤ attendance_recorded (stats s')
      ≤ attendance_recorded (stats s)
        + Z.of_nat (length (filter (λ n, child_name row n ≠ "") l)).
Proof.
  revert s. induction l as [|n l IH]; intros s.
  { exists s. split_and!; try done; simpl; lia. }
  simpl. unfold bind.
  destruct (child_slot_ledger row pid d8 n s)
    as (s1 & -> & H1 & H2 & H3 & H4 & H5 & H6 & H7 & H8 & H9).
  destruct (IH s1) as (s2 & -> & G1 & G2 & G3 & G4 & G5 & G6 & G7 & G8 & G9).
  exists s2. split; [done|].
  rewrite G1, G2, G3, G4, G5, G6, G7, G8, H1, H2, H3, H4, H5, H6, H7, H8.
  assert (Z.of_nat (length (filter (λ n, child_name row n ≠ "") (n :: l)))
          = (if decide (child_name row n ≠ "") then 1 else 0)
            + Z.of_nat (length (filter (λ n, child_name row n ≠ "") l))) as ->.
  { destruct (decide (child_name row n ≠ "")).
    - rewrite filter_cons_True by done. simpl. lia.
    - rewrite filter_cons_False by done. lia. }
  split_and!; try done; lia.
Qed.

Lemma process_row_ledger to_datetime_date today s row :
  row_ledger (accepted to_datetime_date today row)
    (if accepted to_datetime_date today row
     then Z.of_nat (length (named_slots row)) else 0)
    s (process_row to_datetime_date today s row).
Proof.
  unfold process_row, accepted.
  destruct (missing_name_or_phone row) eqn:Hm.
  { rewrite row_body_rejected by done. simpl. split; simpl; lia. }
  destruct (attendance_date to_datetime_date today row) as [d8|] eqn:Hd.
  2:{ rewrite row_body_raises by done. simpl.
      split; simpl; lia. }
  rewrite (row_body_accepted _ _ row d8) by done. unfold bind.
  rewrite resolve_parent_eq.
  destruct (select_parent _ _);
    match goal with |- context [for_each ?l (child_slot row ?pid d8) ?st] =>
      destruct (slots_ledger row pid d8 l st)
        as (s2 & -> & H1 & H2 & H3 & H4 & H5 & H6 & H7 & H8 & H9) end;
    simpl in *; unfold named_slots; split; rewrite ?H5; simpl;
    rewrite ?length_app; simpl; lia.
Qed.

(** The counters after a whole frame. *)
Lemma process_rows_ledger to_datetime_date today df s :
  let s' := process_rows to_datetime_date today df s in
  let rejected :=
    Z.of_nat (length (filter (λ r, accepted to_datetime_date today r = false) df)) in
  let resolved :=
    Z.of_nat (length (filter (λ r, accepted to_datetime_date today r = true) df)) in
  let slots :=
    Z.of_nat (length (filter (λ r, accepted to_datetime_date today r = true) df
                      ≫= named_slots)) in
  total_submissions (stats s') = total_submissions (stats s)
  ∧ errors (stats s') = errors (stats s) + rejected
  ∧ new_parents (stats s') + existing_parents (stats s')
    = new_parents (stats s) + existing_parents (stats s) + resolved
  ∧ new_children (stats s') + existing_children (stats s')
    = new_children (stats s) + existing_children (stats s) + slots
  ∧ new_parents (stats s') - Z.of_nat (length (parents (db s')))
    = new_parents (stats s) - Z.of_nat (length (parents (db s)))
  ∧ new_children (stats s') - Z.of_nat (length (children (db s')))
    = new_children (stats s) - Z.of_nat (length (children (db s)))
  ∧ attendance_recorded (stats s') - Z.of_nat (length (attendance (db s')))
    = attendance_recorded (stats s) - Z.of_nat (length (attendance (db s)))
  ∧ attendance_recorded (stats s) ≤ attendance_recorded (stats s')
    ≤ attendance_recorded (stats s) + slots.
Proof.
  revert s. induction df as [|row df IH]; intros s; cbv zeta.
  { simpl. split_and!; lia. }
  cbn [process_rows foldl].
  destruct (process_row_ledger to_datetime_date today s row) as [H1 H2 H3 H4 H5 H6 H7 H8].
  specialize (IH (process_row to_datetime_date today s row)). cbv zeta in IH.
  fold (process_rows to_datetime_date today df
          (process_row to_datetime_date today s row)).
  destruct IH as (G1 & G2 & G3 & G4 & G5 & G6 & G7 & G8).
  destruct (accepted to_datetime_date today row) eqn:Ha.
  - rewrite (filter_cons_True (λ r, accepted to_datetime_date today r = true)) by done.
    rewrite (filter_cons_False (λ r, accepted to_datetime_date today r = false))
      by (by rewrite Ha).
    rewrite bind_cons, length_app. cbn [length]. split_and!; lia.
  - rewrite (filter_cons_False (λ r, accepted to_datetime_date today r = true))
      by (by rewrite Ha).
    rewrite (filter_cons_True (λ r, accepted to_datetime_date today r = false)) by done.
    cbn [length]. split_and!; lia.
Qed.

Lemma not_accepted_writes_nothing to_datetime_date today s row :
  accepted to_datetime_date today row = false →
  process_row to_datetime_date today s row = State (db s) (incr_errors (stats s)).
Proof.
  unfold accepted, process_row. intros Ha.
  destruct (missing_name_or_phone row) eqn:Hm.
  { by rewrite row_body_rejected. }
  destruct (attendance_date to_datetime_date today row) as [d8|] eqn:Hd.
  { by simpl in Ha. }
  by rewrite row_body_raises.
Qed.

(** *** The statistics do not steer the writes *)

Lemma child_slot_db row pid d8 n s s' :
  db s = db s' →
  db (child_slot row pid d8 n s).2 = db (child_slot row pid d8 n s').2.
Proof.
  intros Hdb. unfold child_slot. destruct (String.eqb _ _); [done|].
  unfold bind. rewrite !resolve_child_eq, <- Hdb.
  destruct (select_child _ _ _ _); rewrite !record_attendance_eq; cbn [db];
    destruct (decide _); done.
Qed.

Lemma slots_db row pid d8 (l : list Z) s s' :
  db s = db s' →
  db (for_each l (child_slot row pid d8) s).2
  = db (for_each l (child_slot row pid d8) s').2.
Proof.
  revert s s'. induction l as [|n l IH]; intros s s' Hdb; [done|].
  simpl. unfold bind.
  pose proof (child_slot_db row pid d8 n s s' Hdb) as H1.
  destruct (child_slot_spec row pid d8 n s) as (s1 & E1 & _).
  destruct (child_slot_spec row pid d8 n s') as (s1' & E1' & _).
  rewrite E1, E1' in *. by apply IH.
Qed.

Lemma process_row_db to_datetime_date today row s s' :
  db s = db s' →
  db (process_row to_datetime_date today s row)
  = db (process_row to_datetime_date today s' row).
Proof.
  intros Hdb. unfold process_row.
  destruct (missing_name_or_phone row) eqn:Hm.
  { by rewrite !row_body_rejected. }
  destruct (attendance_date to_datetime_date today row) as [d8|] eqn:Hd.
  2:{ by rewrite !row_body_raises. }
  rewrite !(row_body_accepted _ _ row d8) by done. unfold bind.
  rewrite !resolve_parent_eq, <- Hdb.
  destruct (select_parent _ _);
    match goal with
    | |- context [for_each ?l (child_slot row ?pid d8) ?st] =>
        match goal with
        | |- db (let (_, _) := _ in _) = db (let (_, _) := for_each l _ ?st' in _) =>
            pose proof (slots_db row pid d8 l st st' eq_refl) as H1;
            destruct (slots_spec row pid d8 l st) as (s2 & E & _);
            destruct (slots_spec row pid d8 l st') as (s2' & E' & _);
            rewrite E, E' in *; exact H1
        end
    end.
Qed.

Lemma process_rows_db to_datetime_date today df s s' :
  db s = db s' →
  db (process_rows to_datetime_date today df s)
  = db (process_rows to_datetime_date today df s').
Proof.
  revert s s'. induction df as [|row df IH]; intros s s' Hdb; [done|].
  simpl. apply IH. by apply process_row_db.
Qed.

(** *** Which parents a run adds *)

Lemma process_row_parents to_datetime_date today s row :
  parents (db (process_row to_datetime_date today s row))
  = parents (db s)
    ++ (if accepted to_datetime_date today row
        then match select_parent (parent_phone row) (db s) with
             | None => [ParentRow (parents_seq (db s)) (parent_name row)
                          (parent_phone row) (parent_gender row)]
             | Some _ => []
             end
        else []).
Proof.
  unfold process_row, accepted.
  destruct (missing_name_or_phone row) eqn:Hm.
  { rewrite row_body_rejected by done. simpl. by rewrite app_nil_r. }
  destruct (attendance_date to_datetime_date today row) as [d8|] eqn:Hd.
  2:{ rewrite row_body_raises by done. simpl. by rewrite app_nil_r. }
  rewrite (row_body_accepted _ _ row d8) by done. unfold bind.
  rewrite resolve_parent_eq.
  destruct (select_parent _ _);
    match goal with |- context [for_each ?l (child_slot row ?pid d8) ?st] =>
      destruct (slots_ledger row pid d8 l st)
        as (s2 & -> & _ & _ & _ & _ & H5 & _) end;
    rewrite H5; simpl; by rewrite ?app_nil_r.
Qed.

Lemma process_rows_phones to_datetime_date today df s phone :
  phone ∈ p_phone_number <$> parents (db (process_rows to_datetime_date today df s))
  ↔ phone ∈ p_phone_number <$> parents (db s)
    ∨ ∃ row, row ∈ df ∧ accepted to_datetime_date today row = true
             ∧ parent_phone row = phone.
Proof.
  revert s. induction df as [|row df IH]; intros s.
  { simpl. split; [by left|]. intros [H | (row & Hrow%elem_of_nil & _)]; done. }
  cbn [process_rows foldl].
  fold (process_rows to_datetime_date today df (process_row to_datetime_date today s row)).
  rewrite IH, process_row_parents, fmap_app, elem_of_app. split.
  - intros [[H | H] | (r & Hr & Ha & Hp)].
    + by left.
    + right. exists row.
      destruct (accepted to_datetime_date today row) eqn:Ha;
        [|by apply elem_of_nil in H].
      destruct (select_parent _ _); [by apply elem_of_nil in H|].
      apply list_elem_of_singleton in H. simpl in H. split_and!; [by left | done | done].
    + right. exists r. split_and!; [by right | done | done].
  - intros [H | (r & [-> | Hr]%elem_of_cons & Ha & Hp)].
    + left. by left.
    + left. rewrite Ha.
      destruct (select_parent (parent_phone row) (db s)) as [p|] eqn:Hsel.
      * left. apply select_parent_Some in Hsel as [Hin Hph].
        rewrite <- Hp, <- Hph. by apply list_elem_of_fmap_2.
      * right. simpl. rewrite Hp. by left.
    + right. eauto.
Qed.
(** *** The ledger of a whole run *)

Lemma filter_split_length {A} (f : A → bool) (l : list A) :
  (length (filter (λ x, f x = true) l) + length (filter (λ x, f x = false) l))%nat
  = length l.
Proof.
  induction l as [|x l IH]; [done|]. destruct (f x) eqn:Hx.
  - rewrite (filter_cons_True (λ x, f x = true)) by done.
    rewrite (filter_cons_False (λ x, f x = false)) by (by rewrite Hx). simpl. lia.
  - rewrite (filter_cons_False (λ x, f x = true)) by (by rewrite Hx).
    rewrite (filter_cons_True (λ x, f x = false)) by done. simpl. lia.
Qed.

Lemma process_attendance_ledger to_datetime_date today df conn :
  let run := process_attendance to_datetime_date today df conn in
  Z.of_nat (length (parents (committed run.1)))
  = Z.of_nat (length (parents (session conn))) + new_parents run.2
  ∧ Z.of_nat (length (children (committed run.1)))
    = Z.of_nat (length (children (session conn))) + new_children run.2
  ∧ Z.of_nat (length (attendance (committed run.1)))
    = Z.of_nat (length (attendance (session conn))) + attendance_recorded run.2
  ∧ errors run.2
    = Z.of_nat (length (filter (λ r, accepted to_datetime_date today r = false) df)).
Proof.
  cbv zeta. unfold process_attendance. cbn [fst snd committed].
  destruct (process_rows_ledger to_datetime_date today df (start df conn))
    as (_ & H2 & _ & _ & H5 & H6 & H7 & _).
  simpl in *. split_and!; lia.
Qed.
Lemma process_attendance_children to_datetime_date today df conn :
  let t := (process_attendance to_datetime_date today df conn).2 in
  let slots :=
    Z.of_nat (length (filter (λ r, accepted to_datetime_date today r = true) df
                      ≫= named_slots)) in
  new_children t + existing_children t = slots
  ∧ 0 ≤ attendance_recorded t ≤ slots
  ∧ slots ≤ 3 * (new_parents t + existing_parents t).
Proof.
  cbv zeta. unfold process_attendance. cbn [snd].
  destruct (process_rows_ledger to_datetime_date today df (start df conn))
    as (_ & _ & H3 & H4 & _ & _ & _ & H8).
  simpl in *. split_and!; [lia | lia | lia |].
  rewrite H3. clear.
  induction (filter _ df) as [|r l IH]; [simpl; lia|].
  rewrite bind_cons, length_app. cbn [length].
  assert (length (named_slots r) ≤ 3)%nat; [|lia].
  unfold named_slots. etrans; [apply length_filter|]. done.
Qed.

Lemma process_attendance_split to_datetime_date today df1 df2 conn :
  let whole := process_attendance to_datetime_date today (df1 ++ df2) conn in
  let first := process_attendance to_datetime_date today df1 conn in
  let second := process_attendance to_datetime_date today df2 first.1 in
  whole.1 = second.1
  ∧ new_parents whole.2 = new_parents first.2 + new_parents second.2
  ∧ new_children whole.2 = new_children first.2 + new_children second.2
  ∧ attendance_recorded whole.2
    = attendance_recorded first.2 + attendance_recorded second.2
  ∧ errors whole.2 = errors first.2 + errors second.2.
Proof.
  cbv zeta.
  assert ((process_attendance to_datetime_date today (df1 ++ df2) conn).1
          = (process_attendance to_datetime_date today df2
               (process_attendance to_datetime_date today df1 conn).1).1) as Hstore.
  { unfold process_attendance. cbn [fst].
    assert (db (process_rows to_datetime_date today (df1 ++ df2) (start (df1 ++ df2) conn))
            = db (process_rows to_datetime_date today df2
                    (start df2
                       {| committed := db (process_rows to_datetime_date today df1
                                             (start df1 conn));
                          session := db (process_rows to_datetime_date today df1
                                           (start df1 conn)) |}))) as ->; [|done].
    unfold process_rows at 1. rewrite foldl_app.
    apply process_rows_db. simpl. by apply process_rows_db. }
  split; [exact Hstore|].
  pose proof (process_attendance_ledger to_datetime_date today (df1 ++ df2) conn)
    as (W1 & W2 & W3 & We).
  pose proof (process_attendance_ledger to_datetime_date today df1 conn)
    as (F1 & F2 & F3 & Fe).
  pose proof (process_attendance_ledger to_datetime_date today df2
                (process_attendance to_datetime_date today df1 conn).1)
    as (S1 & S2 & S3 & Se).
  cbv zeta in *.
  rewrite Hstore in W1, W2, W3.
  assert (session (process_attendance to_datetime_date today df1 conn).1
          = committed (process_attendance to_datetime_date today df1 conn).1) as Hs by done.
  rewrite Hs in S1, S2, S3.
  rewrite filter_app, length_app in We.
  split_and!; lia.
Qed.
End LedgerFacts.

(** ** Batch mode: surrogate keys, the key of a child, the validation *)

Module BatchReportFacts.
Import Batch BatchFacts BatchReport.

(** *** Parents are numbered in the order of their original id *)

#[global] Instance by_original_id_total : Total by_original_id.
Proof. intros p q. unfold by_original_id. lia. Qed.

#[global] Instance by_original_id_trans : Transitive by_original_id.
Proof. intros p q r. unfold by_original_id. lia. Qed.

Lemma unique_parents_lookup sheets i p :
  unique_parents sheets !! i = Some p →
  parent_id p = Z.of_nat i + 1
  ∧ ∃ q, merge_sort by_original_id
           (parent_of_row <$> drop_duplicates ID (combined_df sheets)) !! i = Some q
         ∧ original_id q = original_id p.
Proof.
  unfold unique_parents. rewrite list_lookup_imap.
  destruct (merge_sort _ _ !! i) as [q|]; [|done].
  intros [= <-]. split; [done|]. by exists q.
Qed.

Lemma StronglySorted_lookup_le {A} (R : relation A) (l : list A) i j x y :
  StronglySorted R l → (i < j)%nat → l !! i = Some x → l !! j = Some y → R x y.
Proof.
  intros Hs. revert i j. induction Hs as [|a l Hs IH Hall]; intros i j Hij Hi Hj.
  { by rewrite lookup_nil in Hi. }
  destruct j as [|j]; [lia|]. destruct i as [|i].
  - injection Hi as ->. simpl in Hj.
    eapply Forall_forall in Hall; [done|]. by eapply list_elem_of_lookup_2.
  - simpl in *. apply (IH i j); [lia | done | done].
Qed.

Lemma unique_parents_ordered sheets i j p q :
  unique_parents sheets !! i = Some p → unique_parents sheets !! j = Some q →
  (i < j)%nat → original_id p < original_id q.
Proof.
  intros Hp Hq Hij.
  destruct (unique_parents_lookup _ _ _ Hp) as (_ & p0 & Hp0 & <-).
  destruct (unique_parents_lookup _ _ _ Hq) as (_ & q0 & Hq0 & <-).
  assert (original_id p0 ≤ original_id q0) as Hle.
  { eapply (StronglySorted_lookup_le by_original_id); [|exact Hij|exact Hp0|exact Hq0].
    apply StronglySorted_merge_sort; apply _. }
  assert (original_id p0 ≠ original_id q0); [|lia].
  intros Heq.
  pose proof (unique_parents_NoDup sheets) as Hnd.
  assert (i = j); [|lia].
  eapply NoDup_lookup; [exact Hnd | |]; rewrite list_lookup_fmap.
  - rewrite Hp. simpl. reflexivity.
  - rewrite Hq. simpl. f_equal.
    destruct (unique_parents_lookup _ _ _ Hp) as (_ & p1 & Hp1 & <-).
    destruct (unique_parents_lookup _ _ _ Hq) as (_ & q1 & Hq1 & <-).
    congruence.
Qed.

Lemma parent_mapping_inj sheets k1 k2 v :
  parent_mapping sheets !! k1 = Some v → parent_mapping sheets !! k2 = Some v → k1 = k2.
Proof.
  intros (p1 & [i1 H1]%list_elem_of_lookup & <- & Hv1)%parent_mapping_Some
         (p2 & [i2 H2]%list_elem_of_lookup & <- & Hv2)%parent_mapping_Some.
  destruct (unique_parents_lookup _ _ _ H1) as (E1 & _).
  destruct (unique_parents_lookup _ _ _ H2) as (E2 & _).
  assert (i1 = i2) as -> by lia. congruence.
Qed.

Lemma parent_mapping_dom sheets k :
  is_Some (parent_mapping sheets !! k) ↔ k ∈ ID <$> combined_df sheets.
Proof.
  split.
  - intros [v (p & Hp & <- & _)%parent_mapping_Some].
    apply unique_parents_elem in Hp as (i & row & Hrow & _ & ->).
    apply drop_duplicates_elem in Hrow. exact (list_elem_of_fmap_2 ID _ row Hrow).
  - intros (row & -> & Hrow)%list_elem_of_fmap. by apply parent_mapping_row.
Qed.

Lemma parent_mapping_range sheets k v :
  parent_mapping sheets !! k = Some v →
  1 ≤ v ≤ Z.of_nat (length (unique_parents sheets)).
Proof.
  intros (p & [i Hi]%list_elem_of_lookup & _ & <-)%parent_mapping_Some.
  destruct (unique_parents_lookup _ _ _ Hi) as (-> & _).
  apply lookup_lt_Some in Hi. lia.
Qed.

(** *** The key of a child tells its three parts apart *)

Lemma pretty_N_char_no_underscore x : pretty_N_char x ≠ "_"%char.
Proof. unfold pretty_N_char. by repeat case_match. Qed.

Lemma pretty_N_go_no_underscore x s :
  no_underscore s → no_underscore (pretty_N_go x s).
Proof.
  revert s. induction (N.lt_wf_0 x) as [x _ IH]; intros s Hs.
  assert (x = 0 ∨ 0 < x)%N as [->|Hx] by lia.
  - by rewrite pretty_N_go_0.
  - rewrite pretty_N_go_step by done. apply IH.
    + by apply N.div_lt.
    + split; [apply pretty_N_char_no_underscore | done].
Qed.

Lemma pretty_N_no_underscore (x : N) : no_underscore (pretty x).
Proof.
  unfold pretty, pretty_N. destruct (decide _).
  - by split.
  - by apply pretty_N_go_no_underscore.
Qed.

Lemma pretty_Z_no_underscore (z : Z) : no_underscore (pretty z).
Proof.
  unfold pretty, pretty_Z. destruct z as [|p|p].
  - by split.
  - apply pretty_N_no_underscore.
  - split; [done | apply pretty_N_no_underscore].
Qed.

Lemma underscore_in_app s t : ¬ no_underscore (s +:+ String "_" t).
Proof. induction s as [|a s IH]; simpl; [by intros [? _] | by intros [_ ?]]. Qed.

Lemma split_first_underscore s s' r r' :
  no_underscore s → no_underscore s' →
  s +:+ String "_" r = s' +:+ String "_" r' → s = s' ∧ r = r'.
Proof.
  revert s'. induction s as [|a s IH]; intros [|a' s']; simpl.
  - by intros _ _ [= ->].
  - intros _ [Ha' _] [= <- _]. done.
  - intros [Ha _] _ [= -> _]. done.
  - intros [_ Hs] [_ Hs'] [= -> H]. destruct (IH s' Hs Hs' H) as [-> ->]. done.
Qed.

Lemma split_last_underscore s s' t t' :
  no_underscore t → no_underscore t' →
  s +:+ String "_" t = s' +:+ String "_" t' → s = s' ∧ t = t'.
Proof.
  intros Ht Ht'. revert s'. induction s as [|a s IH]; intros [|a' s']; simpl.
  - by intros [= ->].
  - intros [= <- ->]. by apply underscore_in_app in Ht.
  - intros [= -> <-]. by apply underscore_in_app in Ht'.
  - intros [= -> H]. destruct (IH s' H) as [-> ->]. done.
Qed.

Lemma child_key_inj pid name a pid' name' a' :
  child_key pid name a = child_key pid' name' a' → pid = pid' ∧ name = name' ∧ a = a'.
Proof.
  unfold child_key. intros H.
  change ("_" +:+ ?x) with (String "_" x) in H.
  apply split_first_underscore in H as [Hp H]; [|apply pretty_Z_no_underscore..].
  change ("_" +:+ ?x) with (String "_" x) in H.
  apply split_last_underscore in H as [Hn Ha]; [|apply pretty_Z_no_underscore..].
  split_and!; [by apply (inj pretty) | done | by apply (inj pretty)].
Qed.

(** *** The validation step finds nothing *)

Lemma children_final_parent sheets out c :
  export sheets = Ok out → c ∈ children_final out →
  child_parent_id c ∈ parent_id <$> parents_final out.
Proof.
  intros (all & records & Hall & _ & ->)%export_Ok Hc. simpl in *.
  apply children_unique_elem in Hc as (i & c0 & Hi & ->). simpl.
  apply list_elem_of_lookup_2, drop_duplicates_elem in Hi.
  destruct (all_children_elem _ _ _ Hall Hi)
    as (sheet & row & n & pid & _ & _ & _ & Hpid & Hslot).
  apply child_of_slot_Ok in Hslot as [[_ [=]] | (_ & a & _ & c' & [= <-] & -> & _)].
  apply parent_mapping_Some in Hpid as (p & Hp & _ & <-).
  by apply list_elem_of_fmap_2.
Qed.

Lemma attendance_final_child sheets out a :
  export sheets = Ok out → a ∈ attendance_final out →
  attendance_child_id a ∈ child_id <$> children_final out.
Proof.
  intros Hout Ha.
  pose proof (attendance_table sheets out Hout) as HF.
  apply list_elem_of_lookup in Ha as [i Hi].
  destruct (Forall2_lookup_l _ _ _ _ _ HF Hi) as (slot & _ & _ & _ & _ & pid & _ & Hcid).
  apply export_Ok in Hout as (all & records & Hall & _ & ->). simpl in *.
  unfold slot_child_id in Hcid.
  destruct (child_age slot.1.2 slot.2) as [age|e]; simpl in Hcid; [|done].
  injection Hcid as Hcid.
  apply child_lookup_child in Hcid as (c & Hc & <- & _);
    [|eauto using all_children_key_matches].
  by apply list_elem_of_fmap_2.
Qed.

(** *** When the export ends well *)

Lemma collect_all_Ok {A B} (body : A → result (list B)) l :
  (∀ x, x ∈ l → ∃ ys, body x = Ok ys) → ∃ ys, collect body l = Ok ys.
Proof.
  induction l as [|x l IH]; intros H; simpl; [by eexists|].
  destruct (H x) as [ys ->]; [by left|].
  destruct IH as [zs ->]; [intros y Hy; apply H; by right|].
  simpl. by eexists.
Qed.

Lemma all_children_Ok sheets :
  (∀ row n, named_slot sheets row n → ∃ a, child_age row n = Ok a) →
  ∃ all, all_children sheets = Ok all.
Proof.
  intros Hages. unfold all_children.
  apply collect_all_Ok. intros sheet Hsheet.
  apply collect_all_Ok. intros row Hrow.
  unfold children_of_row. destruct (parent_mapping sheets !! ID row); [|by eexists].
  apply collect_all_Ok. intros n Hn.
  unfold child_of_slot. destruct (slot_is_empty row n) eqn:He; [by eexists|].
  destruct (Hages row n) as [a ->]; [|by eexists].
  split_and!; [eauto | done | done].
Qed.

Lemma all_attendance_Ok sheets all :
  all_children sheets = Ok all →
  ∃ records, all_attendance sheets (child_lookup (children_unique all)) = Ok records.
Proof.
  intros Hall. unfold all_attendance.
  apply collect_all_Ok. intros sheet Hsheet.
  apply collect_all_Ok. intros row Hrow.
  unfold attendance_of_row.
  destruct (parent_mapping sheets !! ID row) as [pid|] eqn:Hpid; [|by eexists].
  apply collect_all_Ok. intros n Hn.
  rewrite (attendance_of_slot_spec sheets all sheet row n pid) by done.
  destruct (_ && _)%bool; [|by eexists].
  destruct (slot_child_id _ _ _ _) as [[cid|]|e]; by eexists.
Qed.
End BatchReportFacts.

(** ** Incremental mode on a database that can reject a statement *)

Module TransactionFacts.
Import Incremental IncrementalFacts Transaction.

#[global] Instance frame_preorder : PreOrder frame.
Proof.
  unfold frame. split.
  - intros s. done.
  - intros s1 s2 s3 (? & ? & ? & ?) (? & ? & ? & ?). split_and!; congruence.
Qed.

Lemma add_errors_0 t : add_errors 0 t = t.
Proof.
  destruct t as [[d [n a b c e f g]] ab]. unfold add_errors. simpl.
  by rewrite Z.add_0_r.
Qed.

Lemma add_errors_add n m t : add_errors n (add_errors m t) = add_errors (m + n) t.
Proof. unfold add_errors. simpl. by rewrite Z.add_assoc. Qed.

Lemma rollback_same d : rollback d d = d.
Proof. by destruct d. Qed.

Lemma draw_same_tables q d : same_tables d (draw q d).
Proof. by destruct q. Qed.

Lemma resolve_child_frame pid name age gender s c s' :
  Incremental.resolve_child pid name age gender s = (Returns c, s') →
  frame (stats s) (stats s').
Proof.
  rewrite resolve_child_eq. destruct (select_child _ _ _ _); by intros [= _ <-].
Qed.

Lemma record_attendance_frame cid service d8 s s' :
  Incremental.record_attendance cid service d8 s = (Returns tt, s') →
  frame (stats s) (stats s').
Proof.
  rewrite record_attendance_eq. destruct (decide _); by intros [= <-].
Qed.

Lemma child_slot_frame row pid d8 n s s' :
  Incremental.child_slot row pid d8 n s = (Returns tt, s') →
  frame (stats s) (stats s').
Proof.
  unfold Incremental.child_slot. destruct (String.eqb _ _); [by intros [= <-]|].
  unfold Incremental.bind.
  destruct (Incremental.resolve_child _ _ _ _ s) as [[c|e] s1] eqn:E1; [|done].
  intros E2. etrans; [by eapply resolve_child_frame | by eapply record_attendance_frame].
Qed.

Section Run.
Variable database : store → statement → verdict.
Variable to_datetime_date : cell → option stamp.
Variable today : date.

#[local] Abbreviation resolve_parent := (resolve_parent database).
#[local] Abbreviation resolve_child := (resolve_child database).
#[local] Abbreviation record_attendance := (record_attendance database).
#[local] Abbreviation child_slot := (child_slot database).
#[local] Abbreviation attendance_date := (attendance_date to_datetime_date today).
#[local] Abbreviation row_body := (row_body database to_datetime_date today).
#[local] Abbreviation process_row := (process_row database to_datetime_date today).
#[local] Abbreviation process_rows := (process_rows database to_datetime_date today).

(** *** In an aborted transaction *)

Lemma execute_aborted {A} q (run : store → A * store) t :
  aborted t = true → execute database q run t = (Raised (InFailedSqlTransaction q), t).
Proof. intros H. unfold execute. by rewrite H. Qed.

Lemma process_row_aborted t row :
  aborted t = true → process_row t row = add_errors 1 t.
Proof.
  intros H. unfold Transaction.process_row, Transaction.row_body.
  destruct (missing_name_or_phone row); [done|].
  unfold bind at 1.
  destruct (attendance_date row) as [d8|]; [|done].
  unfold ret, bind at 1, Transaction.resolve_parent, bind at 1.
  by rewrite execute_aborted.
Qed.

Lemma process_rows_aborted df t :
  aborted t = true → process_rows df t = add_errors (Z.of_nat (length df)) t.
Proof.
  revert t. induction df as [|row df IH]; intros t H.
  - simpl. by rewrite add_errors_0.
  - change (process_rows (row :: df) t) with (process_rows df (process_row t row)).
    cbn [length]. rewrite process_row_aborted by done. rewrite IH by done.
    rewrite add_errors_add. f_equal. lia.
Qed.

Lemma aborted_stays df t : aborted t = true → aborted (process_rows df t) = true.
Proof. intros H. by rewrite process_rows_aborted. Qed.

Lemma process_rows_app df1 df2 t :
  process_rows (df1 ++ df2) t = process_rows df2 (process_rows df1 t).
Proof. unfold Transaction.process_rows. by rewrite foldl_app. Qed.

Lemma accepted_so_far df1 df2 t :
  aborted (process_rows (df1 ++ df2) t) = false → aborted (process_rows df1 t) = false.
Proof.
  rewrite process_rows_app. intros H.
  destruct (aborted (process_rows df1 t)) eqn:E; [|done].
  by rewrite aborted_stays in H.
Qed.

(** *** Statement by statement against [Incremental] *)

Lemma execute_open {A} q (run : store → A * store) t :
  aborted t = false →
  execute database q run t =
  match database (db (cur t)) q with
  | Accepted =>
      (Returned (run (db (cur t))).1, Txn (State (run (db (cur t))).2 (stats (cur t))) false)
  | Rejected drawn => rejected q drawn t
  end.
Proof.
  intros H. unfold execute. rewrite H.
  destruct (database _ _); [|done]. by destruct (run _).
Qed.

Lemma resolve_parent_sim name phone gender t :
  aborted t = false →
  match resolve_parent name phone gender t with
  | (Returned pid, t') =>
      aborted t' = false
      ∧ Incremental.resolve_parent name phone gender (cur t) = (Returns pid, cur t')
  | (Raised e, t') => aborted t' = true ∧ stats (cur t') = stats (cur t)
  end.
Proof.
  intros H. rewrite resolve_parent_eq.
  unfold Transaction.resolve_parent, bind at 1. rewrite execute_open by done.
  destruct (database _ (SelectParent _)); [|done]. cbn [fst snd].
  destruct (select_parent phone (db (cur t))); [done|].
  unfold bind at 1. rewrite execute_open by done. cbn [cur db stats].
  by destruct (database _ (InsertParent _ _ _)).
Qed.

Lemma resolve_child_sim pid name age gender t :
  aborted t = false →
  match resolve_child pid name age gender t with
  | (Returned cid, t') =>
      aborted t' = false
      ∧ Incremental.resolve_child pid name age gender (cur t) = (Returns cid, cur t')
  | (Raised e, t') => aborted t' = true ∧ stats (cur t') = stats (cur t)
  end.
Proof.
  intros H. rewrite resolve_child_eq.
  unfold Transaction.resolve_child, bind at 1. rewrite execute_open by done.
  destruct (database _ (SelectChild _ _ _)); [|done]. cbn [fst snd].
  destruct (select_child pid name age (db (cur t))); [done|].
  unfold bind at 1. rewrite execute_open by done. cbn [cur db stats].
  by destruct (database _ (InsertChild _ _ _ _)).
Qed.

Lemma record_attendance_sim cid service d8 t :
  aborted t = false →
  match record_attendance cid service d8 t with
  | (Returned _, t') =>
      aborted t' = false
      ∧ ∃ d, d8 = Day d
             ∧ Incremental.record_attendance cid service d (cur t) = (Returns tt, cur t')
  | (Raised e, t') => aborted t' = true ∧ stats (cur t') = stats (cur t)
  end.
Proof.
  intros H. unfold Transaction.record_attendance, bind, execute_insert_attendance.
  destruct d8 as [|d]; [by rewrite H|].
  rewrite execute_open by done.
  destruct (database _ _); [|done].
  unfold insert_attendance.
  destruct (decide _) as [Hin|Hnin]; cbn [fst snd]; simpl;
    (split; [done|]); exists d; (split; [done|]); rewrite record_attendance_eq.
  - rewrite decide_True by done. by destruct t as [[] ?].
  - rewrite decide_False by done. unfold insert_attendance.
    by rewrite decide_False by done.
Qed.

Lemma child_slot_sim fallback row pid d8 n t :
  aborted t = false →
  match child_slot row pid d8 n t with
  | (Returned _, t') =>
      aborted t' = false
      ∧ Incremental.child_slot row pid (as_date fallback d8) n (cur t) = (Returns tt, cur t')
  | (Raised e, t') => aborted t' = true ∧ frame (stats (cur t)) (stats (cur t'))
  end.
Proof.
  intros H. unfold Transaction.child_slot, Incremental.child_slot.
  destruct (String.eqb _ _); [done|].
  unfold bind, Incremental.bind.
  pose proof (resolve_child_sim pid (child_name row n) (child_age row n)
                (child_gender row n) t H) as H1.
  destruct (resolve_child _ _ _ _ t) as [[cid|e] t1]; [|by destruct H1 as [? ->]].
  destruct H1 as [H1 E1]. rewrite E1.
  pose proof (record_attendance_sim cid (service_name row) d8 t1 H1) as H2.
  destruct (record_attendance _ _ _ t1) as [[[]|e] t2].
  - destruct H2 as (H2 & d & -> & E2). done.
  - destruct H2 as [H2 E2]. split; [done|]. rewrite E2. by eapply resolve_child_frame.
Qed.

Lemma slots_sim fallback row pid d8 (l : list Z) t :
  aborted t = false →
  match for_each l (child_slot row pid d8) t with
  | (Returned _, t') =>
      aborted t' = false
      ∧ Incremental.for_each l (Incremental.child_slot row pid (as_date fallback d8)) (cur t)
        = (Returns tt, cur t')
  | (Raised e, t') => aborted t' = true ∧ frame (stats (cur t)) (stats (cur t'))
  end.
Proof.
  revert t. induction l as [|n l IH]; intros t H; [done|].
  cbn [for_each Incremental.for_each]. unfold bind, Incremental.bind.
  pose proof (child_slot_sim fallback row pid d8 n t H) as H1.
  destruct (child_slot row pid d8 n t) as [[[]|e] t1]; [|done].
  destruct H1 as [H1 E1]. rewrite E1.
  pose proof (IH t1 H1) as H2.
  destruct (for_each l _ t1) as [[[]|e] t2]; [done|].
  destruct H2 as [H2 F2]. split; [done|].
  etrans; [by eapply child_slot_frame | done].
Qed.

Lemma attendance_date_day_of fallback row :
  Incremental.attendance_date (day_of fallback to_datetime_date) today row
  = as_date fallback <$> attendance_date row.
Proof.
  unfold Incremental.attendance_date, Transaction.attendance_date, day_of.
  by destruct (truthy _).
Qed.

Lemma process_row_sim fallback t row :
  aborted t = false →
  (aborted (process_row t row) = false
   ∧ cur (process_row t row)
     = Incremental.process_row (day_of fallback to_datetime_date) today (cur t) row)
  ∨ (struck t (process_row t row)
     ∧ reaches_statements to_datetime_date today row = true).
Proof.
  intros H. unfold Transaction.process_row, Incremental.process_row, reaches_statements.
  destruct (missing_name_or_phone row) eqn:Hm.
  { left. rewrite row_body_rejected by done.
    unfold Transaction.row_body. rewrite Hm. done. }
  pose proof (attendance_date_day_of fallback row) as Hd.
  unfold Transaction.row_body. rewrite Hm.
  destruct (attendance_date row) as [d8|] eqn:Hs.
  2:{ left. rewrite row_body_raises by done. done. }
  rewrite (row_body_accepted _ _ row (as_date fallback d8)) by done.
  unfold bind at 1, ret. unfold bind, Incremental.bind.
  pose proof (resolve_parent_sim (parent_name row) (parent_phone row)
                (parent_gender row) t H) as H1.
  destruct (resolve_parent _ _ _ t) as [[pid|e] t1].
  2:{ right. destruct H1 as [H1 E1]. split; [|done].
      split; cbn [cur stats aborted]; rewrite ?E1; simpl; try done. lia. }
  destruct H1 as [H1 E1]. rewrite E1.
  pose proof (slots_sim fallback row pid d8 [1; 2; 3] t1 H1) as H2.
  destruct (for_each _ _ t1) as [[[]|e] t2].
  - left. destruct H2 as [H2 E2]. by rewrite E2.
  - right. destruct H2 as [H2 (F1 & F2 & F3 & F4)]. split; [|done].
    rewrite resolve_parent_eq in E1.
    split; cbn [cur stats aborted]; simpl; rewrite ?F1, ?F2, ?F3, ?F4; [done | | |];
      destruct (select_parent _ _); injection E1 as _ <-; simpl; try done; lia.
Qed.

(** A run in which no statement is rejected is a run of [Incremental]. *)
Lemma process_rows_accepted fallback df t :
  aborted (process_rows df t) = false →
  aborted t = false
  ∧ cur (process_rows df t)
    = Incremental.process_rows (day_of fallback to_datetime_date) today df (cur t).
Proof.
  revert t. induction df as [|row df IH]; intros t H; [done|].
  change (process_rows (row :: df) t) with (process_rows df (process_row t row)) in *.
  change (Incremental.process_rows (day_of fallback to_datetime_date) today (row :: df)
            (cur t))
    with (Incremental.process_rows (day_of fallback to_datetime_date) today df
            (Incremental.process_row (day_of fallback to_datetime_date) today (cur t) row)).
  apply IH in H as [H E].
  destruct (aborted t) eqn:Ht.
  { rewrite process_row_aborted in H by done. simpl in H. congruence. }
  split; [done|]. rewrite E.
  destruct (process_row_sim fallback t row Ht) as [[_ ->] | [[] _]]; [done | congruence].
Qed.

(** The first submission that is struck, and what follows it. *)
Lemma first_rejection df t :
  aborted t = false → aborted (process_rows df t) = true →
  ∃ pre row post,
    df = pre ++ row :: post
    ∧ aborted (process_rows pre t) = false
    ∧ struck (process_rows pre t) (process_row (process_rows pre t) row)
    ∧ process_rows df t
      = add_errors (Z.of_nat (length post)) (process_row (process_rows pre t) row).
Proof.
  revert t. induction df as [|row df IH]; intros t H Hab; [simpl in Hab; congruence|].
  change (process_rows (row :: df) t) with (process_rows df (process_row t row)) in *.
  destruct (aborted (process_row t row)) eqn:Hrow.
  - exists [], row, df. split_and!; [done | done | |].
    + destruct (process_row_sim today t row H) as [[? _] | [? _]]; [congruence | done].
    + by apply process_rows_aborted.
  - destruct (IH _ Hrow Hab) as (pre & r & post & -> & Hpre & Hst & E).
    exists (row :: pre), r, post. done.
Qed.

(** *** Submissions that are in the store already *)

Lemma resolve_parent_found name phone gender t p :
  select_parent phone (db (cur t)) = Some p →
  db (cur (resolve_parent name phone gender t).2) = db (cur t)
  ∧ same_news (stats (cur t)) (stats (cur (resolve_parent name phone gender t).2))
  ∧ ∀ pid, (resolve_parent name phone gender t).1 = Returned pid → pid = p_parent_id p.
Proof.
  intros Hp. unfold Transaction.resolve_parent, bind, execute.
  destruct (aborted t); [done|].
  destruct (database _ _) as [|[]]; [|done..].
  rewrite Hp. simpl. split_and!; [done | done |]. by intros pid [= <-].
Qed.

Lemma resolve_child_found pid name age gender t c :
  select_child pid name age (db (cur t)) = Some c →
  db (cur (resolve_child pid name age gender t).2) = db (cur t)
  ∧ same_news (stats (cur t)) (stats (cur (resolve_child pid name age gender t).2))
  ∧ ∀ cid, (resolve_child pid name age gender t).1 = Returned cid → cid = c_child_id c.
Proof.
  intros Hc. unfold Transaction.resolve_child, bind, execute.
  destruct (aborted t); [done|].
  destruct (database _ _) as [|[]]; [|done..].
  rewrite Hc. simpl. split_and!; [done | done |]. by intros cid [= <-].
Qed.

Lemma record_attendance_present fallback cid service d8 t :
  (cid, service, as_date fallback d8) ∈ attendance_key <$> attendance (db (cur t)) →
  db (cur (record_attendance cid service d8 t).2) = db (cur t)
  ∧ same_news (stats (cur t)) (stats (cur (record_attendance cid service d8 t).2)).
Proof.
  intros Hk. unfold Transaction.record_attendance, bind, execute_insert_attendance, execute.
  destruct d8 as [|d]; [by destruct (aborted t)|].
  destruct (aborted t); [done|].
  destruct (database _ _) as [|[]]; [|done..].
  unfold insert_attendance. simpl in Hk. rewrite decide_True by done. done.
Qed.

Lemma child_slot_settled fallback row pid d8 n t :
  slot_done row pid (as_date fallback d8) n (db (cur t)) →
  db (cur (child_slot row pid d8 n t).2) = db (cur t)
  ∧ same_news (stats (cur t)) (stats (cur (child_slot row pid d8 n t).2)).
Proof.
  unfold Transaction.child_slot. intros [He | (c & Hc & Hk)].
  { by rewrite He. }
  destruct (String.eqb _ _); [done|]. unfold bind.
  destruct (resolve_child_found pid (child_name row n) (child_age row n)
              (child_gender row n) t c Hc) as (Hdb & Hst & Hid).
  destruct (resolve_child _ _ _ _ t) as [[cid|e] t1]; [|done].
  cbn [fst snd] in *. rewrite (Hid cid eq_refl).
  destruct (record_attendance_present fallback (c_child_id c) (service_name row) d8 t1)
    as [Hdb2 Hst2]; [by rewrite Hdb|].
  destruct (record_attendance _ _ _ t1) as [r t2]. cbn [fst snd] in *.
  destruct r; (split; [congruence | by etrans]).
Qed.

Lemma slots_settled fallback row pid d8 (l : list Z) t :
  (∀ n, n ∈ l → slot_done row pid (as_date fallback d8) n (db (cur t))) →
  db (cur (for_each l (child_slot row pid d8) t).2) = db (cur t)
  ∧ same_news (stats (cur t)) (stats (cur (for_each l (child_slot row pid d8) t).2)).
Proof.
  revert t. induction l as [|n l IH]; intros t Hl; [done|].
  cbn [for_each]. unfold bind.
  destruct (child_slot_settled fallback row pid d8 n t) as [Hdb Hst].
  { apply Hl. by left. }
  destruct (child_slot row pid d8 n t) as [[[]|e] t1]; [|done]. cbn [fst snd] in *.
  destruct (IH t1) as [Hdb2 Hst2].
  { intros m Hm. rewrite Hdb. apply Hl. by right. }
  split; [congruence | by etrans].
Qed.

Lemma process_row_settled fallback t row :
  row_done (Incremental.attendance_date (day_of fallback to_datetime_date) today row) row
    (db (cur t)) →
  db (cur (process_row t row)) = db (cur t)
  ∧ same_news (stats (cur t)) (stats (cur (process_row t row))).
Proof.
  rewrite attendance_date_day_of.
  unfold Transaction.process_row, Transaction.row_body.
  intros Hdone. destruct (missing_name_or_phone row) eqn:Hm; [done|].
  destruct Hdone as [? | [Hn | (d8' & p & Hd & Hp & Hl)]]; [congruence | |].
  { destruct (attendance_date row); [done|]. done. }
  destruct (attendance_date row) as [d8|]; [|done].
  injection Hd as <-.
  unfold bind at 1, ret. unfold bind.
  destruct (resolve_parent_found (parent_name row) (parent_phone row) (parent_gender row)
              t p Hp) as (Hdb & Hst & Hid).
  destruct (resolve_parent _ _ _ t) as [[pid|e] t1]; [|done].
  cbn [fst snd] in *. rewrite (Hid pid eq_refl).
  destruct (slots_settled fallback row (p_parent_id p) d8 [1; 2; 3] t1) as [Hdb2 Hst2].
  { intros n Hn. rewrite Hdb. by apply Hl. }
  destruct (for_each _ _ t1) as [[[]|e] t2]; cbn [fst snd] in *;
    (split; [simpl; congruence | etrans; [exact Hst|]; etrans; [exact Hst2|]; done]).
Qed.

Lemma process_rows_settled fallback df t :
  (∀ row, row ∈ df →
     row_done (Incremental.attendance_date (day_of fallback to_datetime_date) today row)
       row (db (cur t))) →
  db (cur (process_rows df t)) = db (cur t)
  ∧ same_news (stats (cur t)) (stats (cur (process_rows df t))).
Proof.
  revert t. induction df as [|r df IH]; intros t Hall; [done|].
  change (process_rows (r :: df) t) with (process_rows df (process_row t r)).
  destruct (process_row_settled fallback t r) as [Hdb Hst].
  { apply Hall. by left. }
  destruct (IH (process_row t r)) as [Hdb' Hst'].
  { intros row Hrow. rewrite Hdb. apply Hall. by right. }
  split; [congruence | by etrans].
Qed.

(** *** Submissions that stop before their first statement *)




(** *** The commit *)

Lemma process_attendance_accepted fallback df conn :
  statement_rejected database to_datetime_date today df conn = false →
  process_attendance database to_datetime_date today df conn
  = Incremental.process_attendance (day_of fallback to_datetime_date) today df conn.
Proof.
  unfold statement_rejected, Transaction.process_attendance,
    Incremental.process_attendance, commit.
  intros H. rewrite H.
  by destruct (process_rows_accepted fallback df _ H) as [_ ->].
Qed.

Lemma process_attendance_rejected df conn :
  statement_rejected database to_datetime_date today df conn = true →
  same_tables (committed conn)
    (committed (process_attendance database to_datetime_date today df conn).1).
Proof.
  unfold statement_rejected, Transaction.process_attendance, commit.
  intros ->. done.
Qed.

(** *** The statistics do not steer the statements *)

Lemma blind_ret {A} (a : A) : blind (ret a).
Proof. by intros t1 t2 H. Qed.

Lemma blind_raise {A} e : blind (@raise A e).
Proof. by intros t1 t2 H. Qed.

Lemma blind_count f : blind (count f).
Proof. by intros t1 t2 [H1 H2]. Qed.

Lemma blind_rejected {A} q drawn : blind (@rejected A q drawn).
Proof. intros t1 t2 [H1 H2]. unfold rejected, alike. simpl. by rewrite H1. Qed.

Lemma blind_execute {A} q (run : store → A * store) : blind (execute database q run).
Proof.
  intros t1 t2 [H1 H2]. unfold execute, alike. rewrite H1, H2.
  destruct (aborted t2) eqn:E; [simpl; by rewrite E|].
  destruct (database _ _); [by destruct (run _)|].
  unfold rejected. simpl. by rewrite H1.
Qed.

Lemma blind_bind {A B} (m : T A) (k : A → T B) :
  blind m → (∀ a, blind (k a)) → blind (bind m k).
Proof.
  intros Hm Hk t1 t2 H. unfold bind.
  destruct (Hm t1 t2 H) as [Hr Ht].
  destruct (m t1) as [[a|e] t1'], (m t2) as [[a'|e'] t2']; simpl in *; try done.
  - injection Hr as <-. by apply Hk.
  - by injection Hr as <-.
Qed.

Lemma blind_for_each {A} (l : list A) (body : A → T unit) :
  (∀ x, blind (body x)) → blind (for_each l body).
Proof.
  intros H. induction l as [|x l IH]; [apply blind_ret|].
  simpl. apply blind_bind; [done|]. by intros _.
Qed.

Lemma blind_row_body row : blind (row_body row).
Proof.
  unfold Transaction.row_body.
  destruct (missing_name_or_phone row); [apply blind_count|].
  apply blind_bind.
  { destruct (attendance_date row); [apply blind_ret | apply blind_raise]. }
  intros d8. apply blind_bind.
  { apply blind_bind; [apply blind_execute|].
    intros [p|].
    - apply blind_bind; [apply blind_count | intros _; apply blind_ret].
    - apply blind_bind; [apply blind_execute|]. intros pid.
      apply blind_bind; [apply blind_count | intros _; apply blind_ret]. }
  intros pid. apply blind_for_each. intros n.
  unfold Transaction.child_slot. destruct (String.eqb _ _); [apply blind_ret|].
  apply blind_bind.
  { apply blind_bind; [apply blind_execute|].
    intros [c|].
    - apply blind_bind; [apply blind_count | intros _; apply blind_ret].
    - apply blind_bind; [apply blind_execute|]. intros cid.
      apply blind_bind; [apply blind_count | intros _; apply blind_ret]. }
  intros cid. apply blind_bind.
  { unfold execute_insert_attendance. destruct d8 as [|d]; [|apply blind_execute].
    intros t1 t2 [H1 H2]. unfold alike. rewrite H2.
    destruct (aborted t2) eqn:E; [simpl; by rewrite E|].
    unfold rejected. simpl. by rewrite H1. }
  intros rowcount. destruct (0 <? rowcount); [apply blind_count | apply blind_ret].
Qed.

Lemma process_row_alike t1 t2 row :
  alike t1 t2 → alike (process_row t1 row) (process_row t2 row).
Proof.
  intros H. unfold Transaction.process_row.
  destruct (blind_row_body row t1 t2 H) as [Hr Ht].
  destruct (row_body row t1) as [[[]|e] t1'], (row_body row t2) as [[[]|e'] t2'];
    simpl in *; done.
Qed.

Lemma process_rows_alike df t1 t2 :
  alike t1 t2 → alike (process_rows df t1) (process_rows df t2).
Proof.
  revert t1 t2. induction df as [|row df IH]; intros t1 t2 H; [done|].
  change (process_rows (row :: df) t1) with (process_rows df (process_row t1 row)).
  change (process_rows (row :: df) t2) with (process_rows df (process_row t2 row)).
  by apply IH, process_row_alike.
Qed.

(** *** The submissions that reach the statements *)

Lemma accepted_reaches fallback row :
  Ledger.accepted (day_of fallback to_datetime_date) today row
  = reaches_statements to_datetime_date today row.
Proof.
  unfold Ledger.accepted, reaches_statements. rewrite attendance_date_day_of.
  f_equal. apply bool_decide_ext. by rewrite fmap_is_Some.
Qed.

Lemma filter_accepted_reaches fallback (b : bool) (df : list (gmap string cell)) :
  filter (λ r, Ledger.accepted (day_of fallback to_datetime_date) today r = b) df
  = filter (λ r, reaches_statements to_datetime_date today r = b) df.
Proof. apply list_filter_iff. intros r. by rewrite accepted_reaches. Qed.

End Run.
End TransactionFacts.

(** A run of three submissions of one family, the second with an empty
    Timestamp cell: its attendance statement is rejected after the parent
    and the child were found, the third submission fails at its first
    statement, and the commit keeps nothing. *)
Example run_with_an_empty_timestamp_cell :
  let late := <["Timestamp" := VNaN]> Samples.submission in
  let run :=
    Transaction.process_attendance TransactionSamples.accepts_all
      TransactionSamples.iso_stamp Samples.sunday
      [Samples.submission; late; Samples.submission]
      (Incremental.connect Incremental.empty_store) in
  run.2 = Incremental.Stats 3 1 1 1 1 1 2
  ∧ Incremental.parents (Incremental.committed run.1) = []
  ∧ Incremental.children (Incremental.committed run.1) = []
  ∧ Incremental.attendance (Incremental.committed run.1) = [].
Proof. vm_compute. done. Qed.

(** ** The claims *)

Section Claims.
Import Incremental IncrementalFacts BatchFacts Samples.
Import TransactionSamples TransactionFacts.

(** The natural key of a batch attendance record. *)
#[local] Abbreviation batch_key :=
  (λ a, (Batch.attendance_child_id a, Batch.service_name a, Batch.attendance_date a)).

(** Incremental mode keeps the natural key of [attendance] unique: a
    load that starts from a table without duplicate (child_id,
    service_name, attendance_date) triples ends with such a table. *)
Theorem incremental_attendance_key_unique to_datetime_date today df conn :
  NoDup (attendance_key <$> attendance (session conn)) →
  NoDup (attendance_key <$>
           attendance (committed (process_attendance to_datetime_date today df conn).1)).
Proof.
  intros H. unfold process_attendance. simpl.
  apply (process_rows_inv (λ d, NoDup (attendance_key <$> attendance d))); try done.
  intros d cid service d8 Hd. unfold insert_attendance.
  destruct (decide _) as [Hin|Hnin]; [done|]. simpl.
  rewrite fmap_app. apply NoDup_app. split_and!; [done | | apply NoDup_singleton].
  intros k Hk Hk'. simpl in Hk'. apply list_elem_of_singleton in Hk'. by subst.
Qed.

(** C1 (the batch script departs from the claim). A sheet that lists
    the same family twice, the child checked in both times, is exported
    with two attendance records that carry the same (child_id,
    service_name, attendance_date): batch mode appends one record per
    checked-in slot and never deduplicates them. *)
Theorem batch_duplicate_row_two_attendance_records :
  ∃ out,
    Batch.export [("First Service", [family (VInt 1) (VInt 8); family (VInt 1) (VInt 8)])]
    = Batch.Ok out
    ∧ batch_key <$> Batch.attendance_final out
      = [(1, "First Service", "2026-01-26"); (1, "First Service", "2026-01-26")].
Proof. eexists. split; vm_compute; reflexivity. Qed.

(** C2, as stated, fails: a submission without a timestamp is dated by
    the day of the run, so loading it again a week later records its
    attendance a second time, although no statement of the first run was
    rejected. *)
Lemma second_run_another_day_records_again :
  let df := [delete "Timestamp" submission] in
  let first :=
    Transaction.process_attendance accepts_all iso_stamp sunday df (connect empty_store) in
  let second := Transaction.process_attendance accepts_all iso_stamp next_sunday df first.1 in
  Transaction.statement_rejected accepts_all iso_stamp sunday df (connect empty_store) = false
  ∧ attendance_recorded second.2 = 1
  ∧ attendance (committed first.1)
    = [AttendanceRow 1 "Second Service" sunday true]
  ∧ attendance (committed second.1)
    = [AttendanceRow 1 "Second Service" sunday true;
       AttendanceRow 1 "Second Service" next_sunday true]
  ∧ second.1 ≠ first.1.
Proof. vm_compute. split_and!; [done | done | done | done | discriminate]. Qed.

(** It fails as well when a statement of the first run is rejected: an
    empty Timestamp cell is truthy and is read as [NaT], the attendance
    statement is rejected after the parent and the child were created,
    and the commit keeps none of it. The second run finds the tables as
    they were, creates the parent and the child again and reports
    them. *)
Lemma second_run_after_a_rejected_statement_repeats :
  let df := [<["Timestamp" := VNaN]> submission] in
  let first :=
    Transaction.process_attendance accepts_all iso_stamp sunday df (connect empty_store) in
  let second := Transaction.process_attendance accepts_all iso_stamp sunday df first.1 in
  Transaction.statement_rejected accepts_all iso_stamp sunday df (connect empty_store) = true
  ∧ (new_parents first.2, new_children first.2, errors first.2) = (1, 1, 1)
  ∧ parents (committed first.1) = [] ∧ children (committed first.1) = []
  ∧ (new_parents second.2, new_children second.2, errors second.2) = (1, 1, 1)
  ∧ parents (committed second.1) = [] ∧ children (committed second.1) = [].
Proof. vm_compute. done. Qed.

(** C2 (amended). When no statement of the first run was rejected, and
    both runs date every submission alike, because they happen on the
    same day or because every submission carries a timestamp, the second
    run over the same submissions leaves the store exactly as the first
    run left it, and its statistics report no new parent, no new child
    and no attendance recorded; this holds whatever the database answers
    during the second run. *)
Theorem second_run_changes_nothing
    database1 database2 to_datetime_date today1 today2 df conn :
  (today1 = today2
   ∨ ∀ row, row ∈ df → truthy (get_or row "Timestamp" (VStr "")) = true) →
  Transaction.statement_rejected database1 to_datetime_date today1 df conn = false →
  let first := Transaction.process_attendance database1 to_datetime_date today1 df conn in
  let second := Transaction.process_attendance database2 to_datetime_date today2 df first.1 in
  second.1 = first.1
  ∧ new_parents second.2 = 0
  ∧ new_children second.2 = 0
  ∧ attendance_recorded second.2 = 0.
Proof.
  intros Hsame Hok. cbv zeta.
  rewrite (process_attendance_accepted database1 to_datetime_date today1 today1 df conn Hok).
  unfold Incremental.process_attendance. cbn [fst].
  set (f := Transaction.day_of today1 to_datetime_date).
  set (s1 := Incremental.process_rows f today1 df (Incremental.start df conn)).
  unfold Transaction.process_attendance, Transaction.commit. cbn [fst snd committed].
  destruct (process_rows_settled database2 to_datetime_date today2 today1 df
              (Transaction.start df {| committed := db s1; session := db s1 |}))
    as [Hdb (Hp & Hc & Ha)].
  { intros row Hrow. cbn [Transaction.start Transaction.cur Incremental.start db session].
    fold f. rewrite <- (attendance_date_today f today1 today2).
    - by apply process_rows_all_done.
    - destruct Hsame as [->|H]; [by left | right; by apply H]. }
  cbn [Transaction.start Transaction.cur Incremental.start db session stats] in *.
  rewrite Hdb. split; [|done].
  destruct (Transaction.aborted _); [by rewrite rollback_same | done].
Qed.

Lemma second_run_changes_nothing_witness :
  let first :=
    Transaction.process_attendance accepts_all iso_stamp sunday [submission; submission]
      (connect empty_store) in
  let second :=
    Transaction.process_attendance short_phones iso_stamp next_sunday
      [submission; submission] first.1 in
  second.1 = first.1
  ∧ new_parents second.2 = 0
  ∧ new_children second.2 = 0
  ∧ attendance_recorded second.2 = 0.
Proof.
  apply (second_run_changes_nothing accepts_all short_phones iso_stamp sunday next_sunday
           [submission; submission] (connect empty_store)).
  - right. intros row Hrow.
    repeat (apply elem_of_cons in Hrow as [-> | Hrow]; [reflexivity|]).
    by apply elem_of_nil in Hrow.
  - vm_compute. reflexivity.
Defined.




(** C4, as stated, fails: nothing is committed row by row. The second
    submission below has an empty Timestamp cell; its attendance
    statement is rejected, the handler does not roll back, and the one
    commit at the end of the run keeps nothing: the parent, the child
    and the attendance of the first submission, which had been processed
    in full, are lost with it. Only the sequences keep their advance. *)
Lemma rejected_statement_loses_the_rows_before :
  let late := <["Timestamp" := VNaN]> (<["Your Phone" := VStr "0802"]> submission) in
  let run :=
    Transaction.process_attendance accepts_all iso_stamp sunday [submission; late]
      (connect empty_store) in
  (new_parents run.2, new_children run.2, attendance_recorded run.2, errors run.2)
  = (2, 2, 1, 1)
  ∧ parents (committed run.1) = []
  ∧ children (committed run.1) = []
  ∧ attendance (committed run.1) = []
  ∧ (parents_seq (committed run.1), children_seq (committed run.1)) = (3, 3).
Proof. vm_compute. done. Qed.

(** C4 (amended). Incremental mode commits once per run, after the last
    submission, and no handler rolls back. When a statement is rejected
    while some submission is processed, the transaction stays aborted
    until the end of the run and the commit keeps none of the rows of the
    run, those of the submissions before the failing one included: the
    committed tables are the ones from before the run. When no statement
    is rejected, the run is the run of [Incremental]: the commit
    publishes the work of all the submissions together. *)
Theorem commit_once_per_run database to_datetime_date today df conn :
  let run := Transaction.process_attendance database to_datetime_date today df conn in
  (∀ pre row post,
     df = pre ++ row :: post →
     Transaction.aborted
       (Transaction.process_rows database to_datetime_date today (pre ++ [row])
          (Transaction.start df conn)) = true →
     Transaction.same_tables (committed conn) (committed run.1)
     ∧ session run.1 = committed run.1)
  ∧ (Transaction.statement_rejected database to_datetime_date today df conn = false →
     run = Incremental.process_attendance (Transaction.day_of today to_datetime_date)
             today df conn
     ∧ extends (session conn) (committed run.1)
     ∧ ∀ row, row ∈ df →
              row_done
                (Incremental.attendance_date (Transaction.day_of today to_datetime_date)
                   today row)
                row (committed run.1)).
Proof.
  cbv zeta. split.
  - intros pre row post -> Hab. split; [|done].
    apply process_attendance_rejected. unfold Transaction.statement_rejected.
    replace (pre ++ row :: post) with ((pre ++ [row]) ++ post) at 1
      by (by rewrite <- app_assoc).
    unfold Transaction.process_rows. rewrite foldl_app.
    by apply aborted_stays.
  - intros Hok.
    rewrite (process_attendance_accepted database to_datetime_date today today df conn Hok).
    unfold Incremental.process_attendance. cbn [fst committed].
    split_and!; [done | |].
    + apply (process_rows_extends _ _ df (Incremental.start df conn)).
    + intros row Hrow. by apply process_rows_all_done.
Qed.

Lemma commit_once_per_run_witness :
  let other := <["Your Phone" := VStr "0802"]> submission in
  let df := [other; submission; other] in
  let run := Transaction.process_attendance short_phones iso_stamp sunday df
               (connect empty_store) in
  let all := Transaction.process_attendance accepts_all iso_stamp sunday df
               (connect empty_store) in
  (Transaction.same_tables empty_store (committed run.1)
   ∧ session run.1 = committed run.1)
  ∧ row_done
      (Incremental.attendance_date (Transaction.day_of sunday iso_stamp) sunday submission)
      submission (committed all.1).
Proof.
  intros other df run all.
  destruct (commit_once_per_run short_phones iso_stamp sunday df (connect empty_store))
    as [Hlost _].
  destruct (commit_once_per_run accepts_all iso_stamp sunday df (connect empty_store))
    as [_ Hkept].
  split.
  - apply (Hlost [other] submission [other]); vm_compute; reflexivity.
  - destruct Hkept as (_ & _ & Hdone); [vm_compute; reflexivity|].
    apply Hdone. right. by left.
Defined.




(** C6 (the pipeline departs from the claim). A submission whose phone
    cell is empty in the sheet reaches the pipeline as a missing value;
    [str] turns it into the text nan, which passes the test for a
    missing phone. The submission is loaded: a parent with phone nan, the
    child and the attendance are created, and no error is counted. *)
Theorem empty_phone_cell_is_not_rejected :
  let row := <["Your Phone" := VNaN]> submission in
  let run := process_attendance iso_date sunday [row] (connect empty_store) in
  parents (committed run.1) = [ParentRow 1 "Ada Obi" "nan" "Female"]
  ∧ children (committed run.1) = [ChildRow 1 1 "Jane Doe" 8 "Female"]
  ∧ attendance (committed run.1) = [AttendanceRow 1 "Second Service" sunday true]
  ∧ errors run.2 = 0.
Proof. vm_compute. done. Qed.

(** A phone or a name that is absent from the frame, or that is blank
    text, does get the submission rejected: nothing is written, one error
    is counted, and the load goes on. *)
Theorem absent_or_blank_key_is_rejected to_datetime_date today s row post label x :
  label ∈ ["Your Phone"; "Your Name"] →
  row !! label = None ∨ (row !! label = Some (VStr x) ∧ strip x = "") →
  process_rows to_datetime_date today (row :: post) s
  = process_rows to_datetime_date today post (State (db s) (incr_errors (stats s))).
Proof.
  intros Hlabel Hrow. simpl. f_equal. apply rejected_row.
  assert (strip (Py.str (get_or row label (VStr ""))) = "") as Hblank.
  { destruct Hrow as [H | [H Hx]];
      [by apply absent_is_missing | by eapply blank_is_missing]. }
  apply elem_of_cons in Hlabel as [-> | Hlabel]; [by left|].
  apply list_elem_of_singleton in Hlabel as ->. by right.
Qed.

(** C7 (the pipeline departs from the claim). In incremental mode a
    child slot whose name cell is empty in the sheet is not skipped: the
    missing value prints as nan, so a child named nan, aged 0, is created
    under the parent and its attendance is recorded. *)
Theorem empty_child_name_cell_becomes_a_child :
  let row := <["Child 2 Name" := VNaN]> submission in
  let run := process_attendance iso_date sunday [row] (connect empty_store) in
  children (committed run.1)
  = [ChildRow 1 1 "Jane Doe" 8 "Female"; ChildRow 2 1 "nan" 0 "Male"]
  ∧ attendance (committed run.1)
    = [AttendanceRow 1 "Second Service" sunday true;
       AttendanceRow 2 "Second Service" sunday true]
  ∧ new_children run.2 = 2
  ∧ errors run.2 = 0.
Proof. vm_compute. done. Qed.

(** The slots that are skipped: in batch mode a name that is absent,
    missing or blank; in incremental mode a name that is absent or
    blank. *)
Theorem skipped_slots :
  (∀ pid row n x,
     Batch.cells row !! Batch.child_name_col n = None
     ∨ Batch.cells row !! Batch.child_name_col n = Some VNaN
     ∨ (Batch.cells row !! Batch.child_name_col n = Some (VStr x) ∧ strip x = "") →
     Batch.child_of_slot pid row n = Batch.Ok []
     ∧ ∀ lookup sheet_name,
         Batch.attendance_of_slot lookup sheet_name pid row n = Batch.Ok [])
  ∧ (∀ row pid d8 n x s,
       row !! child_name_col n = None
       ∨ (row !! child_name_col n = Some (VStr x) ∧ strip x = "") →
       child_slot row pid d8 n s = (Returns tt, s)).
Proof.
  split.
  - intros pid row n x H.
    assert (Batch.slot_is_empty row n = true) as He.
    { unfold Batch.slot_is_empty.
      destruct H as [-> | [-> | [-> Hx]]]; [done | done |]. simpl. by rewrite Hx. }
    unfold Batch.child_of_slot, Batch.attendance_of_slot. by rewrite He.
  - intros row pid d8 n x s H. unfold child_slot.
    assert (child_name row n = "") as ->; [|done].
    unfold child_name, get_or. destruct H as [-> | [-> Hx]]; [done | by simpl].
Qed.

(** C8. Batch mode: two named slots of rows with the same [ID], whose
    names agree once trimmed and upper-cased, get the same parent_id,
    and get the same child_id exactly when their ages are equal.
    Incremental mode: once a phone has been resolved to a parent_id,
    resolving the same phone at any later point of the load returns that
    parent_id; and once a child has been resolved under a parent,
    resolving under the same parent a name that agrees with it once
    upper-cased returns the same child_id exactly when the ages are
    equal. *)
Theorem key_stability :
  (∀ sheets out sheet1 row1 n1 sheet2 row2 n2 a1 a2,
     Batch.export sheets = Batch.Ok out →
     sheet1 ∈ sheets → row1 ∈ sheet1.2 → n1 ∈ [1; 2; 3] →
     sheet2 ∈ sheets → row2 ∈ sheet2.2 → n2 ∈ [1; 2; 3] →
     Batch.ID row1 = Batch.ID row2 →
     Batch.slot_is_empty row1 n1 = false → Batch.slot_is_empty row2 n2 = false →
     upper (Batch.slot_name row1 n1) = upper (Batch.slot_name row2 n2) →
     Batch.child_age row1 n1 = Batch.Ok a1 → Batch.child_age row2 n2 = Batch.Ok a2 →
     ∃ pid c1 c2,
       Batch.parent_mapping sheets !! Batch.ID row1 = Some pid
       ∧ Batch.parent_mapping sheets !! Batch.ID row2 = Some pid
       ∧ Batch.slot_child_id (Batch.child_lookup (Batch.children_final out)) pid row1 n1
         = Batch.Ok (Some c1)
       ∧ Batch.slot_child_id (Batch.child_lookup (Batch.children_final out)) pid row2 n2
         = Batch.Ok (Some c2)
       ∧ (c1 = c2 ↔ a1 = a2))
  ∧ (∀ to_datetime_date today row1 row2 s pid s1 s2,
       parent_phone row1 = parent_phone row2 →
       resolve_parent (parent_name row1) (parent_phone row1) (parent_gender row1) s
       = (Returns pid, s1) →
       later to_datetime_date today s1 s2 →
       ∃ s3, resolve_parent (parent_name row2) (parent_phone row2) (parent_gender row2) s2
             = (Returns pid, s3))
  ∧ (∀ to_datetime_date today row1 n1 row2 n2 pid s c1 s1 s2 c2 s3,
       well_formed (db s) →
       upper (child_name row1 n1) = upper (child_name row2 n2) →
       resolve_child pid (child_name row1 n1) (child_age row1 n1) (child_gender row1 n1) s
       = (Returns c1, s1) →
       later to_datetime_date today s1 s2 →
       resolve_child pid (child_name row2 n2) (child_age row2 n2) (child_gender row2 n2) s2
       = (Returns c2, s3) →
       (c1 = c2 ↔ child_age row1 n1 = child_age row2 n2)).
Proof.
  split_and!.
  - apply batch_child_ids.
  - intros tdd today row1 row2 s pid s1 s2 Hphone E Hl. rewrite <- Hphone.
    by eapply parent_key_stable.
  - intros tdd today row1 n1 row2 n2 pid s c1 s1 s2 c2 s3 Hwf Hup E1 Hl E2. split.
    + intros <-. destruct (decide (child_age row1 n1 = child_age row2 n2)) as [|Hne]; [done|].
      by destruct (child_age_distinguishes _ _ _ _ _ _ _ _ _ _ _ _ _ _ _ Hwf Hne E1 Hl E2).
    + intros Ha. rewrite <- Ha in E2.
      destruct (child_key_stable _ _ _ _ _ _ _ (child_gender row2 n2) _ _ _ _ Hup E1 Hl)
        as (s3' & E2').
      congruence.
Qed.

Lemma key_stability_witness :
  let row1 := family (VInt 1) (VInt 8) in
  let row2 :=
    Batch.SheetRow 7
      (<["Full Name of Child 1" := VStr "  jane DOE "]>
         (Batch.cells (family (VInt 0) (VStr "8")))) in
  let sheets := [("First Service", [row1]); ("Second Service", [row2])] in
  let later_row := <["Your Name" := VStr "A. Obi"]>
                     (<["Child 1 Name" := VStr "JANE DOE"]> submission) in
  let s := State empty_store (init_stats 2) in
  let s1 := (resolve_parent "Ada Obi" "+234 801 234 5678" "Female" s).2 in
  let t1 := (resolve_child 1 "Jane Doe" 8 "Female" s1).2 in
  let t2 := process_rows iso_date sunday [submission] t1 in
  (∃ out, Batch.export sheets = Batch.Ok out
          ∧ ∃ pid c1 c2,
              Batch.parent_mapping sheets !! Batch.ID row1 = Some pid
              ∧ Batch.parent_mapping sheets !! Batch.ID row2 = Some pid
              ∧ Batch.slot_child_id (Batch.child_lookup (Batch.children_final out))
                  pid row1 1 = Batch.Ok (Some c1)
              ∧ Batch.slot_child_id (Batch.child_lookup (Batch.children_final out))
                  pid row2 1 = Batch.Ok (Some c2)
              ∧ (c1 = c2 ↔ 8 = 8))
  ∧ (∃ s3, resolve_parent (parent_name later_row) (parent_phone later_row)
             (parent_gender later_row) (process_rows iso_date sunday [submission] s1)
           = (Returns 1, s3))
  ∧ (1 = 1 ↔ child_age submission 1 = child_age later_row 1).
Proof.
  intros row1 row2 sheets later_row s s1 t1 t2.
  destruct key_stability as (Hbatch & Hparent & Hchild).
  split_and!.
  - eexists. split; [vm_compute; reflexivity|].
    eapply (Hbatch sheets _ ("First Service", [row1]) row1 1
              ("Second Service", [row2]) row2 1 8 8).
    + vm_compute. reflexivity.
    + by left.
    + by left.
    + by left.
    + right. by left.
    + by left.
    + by left.
    + reflexivity.
    + vm_compute. reflexivity.
    + vm_compute. reflexivity.
    + vm_compute. reflexivity.
    + vm_compute. reflexivity.
    + vm_compute. reflexivity.
  - apply (Hparent iso_date sunday submission later_row s 1 s1).
    + vm_compute. reflexivity.
    + vm_compute. reflexivity.
    + apply later_rows.
  - apply (Hchild iso_date sunday submission 1 later_row 1 1 s1 1 t1 t2 1
             (resolve_child 1 "JANE DOE" 8 "Female" t2).2).
    + vm_compute. split; [constructor | | constructor].
      intros c Hc. by apply elem_of_nil in Hc.
    + vm_compute. reflexivity.
    + vm_compute. reflexivity.
    + apply later_rows.
    + vm_compute. reflexivity.
Defined.

(** C9. Batch mode: each exported parent carries the attributes, as
    cleaned by lines 42-44, of the first row of the workbook with its
    [ID], and each exported child the attributes of the first slot of
    the workbook with its key. Incremental mode: the tables only grow at
    the end, so no stored row is ever rewritten; a parent created for a
    phone that was unknown carries the name, phone and gender of the
    submission that created it, and stays what is found for that phone
    after any further submissions; likewise a child created for a slot
    stays what is found for its parent, name and age. *)
Theorem first_sighting_wins :
  (∀ sheets p,
     p ∈ Batch.unique_parents sheets →
     ∃ i row,
       head (filter (λ r, Batch.ID r = Batch.original_id p) (Batch.combined_df sheets))
       = Some row
       ∧ p = Batch.with_parent_id i (Batch.parent_of_row row))
  ∧ (∀ sheets out c,
       Batch.export sheets = Batch.Ok out →
       c ∈ Batch.children_final out →
       ∃ all i c0,
         Batch.all_children sheets = Batch.Ok all
         ∧ head (filter (λ x, Batch.dedupe_key x = Batch.dedupe_key c) all) = Some c0
         ∧ c = Batch.with_child_id i c0)
  ∧ (∀ to_datetime_date today s s',
       later to_datetime_date today s s' → extends (db s) (db s'))
  ∧ (∀ to_datetime_date today row df s d8,
       missing_name_or_phone row = false →
       attendance_date to_datetime_date today row = Some d8 →
       select_parent (parent_phone row) (db s) = None →
       select_parent (parent_phone row)
         (db (process_rows to_datetime_date today (row :: df) s))
       = Some (ParentRow (parents_seq (db s)) (parent_name row) (parent_phone row)
                 (parent_gender row)))
  ∧ (∀ to_datetime_date today row pid d8 n s s1 s2,
       child_name row n ≠ "" →
       select_child pid (child_name row n) (child_age row n) (db s) = None →
       child_slot row pid d8 n s = (Returns tt, s1) →
       later to_datetime_date today s1 s2 →
       select_child pid (child_name row n) (child_age row n) (db s2)
       = Some (ChildRow (children_seq (db s)) pid (child_name row n) (child_age row n)
                 (child_gender row n))).
Proof.
  split_and!.
  - apply parent_first_sighting.
  - intros sheets out c (all & records & Hall & _ & ->)%export_Ok Hc. simpl in Hc.
    destruct (child_first_sighting all c Hc) as (i & c0 & H0 & ->).
    by exists all, i, c0.
  - apply later_extends.
  - apply first_sighting_parent.
  - apply first_sighting_child.
Qed.

Lemma first_sighting_wins_witness :
  let row1 := family (VInt 1) (VInt 8) in
  let row2 :=
    Batch.SheetRow 7
      (<["Full Name" := VStr "A. Obi"]>
         (<["Gender of Child 1" := VStr "Girl"]> (Batch.cells (family (VInt 1) (VInt 8))))) in
  let sheets := [("First Service", [row1]); ("Second Service", [row2])] in
  let p := Batch.with_parent_id 0 (Batch.parent_of_row row1) in
  let again := <["Your Name" := VStr "A. Obi"]> submission in
  let s := State empty_store (init_stats 2) in
  let s0 := (resolve_parent "Ada Obi" "+234 801 234 5678" "Female" s).2 in
  let s1 := (child_slot submission 1 sunday 1 s0).2 in
  let s2 := process_rows iso_date sunday [again] s1 in
  (∃ i row,
     head (filter (λ r, Batch.ID r = Batch.original_id p) (Batch.combined_df sheets))
     = Some row
     ∧ p = Batch.with_parent_id i (Batch.parent_of_row row))
  ∧ (∃ out c,
       Batch.export sheets = Batch.Ok out
       ∧ Batch.child_gender c = "Female"
       ∧ ∃ all i c0,
           Batch.all_children sheets = Batch.Ok all
           ∧ head (filter (λ x, Batch.dedupe_key x = Batch.dedupe_key c) all) = Some c0
           ∧ c = Batch.with_child_id i c0)
  ∧ extends (db s1) (db s2)
  ∧ select_parent (parent_phone submission)
      (db (process_rows iso_date sunday (submission :: [again]) s))
    = Some (ParentRow 1 "Ada Obi" "+234 801 234 5678" "Female")
  ∧ select_child 1 (child_name submission 1) (child_age submission 1) (db s2)
    = Some (ChildRow 1 1 "Jane Doe" 8 "Female").
Proof.
  intros row1 row2 sheets p again s s0 s1 s2.
  destruct first_sighting_wins as (Hp & Hc & Hext & Hfp & Hfc).
  split_and!.
  - apply (Hp sheets p). vm_compute. by left.
  - eexists. eexists (Batch.Child 1 1 "Jane Doe" 8 "Female" None "Child" "1_JANE DOE_8").
    split; [vm_compute; reflexivity|]. split; [reflexivity|].
    eapply (Hc sheets); [vm_compute; reflexivity|]. vm_compute. by left.
  - apply (Hext iso_date sunday s1 s2). apply later_rows.
  - apply (Hfp iso_date sunday submission [again] s sunday); vm_compute; reflexivity.
  - apply (Hfc iso_date sunday submission 1 sunday 1 s0 s1 s2).
    + vm_compute. discriminate.
    + vm_compute. reflexivity.
    + vm_compute. reflexivity.
    + apply later_rows.
Defined.

(** C10. In incremental mode a submission from a frame without a
    "Which Service" column is recorded under the service "First
    Service": every attendance row it adds carries that name, it is
    processed exactly as the same submission with "First Service"
    written out, and after that explicit submission it adds nothing to
    the store, its attendance facts being the ones already there. *)
Theorem absent_service_is_first_service to_datetime_date today row :
  row !! "Which Service" = None →
  service_name row = "First Service"
  ∧ (∀ s, process_row to_datetime_date today s row
          = process_row to_datetime_date today s
              (<["Which Service" := VStr "First Service"]> row))
  ∧ (∀ s a, a ∈ attendance (db (process_row to_datetime_date today s row)) →
            a ∈ attendance (db s) ∨ a_service_name a = "First Service")
  ∧ (∀ s, let s' := process_row to_datetime_date today s
                      (<["Which Service" := VStr "First Service"]> row) in
          db (process_row to_datetime_date today s' row) = db s').
Proof. apply default_service. Qed.

Lemma absent_service_is_first_service_witness :
  let row := delete "Which Service" submission in
  service_name row = "First Service"
  ∧ (∀ s, process_row iso_date sunday s row
          = process_row iso_date sunday s
              (<["Which Service" := VStr "First Service"]> row))
  ∧ (∀ s a, a ∈ attendance (db (process_row iso_date sunday s row)) →
            a ∈ attendance (db s) ∨ a_service_name a = "First Service")
  ∧ (∀ s, let s' := process_row iso_date sunday s
                      (<["Which Service" := VStr "First Service"]> row) in
          db (process_row iso_date sunday s' row) = db s').
Proof.
  intros row.
  apply (absent_service_is_first_service iso_date sunday row).
  vm_compute. reflexivity.
Defined.
End Claims.

(** ** Further properties of the two programs *)

Section Extras.
Import Incremental IncrementalFacts Ledger LedgerFacts Samples.
Import TransactionSamples TransactionFacts.

(** X1. After [process_attendance], [total_submissions] is the number
    of submissions of the frame, and the submissions counted as a parent
    found or created plus the ones counted as an error are that number,
    or one more: a submission is counted twice when a statement of its
    child slots is rejected after its parent was resolved, and only the
    first submission hit by a rejected statement can be. When no
    statement is rejected every submission is counted once: [errors] is
    the number of submissions stopped at line 77 or by [pd.to_datetime]
    raising, and [new_parents] plus [existing_parents] the number of the
    others. *)
Theorem statistics_account_for_every_submission database to_datetime_date today df conn :
  let t := (Transaction.process_attendance database to_datetime_date today df conn).2 in
  total_submissions t = Z.of_nat (length df)
  ∧ total_submissions t ≤ new_parents t + existing_parents t + errors t
    ≤ total_submissions t + 1
  ∧ (Transaction.statement_rejected database to_datetime_date today df conn = false →
     errors t
     = Z.of_nat (length (filter (λ r, Transaction.reaches_statements
                                        to_datetime_date today r = false) df))
     ∧ new_parents t + existing_parents t
       = Z.of_nat (length (filter (λ r, Transaction.reaches_statements
                                          to_datetime_date today r = true) df))
     ∧ new_parents t + existing_parents t + errors t = total_submissions t).
Proof.
  cbv zeta.
  destruct (Transaction.statement_rejected database to_datetime_date today df conn) eqn:Hrej.
  - unfold Transaction.statement_rejected in Hrej.
    destruct (first_rejection database to_datetime_date today df
                (Transaction.start df conn) eq_refl Hrej)
      as (pre & row & post & Hdf & Hpre & [Ha Ht He Hp] & E).
    unfold Transaction.process_attendance. cbn [snd]. rewrite E.
    destruct (process_rows_accepted database to_datetime_date today today pre _ Hpre)
      as [_ Hcur].
    rewrite Hcur in Ht, He, Hp.
    destruct (process_rows_ledger (Transaction.day_of today to_datetime_date) today pre
                (Transaction.cur (Transaction.start df conn))) as (H1 & H2 & H3 & _).
    pose proof (filter_split_length
                  (accepted (Transaction.day_of today to_datetime_date) today) pre).
    subst df. pose proof (length_app pre (row :: post)) as Hlen.
    cbn [length] in Hlen. simpl in *.
    split_and!; [lia | lia | lia | done].
  - rewrite (process_attendance_accepted database to_datetime_date today today df conn Hrej).
    unfold process_attendance. cbn [snd].
    destruct (process_rows_ledger (Transaction.day_of today to_datetime_date) today df
                (start df conn)) as (H1 & H2 & H3 & _).
    pose proof (filter_split_length
                  (accepted (Transaction.day_of today to_datetime_date) today) df).
    rewrite <- !(filter_accepted_reaches to_datetime_date today today).
    simpl in *. split_and!; [lia | lia | lia |]. intros _. split_and!; lia.
Qed.

Lemma statistics_account_for_every_submission_witness :
  let late := <["Timestamp" := VNaN]> submission in
  let t := (Transaction.process_attendance accepts_all iso_stamp sunday
              [submission; late; submission] (connect empty_store)).2 in
  let u := (Transaction.process_attendance accepts_all iso_stamp sunday
              [submission; delete "Your Phone" submission] (connect empty_store)).2 in
  (total_submissions t = 3 ∧ new_parents t + existing_parents t + errors t = 4)
  ∧ new_parents u + existing_parents u + errors u = total_submissions u.
Proof.
  intros late t u. split.
  - destruct (statistics_account_for_every_submission accepts_all iso_stamp sunday
                [submission; late; submission] (connect empty_store)) as (H & _ & _).
    split; [exact H | vm_compute; reflexivity].
  - destruct (statistics_account_for_every_submission accepts_all iso_stamp sunday
                [submission; delete "Your Phone" submission] (connect empty_store))
      as (_ & _ & H).
    apply H. vm_compute. reflexivity.
Defined.

(** X2. When no statement of the run is rejected, the counters of new
    entities are the growth of the tables: after [process_attendance],
    the parents table has [new_parents] more rows than before the run,
    the children table [new_children] more, and the attendance table
    [attendance_recorded] more. *)
Theorem new_counters_match_the_store database to_datetime_date today df conn :
  Transaction.statement_rejected database to_datetime_date today df conn = false →
  let run := Transaction.process_attendance database to_datetime_date today df conn in
  Z.of_nat (length (parents (committed run.1)))
  = Z.of_nat (length (parents (session conn))) + new_parents run.2
  ∧ Z.of_nat (length (children (committed run.1)))
    = Z.of_nat (length (children (session conn))) + new_children run.2
  ∧ Z.of_nat (length (attendance (committed run.1)))
    = Z.of_nat (length (attendance (session conn))) + attendance_recorded run.2.
Proof.
  intros Hok. cbv zeta.
  rewrite (process_attendance_accepted database to_datetime_date today today df conn Hok).
  destruct (process_attendance_ledger (Transaction.day_of today to_datetime_date) today
              df conn) as (H1 & H2 & H3 & _).
  done.
Qed.

Lemma new_counters_match_the_store_witness :
  let run := Transaction.process_attendance accepts_all iso_stamp sunday
               [submission; <["Child 2 Name" := VStr "John Doe"]> submission]
               (connect empty_store) in
  Z.of_nat (length (parents (committed run.1))) = 0 + new_parents run.2
  ∧ Z.of_nat (length (children (committed run.1))) = 0 + new_children run.2
  ∧ Z.of_nat (length (attendance (committed run.1))) = 0 + attendance_recorded run.2.
Proof.
  apply (new_counters_match_the_store accepts_all iso_stamp sunday
           [submission; <["Child 2 Name" := VStr "John Doe"]> submission]
           (connect empty_store)).
  vm_compute. reflexivity.
Defined.

(** X3. When no statement of the run is rejected, [new_children] plus
    [existing_children] is the number of named child slots of the
    submissions that reach the statements, [attendance_recorded] is
    between 0 and that number, and that number is at most three times
    the number of parents found or created. *)
Theorem children_counters_count_named_slots database to_datetime_date today df conn :
  Transaction.statement_rejected database to_datetime_date today df conn = false →
  let t := (Transaction.process_attendance database to_datetime_date today df conn).2 in
  let slots :=
    Z.of_nat (length (filter (λ r, Transaction.reaches_statements
                                     to_datetime_date today r = true) df
                      ≫= named_slots)) in
  new_children t + existing_children t = slots
  ∧ 0 ≤ attendance_recorded t ≤ slots
  ∧ slots ≤ 3 * (new_parents t + existing_parents t).
Proof.
  intros Hok. cbv zeta.
  rewrite (process_attendance_accepted database to_datetime_date today today df conn Hok).
  rewrite <- (filter_accepted_reaches to_datetime_date today today).
  apply process_attendance_children.
Qed.

Lemma children_counters_count_named_slots_witness :
  let df := [submission; <["Child 2 Name" := VStr "John Doe"]> submission] in
  let t := (Transaction.process_attendance accepts_all iso_stamp sunday df
              (connect empty_store)).2 in
  let slots :=
    Z.of_nat (length (filter (λ r, Transaction.reaches_statements iso_stamp sunday r = true)
                        df ≫= named_slots)) in
  slots = 3
  ∧ new_children t + existing_children t = slots
  ∧ 0 ≤ attendance_recorded t ≤ slots
  ∧ slots ≤ 3 * (new_parents t + existing_parents t).
Proof.
  intros df t slots. split; [vm_compute; reflexivity|].
  apply (children_counters_count_named_slots accepts_all iso_stamp sunday df
           (connect empty_store)).
  vm_compute. reflexivity.
Defined.

(** X4. A submission that is counted as an error writes nothing: taking
    it out of the frame leaves the final store the same, and lowers the
    error count by one. *)
Theorem error_submission_leaves_no_trace to_datetime_date today pre row post s :
  accepted to_datetime_date today row = false →
  db (process_rows to_datetime_date today (pre ++ row :: post) s)
  = db (process_rows to_datetime_date today (pre ++ post) s)
  ∧ errors (stats (process_rows to_datetime_date today (pre ++ row :: post) s))
    = errors (stats (process_rows to_datetime_date today (pre ++ post) s)) + 1.
Proof.
  intros Ha. split.
  - unfold process_rows. rewrite !foldl_app. simpl.
    rewrite not_accepted_writes_nothing by done.
    by apply process_rows_db.
  - destruct (process_rows_ledger to_datetime_date today (pre ++ row :: post) s)
      as (_ & -> & _).
    destruct (process_rows_ledger to_datetime_date today (pre ++ post) s)
      as (_ & -> & _).
    rewrite !filter_app, !length_app.
    rewrite (filter_cons_True (λ r, accepted to_datetime_date today r = false)) by done.
    simpl. lia.
Qed.

Lemma error_submission_leaves_no_trace_witness :
  let bad := <["Timestamp" := VStr "no date"]> submission in
  let s := State empty_store (init_stats 3) in
  db (process_rows iso_date sunday ([submission] ++ bad :: [submission]) s)
  = db (process_rows iso_date sunday ([submission] ++ [submission]) s)
  ∧ errors (stats (process_rows iso_date sunday ([submission] ++ bad :: [submission]) s))
    = errors (stats (process_rows iso_date sunday ([submission] ++ [submission]) s)) + 1.
Proof.
  intros bad s.
  apply (error_submission_leaves_no_trace iso_date sunday [submission] bad [submission] s).
  vm_compute. reflexivity.
Defined.

(** X5. When no statement is rejected while a frame is loaded in one
    run, loading its first part in one run and the rest in a second run,
    on the same day and against the same database, ends with the same
    store, no statement being rejected in either run, and the counters
    of the single run are the sums of the counters of the two. *)
Theorem splitting_a_run database to_datetime_date today df1 df2 conn :
  Transaction.statement_rejected database to_datetime_date today (df1 ++ df2) conn = false →
  let whole := Transaction.process_attendance database to_datetime_date today (df1 ++ df2)
                 conn in
  let first := Transaction.process_attendance database to_datetime_date today df1 conn in
  let second := Transaction.process_attendance database to_datetime_date today df2 first.1 in
  Transaction.statement_rejected database to_datetime_date today df1 conn = false
  ∧ Transaction.statement_rejected database to_datetime_date today df2 first.1 = false
  ∧ whole.1 = second.1
  ∧ new_parents whole.2 = new_parents first.2 + new_parents second.2
  ∧ new_children whole.2 = new_children first.2 + new_children second.2
  ∧ attendance_recorded whole.2
    = attendance_recorded first.2 + attendance_recorded second.2
  ∧ errors whole.2 = errors first.2 + errors second.2.
Proof.
  intros Hok. cbv zeta. unfold Transaction.statement_rejected in Hok.
  destruct (process_rows_alike database to_datetime_date today df1
              (Transaction.start (df1 ++ df2) conn) (Transaction.start df1 conn))
    as [Hdb Hab]; [done|].
  assert (Transaction.statement_rejected database to_datetime_date today df1 conn = false)
    as Hok1.
  { unfold Transaction.statement_rejected. rewrite <- Hab.
    by eapply accepted_so_far. }
  rewrite (process_attendance_accepted database to_datetime_date today today df1 conn Hok1).
  assert (Transaction.statement_rejected database to_datetime_date today df2
            (process_attendance (Transaction.day_of today to_datetime_date) today df1
               conn).1 = false) as Hok2.
  { unfold Transaction.statement_rejected.
    destruct (process_rows_accepted database to_datetime_date today today df1
                (Transaction.start df1 conn) Hok1) as [_ Hcur].
    rewrite process_rows_app in Hok.
    destruct (process_rows_alike database to_datetime_date today df2
                (Transaction.process_rows database to_datetime_date today df1
                   (Transaction.start (df1 ++ df2) conn))
                (Transaction.start df2
                   (process_attendance (Transaction.day_of today to_datetime_date)
                      today df1 conn).1)) as [_ Hab2]; [|by rewrite <- Hab2].
    split.
    - rewrite Hdb, Hcur. done.
    - rewrite Hab. exact Hok1. }
  rewrite (process_attendance_accepted database to_datetime_date today today _ _ Hok),
    (process_attendance_accepted database to_datetime_date today today _ _ Hok2).
  split_and!; [done | done |..];
    apply (process_attendance_split (Transaction.day_of today to_datetime_date) today
             df1 df2 conn).
Qed.

Lemma splitting_a_run_witness :
  let other := <["Your Phone" := VStr "0802"]> submission in
  let whole := Transaction.process_attendance accepts_all iso_stamp sunday
                 ([submission] ++ [other; submission]) (connect empty_store) in
  let first := Transaction.process_attendance accepts_all iso_stamp sunday [submission]
                 (connect empty_store) in
  let second := Transaction.process_attendance accepts_all iso_stamp sunday
                  [other; submission] first.1 in
  whole.1 = second.1
  ∧ new_parents whole.2 = new_parents first.2 + new_parents second.2.
Proof.
  intros other whole first second.
  destruct (splitting_a_run accepts_all iso_stamp sunday [submission] [other; submission]
              (connect empty_store)) as (_ & _ & H1 & H2 & _).
  { vm_compute. reflexivity. }
  split; [exact H1 | exact H2].
Defined.

(** X6. The pipeline never creates a second parent for a phone number: a
    parents table in which every phone number occurs once is still such a
    table after [process_attendance]. *)
Theorem phone_numbers_stay_unique to_datetime_date today df conn :
  NoDup (p_phone_number <$> parents (session conn)) →
  NoDup (p_phone_number <$>
           parents (committed (process_attendance to_datetime_date today df conn).1)).
Proof. intros H. by apply (phones_unique_kept _ _ df (start df conn)). Qed.

Lemma phone_numbers_stay_unique_witness :
  NoDup (p_phone_number <$>
           parents (committed (process_attendance iso_date sunday
                                 [submission; <["Your Name" := VStr "A. Obi"]> submission]
                                 (connect empty_store)).1)).
Proof.
  apply (phone_numbers_stay_unique iso_date sunday
           [submission; <["Your Name" := VStr "A. Obi"]> submission] (connect empty_store)).
  simpl. constructor.
Defined.

(** X7. The pipeline never creates a second child for a (parent_id,
    upper-cased name, age) triple: a children table in which every such
    triple occurs once is still such a table after [process_attendance]. *)
Theorem child_natural_keys_stay_unique to_datetime_date today df conn :
  NoDup (child_natural_key <$> children (session conn)) →
  NoDup (child_natural_key <$>
           children (committed (process_attendance to_datetime_date today df conn).1)).
Proof. intros H. by apply (child_keys_unique_kept _ _ df (start df conn)). Qed.

Lemma child_natural_keys_stay_unique_witness :
  NoDup (child_natural_key <$>
           children (committed (process_attendance iso_date sunday
                                  [submission;
                                   <["Child 2 Name" := VStr " jane DOE"]>
                                     (<["Child 2 Age" := VStr "8"]> submission)]
                                  (connect empty_store)).1)).
Proof.
  apply (child_natural_keys_stay_unique iso_date sunday
           [submission;
            <["Child 2 Name" := VStr " jane DOE"]>
              (<["Child 2 Age" := VStr "8"]> submission)] (connect empty_store)).
  simpl. constructor.
Defined.

(** X8. The pipeline keeps the foreign keys valid: if every child of the
    store has its parent in the parents table and every attendance row its
    child in the children table, the same holds after
    [process_attendance]; a child is only ever inserted under a parent that
    was just found or created, and attendance under a child likewise. *)
Theorem foreign_keys_stay_valid to_datetime_date today df conn :
  referential (session conn) →
  referential (committed (process_attendance to_datetime_date today df conn).1).
Proof. intros H. by apply (referential_kept _ _ df (start df conn)). Qed.

Lemma foreign_keys_stay_valid_witness :
  referential
    (committed (process_attendance iso_date sunday [submission] (connect empty_store)).1).
Proof.
  apply (foreign_keys_stay_valid iso_date sunday [submission] (connect empty_store)).
  split; simpl; intros x Hx; by apply elem_of_nil in Hx.
Defined.

(** X9. What the pipeline writes is validated: every parent and child row
    it inserts has gender Male or Female and a name that is not empty,
    every parent row a phone that is not empty, and every attendance row
    the presence flag set; so a store whose rows are all of that kind stays
    such a store. *)
Theorem written_rows_are_clean to_datetime_date today df conn :
  clean (session conn) →
  clean (committed (process_attendance to_datetime_date today df conn).1).
Proof. intros H. by apply (clean_kept _ _ df (start df conn)). Qed.

Lemma written_rows_are_clean_witness :
  clean
    (committed (process_attendance iso_date sunday
                  [<["Your Gender" := VStr "F"]> submission] (connect empty_store)).1).
Proof.
  apply (written_rows_are_clean iso_date sunday
           [<["Your Gender" := VStr "F"]> submission] (connect empty_store)).
  split; simpl; intros x Hx; by apply elem_of_nil in Hx.
Defined.

(** X10. All the attendance rows that one submission adds carry the same
    service name and the same date, the ones computed once for the
    submission, and the presence flag; and one submission adds at most
    three of them. *)
Theorem one_submission_one_date_and_service to_datetime_date today s row :
  (∀ a, a ∈ attendance (db (process_row to_datetime_date today s row)) →
        a ∈ attendance (db s)
        ∨ (a_service_name a = service_name row
           ∧ Some (a_attendance_date a) = attendance_date to_datetime_date today row
           ∧ a_was_present a = true))
  ∧ (length (attendance (db (process_row to_datetime_date today s row)))
     ≤ length (attendance (db s)) + 3)%nat.
Proof.
  split; [intros a; apply process_row_attendance|].
  destruct (process_row_ledger to_datetime_date today s row) as [_ _ _ _ _ _ H7 H8].
  assert (length (named_slots row) ≤ 3)%nat.
  { unfold named_slots. etrans; [apply length_filter|]. done. }
  destruct (accepted to_datetime_date today row); lia.
Qed.

Lemma one_submission_one_date_and_service_witness :
  let s := State empty_store (init_stats 1) in
  AttendanceRow 1 "Second Service" sunday true ∈ attendance (db s)
  ∨ (a_service_name (AttendanceRow 1 "Second Service" sunday true) = service_name submission
     ∧ Some (a_attendance_date (AttendanceRow 1 "Second Service" sunday true))
       = attendance_date iso_date sunday submission
     ∧ a_was_present (AttendanceRow 1 "Second Service" sunday true) = true).
Proof.
  intros s.
  destruct (one_submission_one_date_and_service iso_date sunday s submission) as [H _].
  apply H. vm_compute. by left.
Defined.

(** X11. In batch mode the parents are numbered 1, 2, ... in the order of
    their original id: the parent at position [i] of the table has
    parent_id [i + 1], and a parent that comes earlier in the table has the
    smaller original id. *)
Theorem parents_numbered_by_original_id sheets i j p q :
  Batch.unique_parents sheets !! i = Some p →
  Batch.unique_parents sheets !! j = Some q →
  Batch.parent_id p = Z.of_nat i + 1
  ∧ ((i < j)%nat → Batch.original_id p < Batch.original_id q)
  ∧ (Batch.parent_id p < Batch.parent_id q ↔ Batch.original_id p < Batch.original_id q).
Proof.
  intros Hp Hq.
  destruct (BatchReportFacts.unique_parents_lookup _ _ _ Hp) as (Ep & _).
  destruct (BatchReportFacts.unique_parents_lookup _ _ _ Hq) as (Eq & _).
  split; [done|]. split.
  - by apply (BatchReportFacts.unique_parents_ordered sheets i j).
  - rewrite Ep, Eq. split.
    + intros Hlt. apply (BatchReportFacts.unique_parents_ordered sheets i j); [done|done|lia].
    + intros Hlt. destruct (decide (i < j)%nat) as [|Hge]; [lia|].
      destruct (decide (i = j)) as [->|Hne].
      * assert (p = q) as -> by congruence. lia.
      * pose proof (BatchReportFacts.unique_parents_ordered sheets j i q p Hq Hp). lia.
Qed.

Lemma parents_numbered_by_original_id_witness :
  let sheets :=
    [("First Service", [Batch.SheetRow 42 (Batch.cells (family (VInt 1) (VInt 8)))]);
     ("Second Service", [family (VInt 1) (VInt 8)])] in
  let p := Batch.with_parent_id 0 (Batch.parent_of_row (family (VInt 1) (VInt 8))) in
  let q := Batch.with_parent_id 1
             (Batch.parent_of_row
                (Batch.SheetRow 42 (Batch.cells (family (VInt 1) (VInt 8))))) in
  Batch.parent_id p = Z.of_nat 0 + 1
  ∧ ((0 < 1)%nat → Batch.original_id p < Batch.original_id q)
  ∧ (Batch.parent_id p < Batch.parent_id q ↔ Batch.original_id p < Batch.original_id q).
Proof.
  intros sheets p q.
  apply (parents_numbered_by_original_id sheets 0 1 p q); vm_compute; reflexivity.
Defined.

(** X12. [parent_mapping] is a one-to-one numbering of the original ids of
    the workbook: an id is mapped exactly when some row of some sheet
    carries it, two different ids are never mapped to the same parent_id,
    and the parent_ids lie between 1 and the number of parents. *)
Theorem parent_mapping_numbers_the_ids sheets :
  (∀ k, is_Some (Batch.parent_mapping sheets !! k)
        ↔ k ∈ Batch.ID <$> Batch.combined_df sheets)
  ∧ (∀ k1 k2 v, Batch.parent_mapping sheets !! k1 = Some v →
                Batch.parent_mapping sheets !! k2 = Some v → k1 = k2)
  ∧ (∀ k v, Batch.parent_mapping sheets !! k = Some v →
            1 ≤ v ≤ Z.of_nat (length (Batch.unique_parents sheets)))
  ∧ NoDup (Batch.original_id <$> Batch.unique_parents sheets).
Proof.
  split_and!.
  - apply BatchReportFacts.parent_mapping_dom.
  - apply BatchReportFacts.parent_mapping_inj.
  - apply BatchReportFacts.parent_mapping_range.
  - apply BatchFacts.unique_parents_NoDup.
Qed.

Lemma parent_mapping_numbers_the_ids_witness :
  let sheets :=
    [("First Service", [Batch.SheetRow 42 (Batch.cells (family (VInt 1) (VInt 8)))]);
     ("Second Service", [family (VInt 1) (VInt 8)])] in
  42 = 42 ∧ 1 ≤ 2 ≤ Z.of_nat (length (Batch.unique_parents sheets)).
Proof.
  intros sheets.
  destruct (parent_mapping_numbers_the_ids sheets) as (_ & Hinj & Hrange & _).
  split.
  - apply (Hinj 42 42 2); vm_compute; reflexivity.
  - apply (Hrange 42 2). vm_compute. reflexivity.
Defined.

(** X13. The validation step of the batch script never finds an orphan:
    when the export completes, every child_id of the attendance table is in
    the children table and every parent_id of the children table is in the
    parents table, so both sets of orphans computed at lines 189 and 199
    are empty. *)
Theorem validation_finds_no_orphan sheets out :
  Batch.export sheets = Batch.Ok out →
  BatchReport.orphaned out = ∅ ∧ BatchReport.orphaned_children out = ∅.
Proof.
  intros Hout. unfold BatchReport.orphaned, BatchReport.orphaned_children.
  split; apply set_eq; intros x; rewrite elem_of_difference, !elem_of_list_to_set;
    (split; [|by intros ?%not_elem_of_empty]); intros [Hin Hnot]; destruct Hnot.
  - apply list_elem_of_fmap in Hin as (a & -> & Ha).
    by apply (BatchReportFacts.attendance_final_child sheets out).
  - apply list_elem_of_fmap in Hin as (c & -> & Hc).
    by apply (BatchReportFacts.children_final_parent sheets out).
Qed.

Lemma validation_finds_no_orphan_witness :
  ∃ out,
    Batch.export [("First Service", [family (VInt 1) (VInt 8)]);
                  ("Second Service", [family (VInt 0) (VInt 9)])] = Batch.Ok out
    ∧ BatchReport.orphaned out = ∅ ∧ BatchReport.orphaned_children out = ∅.
Proof.
  eexists. split; [vm_compute; reflexivity|].
  apply (validation_finds_no_orphan
           [("First Service", [family (VInt 1) (VInt 8)]);
            ("Second Service", [family (VInt 0) (VInt 9)])]).
  vm_compute. reflexivity.
Defined.

(** X14. In batch mode two named child slots of the workbook get the same
    child_id exactly when their rows carry the same original id, their
    names agree once trimmed and upper-cased, and their ages are equal: the
    text key of lines 84 and 130 never confuses two different (parent,
    name, age) triples, whatever the name contains. *)
Theorem child_ids_tell_children_apart sheets out row1 n1 row2 n2 :
  Batch.export sheets = Batch.Ok out →
  BatchReport.named_slot sheets row1 n1 →
  BatchReport.named_slot sheets row2 n2 →
  ∃ pid1 pid2 a1 a2 c1 c2,
    Batch.parent_mapping sheets !! Batch.ID row1 = Some pid1
    ∧ Batch.parent_mapping sheets !! Batch.ID row2 = Some pid2
    ∧ Batch.child_age row1 n1 = Batch.Ok a1
    ∧ Batch.child_age row2 n2 = Batch.Ok a2
    ∧ Batch.slot_child_id (Batch.child_lookup (Batch.children_final out)) pid1 row1 n1
      = Batch.Ok (Some c1)
    ∧ Batch.slot_child_id (Batch.child_lookup (Batch.children_final out)) pid2 row2 n2
      = Batch.Ok (Some c2)
    ∧ (c1 = c2 ↔ Batch.ID row1 = Batch.ID row2
                 ∧ upper (Batch.slot_name row1 n1) = upper (Batch.slot_name row2 n2)
                 ∧ a1 = a2).
Proof.
  intros Hout ((sheet1 & Hs1 & Hr1) & Hn1 & He1) ((sheet2 & Hs2 & Hr2) & Hn2 & He2).
  destruct (BatchFacts.named_slot_child sheets out sheet1 row1 n1 Hout Hs1 Hr1 Hn1 He1)
    as (pid1 & a1 & c1 & Hp1 & Ha1 & Hc1 & Hk1 & Hid1).
  destruct (BatchFacts.named_slot_child sheets out sheet2 row2 n2 Hout Hs2 Hr2 Hn2 He2)
    as (pid2 & a2 & c2 & Hp2 & Ha2 & Hc2 & Hk2 & Hid2).
  exists pid1, pid2, a1, a2, (Batch.child_id c1), (Batch.child_id c2).
  split_and!; try done.
  apply BatchFacts.export_Ok in Hout as (all & records & Hall & _ & ->). simpl in *.
  assert (Batch.child_id c1 = Batch.child_id c2
          ↔ Batch.dedupe_key c1 = Batch.dedupe_key c2) as ->.
  { split.
    - intros Hid.
      apply BatchFacts.children_unique_elem in Hc1 as (i1 & x1 & Hx1 & ->).
      apply BatchFacts.children_unique_elem in Hc2 as (i2 & x2 & Hx2 & ->).
      simpl in *. assert (i1 = i2) as -> by lia. congruence.
    - intros Hk. f_equal.
      eapply (NoDup_fmap_elem_inj Batch.dedupe_key);
        [apply BatchFacts.children_unique_NoDup | done | done | done]. }
  rewrite Hk1, Hk2. split.
  - intros (-> & Hname & Hage)%BatchReportFacts.child_key_inj. split_and!; [|done|done].
    by apply (BatchReportFacts.parent_mapping_inj sheets _ _ pid2).
  - intros (HID & -> & ->). rewrite HID, Hp2 in Hp1. by injection Hp1 as ->.
Qed.

Lemma child_ids_tell_children_apart_witness :
  let row1 := family (VInt 1) (VInt 8) in
  let row2 :=
    Batch.SheetRow 7
      (<["Full Name of Child 1" := VStr "Jane_Doe"]> (Batch.cells (family (VInt 1) (VInt 8)))) in
  let sheets := [("First Service", [row1]); ("Second Service", [row2])] in
  ∃ out,
    Batch.export sheets = Batch.Ok out
    ∧ ∃ pid1 pid2 a1 a2 c1 c2,
        Batch.parent_mapping sheets !! Batch.ID row1 = Some pid1
        ∧ Batch.parent_mapping sheets !! Batch.ID row2 = Some pid2
        ∧ Batch.child_age row1 1 = Batch.Ok a1
        ∧ Batch.child_age row2 1 = Batch.Ok a2
        ∧ Batch.slot_child_id (Batch.child_lookup (Batch.children_final out)) pid1 row1 1
          = Batch.Ok (Some c1)
        ∧ Batch.slot_child_id (Batch.child_lookup (Batch.children_final out)) pid2 row2 1
          = Batch.Ok (Some c2)
        ∧ (c1 = c2 ↔ Batch.ID row1 = Batch.ID row2
                     ∧ upper (Batch.slot_name row1 1) = upper (Batch.slot_name row2 1)
                     ∧ a1 = a2).
Proof.
  intros row1 row2 sheets.
  eexists. split; [vm_compute; reflexivity|].
  eapply (child_ids_tell_children_apart sheets _ row1 1 row2 1).
  - vm_compute. reflexivity.
  - split_and!; [exists ("First Service", [row1]); split; by left | by left |].
    vm_compute. reflexivity.
  - split_and!; [exists ("Second Service", [row2]); split; [right|]; by left | by left |].
    vm_compute. reflexivity.
Defined.

(** X15. On a workbook that has the parent columns, the batch export
    ends well exactly when the workbook has at least one named child
    slot and the age of every named child slot is missing or accepted by
    [int]; otherwise the script stops with an exception and exports
    nothing. The age of a slot without a name is never read. *)
Theorem export_ends_well_iff sheets :
  BatchReport.has_parent_cols sheets →
  (∃ out, Batch.export sheets = Batch.Ok out)
  ↔ (∃ row n, BatchReport.named_slot sheets row n)
    ∧ (∀ row n, BatchReport.named_slot sheets row n →
                ∃ a, Batch.child_age row n = Batch.Ok a).
Proof.
  intros _. split.
  - intros [out Hout]. split.
    + unfold Batch.export in Hout.
      destruct (Batch.all_children sheets) as [[|c all]|e] eqn:Hall; [done| |done].
      destruct (BatchFacts.all_children_elem sheets (c :: all) c Hall)
        as (sheet & row & n & pid & Hs & Hr & Hn & _ & Hslot); [by left|].
      exists row, n. split_and!; [eauto | done |].
      by apply BatchFacts.child_of_slot_Ok in Hslot as [[_ [=]] | (? & _)].
    + intros row n ((sheet & Hs & Hr) & Hn & He).
      destruct (BatchFacts.named_slot_child sheets out sheet row n Hout Hs Hr Hn He)
        as (_ & a & _ & _ & Ha & _).
      eauto.
  - intros [(row & n & (sheet & Hs & Hr) & Hn & He) Hages].
    destruct (BatchReportFacts.all_children_Ok sheets Hages) as [all Hall].
    destruct (BatchFacts.parent_mapping_row sheets row) as [pid Hpid].
    { apply BatchFacts.elem_of_combined_df. eauto. }
    destruct (BatchFacts.all_children_slot _ _ _ _ _ _ Hall Hs Hr Hn Hpid He)
      as (a & c & _ & Hc & _).
    destruct (BatchReportFacts.all_attendance_Ok sheets all Hall) as [records Hrec].
    unfold Batch.export. rewrite Hall. simpl.
    destruct all as [|c0 all]; [by apply elem_of_nil in Hc|].
    simpl. rewrite Hrec. simpl. by eexists.
Qed.

Lemma export_ends_well_iff_witness :
  (∃ out, Batch.export [("First Service", [family (VInt 1) (VStr " 8 ")])] = Batch.Ok out).
Proof.
  apply (export_ends_well_iff [("First Service", [family (VInt 1) (VStr " 8 ")])]).
  { intros label Hlabel Hid. exists (family (VInt 1) (VStr " 8 ")).
    split; [by left|].
    repeat (apply elem_of_cons in Hlabel as [-> | Hlabel];
            [try done; by vm_compute; eexists|]).
    by apply elem_of_nil in Hlabel. }
  assert (∀ row n,
            BatchReport.named_slot [("First Service", [family (VInt 1) (VStr " 8 ")])] row n →
            row = family (VInt 1) (VStr " 8 ") ∧ n = 1) as Hone.
  { intros row n ((sheet & Hs & Hr) & Hn & He).
    apply list_elem_of_singleton in Hs as ->. apply list_elem_of_singleton in Hr as ->.
    split; [done|].
    repeat (apply elem_of_cons in Hn as [-> | Hn]; [try done; by vm_compute in He|]).
    by apply elem_of_nil in Hn. }
  split.
  - exists (family (VInt 1) (VStr " 8 ")), 1.
    split_and!; [eexists; split; by left | by left | vm_compute; reflexivity].
  - intros row n [-> ->]%Hone. exists 8. vm_compute. reflexivity.
Defined.

(** X16. When no statement of the run is rejected, the phone numbers of
    the parents table after the run are the ones it held before the run
    together with the phones, trimmed, of the submissions that reach the
    statements: every such submission has its parent in the table, and
    no other parent is created. *)
Theorem stored_phones_after_a_run database to_datetime_date today df conn phone :
  Transaction.statement_rejected database to_datetime_date today df conn = false →
  phone ∈ p_phone_number <$>
            parents (committed (Transaction.process_attendance database to_datetime_date
                                  today df conn).1)
  ↔ phone ∈ p_phone_number <$> parents (session conn)
    ∨ ∃ row, row ∈ df
             ∧ Transaction.reaches_statements to_datetime_date today row = true
             ∧ parent_phone row = phone.
Proof.
  intros Hok.
  rewrite (process_attendance_accepted database to_datetime_date today today df conn Hok).
  rewrite (process_rows_phones (Transaction.day_of today to_datetime_date) today df
             (start df conn)).
  by setoid_rewrite (accepted_reaches to_datetime_date today today).
Qed.

Lemma stored_phones_after_a_run_witness :
  "+234 801 234 5678"
    ∈ p_phone_number <$>
        parents (committed (Transaction.process_attendance accepts_all iso_stamp sunday
                              [<["Your Phone" := VStr "  +234 801 234 5678 "]> submission]
                              (connect empty_store)).1).
Proof.
  apply (stored_phones_after_a_run accepts_all iso_stamp sunday
           [<["Your Phone" := VStr "  +234 801 234 5678 "]> submission]
           (connect empty_store)).
  - vm_compute. reflexivity.
  - right. eexists.
    split_and!; [by left | vm_compute; reflexivity | vm_compute; reflexivity].
Defined.

End Extras.
